(** * Science-School-3D-Simulation: the two physics models

    A shallow embedding of
      - [ohms_law_simulation/simulation/physics.py]  (class [OhmsLawPhysics])
      - [vision_simulation/simulation/physics.py]    (class [VisionPhysics])

    Modelling conventions.

    - A Python [float] is modelled by an exact rational ([Q]); a decimal
      literal of the source ([0.1], [12.0]) is the rational it denotes.
      Rounding of binary64 arithmetic is therefore abstracted away; numeric
      results are compared with [==] on [Q].
    - Python's [/] raises [ZeroDivisionError] on a zero divisor.  Every [/] of
      the source is [pdiv], which lives in the error monad [result].
    - Python's two-argument [max] and [min] return their first argument unless
      the second one is strictly larger (resp. smaller): [pymax], [pymin].
    - An object with mutable attributes is a record; a method that mutates
      [self] takes the record and returns the new one.
    - A class-level [dict] with string keys is a [gmap string _].
    - [Binary64] repeats [get_effective_near_point] on IEEE 754 binary64
      numbers, the floats Python computes with, to evaluate it at the inputs
      where the rational model finds the call raising or falling through.
    - Where a float is turned into an [int] (the path index of an electron),
      the result depends on the rounding: that computation is done on
      binary64 numbers, in the Standard Library's specification of the
      format ([SpecFloat]). *)

From Stdlib Require Import QArith Qabs Lqa ZArith Zpower Lia String.
From Stdlib Require Import Floats.PrimFloat Floats.SpecFloat.
From stdpp Require Import gmap strings.

Local Open Scope Q_scope.

(** ** Python runtime fragments *)

Inductive exn : Type :=
| ZeroDivisionError.

Inductive result (A : Type) : Type :=
| Ok (a : A)
| Raise (e : exn).

Arguments Ok {A} a.
Arguments Raise {A} e.

Definition bind {A B : Type} (c : result A) (k : A -> result B) : result B :=
  match c with
  | Ok a => k a
  | Raise e => Raise e
  end.

Notation "'let!' x ':=' c 'in' k" := (bind c (fun x => k))
  (at level 10, x name, c at level 100, k at level 200).

(** [a / b] on floats. *)
Definition pdiv (a b : Q) : result Q :=
  if Qeq_dec b 0 then Raise ZeroDivisionError else Ok (a / b).

(** [max(a, b)] and [min(a, b)] on floats. *)
Definition pymax (a b : Q) : Q := if Qlt_le_dec a b then b else a.
Definition pymin (a b : Q) : Q := if Qlt_le_dec b a then b else a.

(** [max(a, b)] and [min(a, b)] on ints. *)
Definition pymaxZ (a b : Z) : Z := if Z_lt_le_dec a b then b else a.
Definition pyminZ (a b : Z) : Z := if Z_lt_le_dec b a then b else a.

(** [x < y] on floats, as a boolean. *)
Definition Qltb (x y : Q) : bool := if Qlt_le_dec x y then true else false.

Infix "<?" := Qltb (at level 70, no associativity) : Q_scope.

(** A value a clamp to [lo, hi] can return: one of the two bounds as written
    in the source, or a number strictly between them. *)
Definition clamped (lo hi x : Q) : Prop :=
  x = lo \/ x = hi \/ lo < x < hi.

(** ** ohms_law_simulation/simulation/physics.py *)

Module OhmsLawPhysics.

Definition MIN_VOLTAGE : Q := 1.0.
Definition MAX_VOLTAGE : Q := 50.0.
Definition MIN_RESISTANCE : Q := 1.0.
Definition MAX_RESISTANCE : Q := 100.0.
Definition MIN_SAFE_RESISTANCE : Q := 0.1.

(** One entry of [PRESETS]: the keys ['voltage'] and ['resistance']. *)
Record preset : Type := mk_preset {
  voltage : Q;
  resistance : Q
}.

Definition PRESETS : gmap string preset :=
  list_to_map
    [ ("normal"%string,        mk_preset 12.0 10.0);
      ("high_current"%string,  mk_preset 24.0 2.0);
      ("low_current"%string,   mk_preset 5.0 50.0);
      ("short_circuit"%string, mk_preset 12.0 0.1);
      ("open_circuit"%string,  mk_preset 12.0 100.0) ].

(** The instance attributes. *)
Record t : Type := mk {
  _voltage : Q;
  _resistance : Q;
  _current : Q;
  _power : Q
}.

Definition _clamp_voltage (voltage : Q) : Q :=
  pymax MIN_VOLTAGE (pymin MAX_VOLTAGE voltage).

Definition _clamp_resistance (resistance : Q) : Q :=
  pymax MIN_RESISTANCE (pymin MAX_RESISTANCE resistance).

Definition _update_calculations (self : t) : result t :=
  let safe_resistance := pymax (_resistance self) MIN_SAFE_RESISTANCE in
  let! current := pdiv (_voltage self) safe_resistance in
  let power := _voltage self * current in
  Ok (mk (_voltage self) (_resistance self) current power).

(** [__init__(voltage, resistance)]. *)
Definition init (voltage resistance : Q) : result t :=
  _update_calculations
    (mk (_clamp_voltage voltage) (_clamp_resistance resistance) 0.0 0.0).

(** [@voltage.setter]. *)
Definition set_voltage (value : Q) (self : t) : result t :=
  _update_calculations
    (mk (_clamp_voltage value) (_resistance self)
        (_current self) (_power self)).

(** [@resistance.setter]. *)
Definition set_resistance (value : Q) (self : t) : result t :=
  _update_calculations
    (mk (_voltage self) (_clamp_resistance value)
        (_current self) (_power self)).

(** [set_preset(preset_name)]: the returned boolean and the new object. *)
Definition set_preset (preset_name : string) (self : t) : result (bool * t) :=
  match PRESETS !! preset_name with
  | Some preset =>
      let! self1 := set_voltage (voltage preset) self in
      let! self2 := set_resistance (resistance preset) self1 in
      Ok (true, self2)
  | None => Ok (false, self)
  end.

Definition is_dangerous (self : t) : bool * string :=
  if 20.0 <? _current self then
    (true, "WARNING: Very high current! Risk of short circuit!"%string)
  else if 500.0 <? _power self then
    (true, "WARNING: Very high power dissipation!"%string)
  else
    (false, EmptyString).

(** The calls that mutate an [OhmsLawPhysics] object. *)
Inductive mutator : Type :=
| SetVoltage (value : Q)
| SetResistance (value : Q)
| SetPreset (preset_name : string).

Definition run (m : mutator) (self : t) : result t :=
  match m with
  | SetVoltage value => set_voltage value self
  | SetResistance value => set_resistance value self
  | SetPreset preset_name =>
      let! r := set_preset preset_name self in Ok (snd r)
  end.

(** The objects a program can hold: built by [__init__], then mutated. *)
Inductive reachable : t -> Prop :=
| reach_init voltage resistance self :
    init voltage resistance = Ok self -> reachable self
| reach_run m self self' :
    reachable self -> run m self = Ok self' -> reachable self'.

(** What every object satisfies between two calls: the stored inputs are in
    their public ranges and the derived attributes are up to date. *)
Definition invariant (self : t) : Prop :=
  (MIN_VOLTAGE <= _voltage self <= MAX_VOLTAGE) /\
  (MIN_RESISTANCE <= _resistance self <= MAX_RESISTANCE) /\
  _update_calculations self = Ok self.

(** [get_electron_speed_factor(base_speed)]. *)
Definition get_electron_speed_factor (base_speed : Q) (self : t) : Q :=
  base_speed * (1.0 + _current self * 0.5).

(** [get_intensity_color(base_color)], on an RGBA tuple. *)
Definition get_intensity_color (base_color : Q * Q * Q * Q) (self : t)
  : result (Q * Q * Q * Q) :=
  let! ratio := pdiv (_current self) 50.0 in
  let intensity := pymin ratio 1.0 in
  let '(r, g, b, a) := base_color in
  Ok (r * (0.3 + 0.7 * intensity),
      g * (0.3 + 0.7 * intensity),
      b * (0.3 + 0.7 * intensity),
      a).

End OhmsLawPhysics.

(** ** vision_simulation/simulation/physics.py *)

Module VisionPhysics.

Definition NORMAL_NEAR_POINT : Q := 25.0.
Definition MIN_NEAR_POINT : Q := 10.0.
Definition MAX_NEAR_POINT : Q := 100.0.
Definition MIN_POWER : Q := -10.0.
Definition MAX_POWER : Q := 10.0.

(** One entry of [PRESETS]: the keys ['near_point'], ['age'] and
    ['description']. *)
Record preset : Type := mk_preset {
  near_point : Q;
  age : Z;
  description : string
}.

Definition PRESETS : gmap string preset :=
  list_to_map
    [ ("normal"%string,
        mk_preset 25.0 25 "Normal Vision - Student");
      ("mild_myopia"%string,
        mk_preset 15.0 20 "Mild Myopia - Young Adult");
      ("moderate_myopia"%string,
        mk_preset 12.0 18 "Moderate Myopia - Teen");
      ("mild_hyperopia"%string,
        mk_preset 40.0 45 "Mild Hyperopia - Middle-aged");
      ("presbyopia"%string,
        mk_preset 50.0 60 "Presbyopia - Elderly") ].

(** The instance attributes.  [_age] is an [int]: [__init__] stores [25],
    the presets store ints, and the caller of the setter passes
    [int(slider value)]. *)
Record t : Type := mk {
  _near_point : Q;
  _object_distance : Q;
  _lens_power : Q;
  _age : Z;
  _required_power : Q
}.

Definition _clamp_near_point (value : Q) : Q :=
  pymax MIN_NEAR_POINT (pymin MAX_NEAR_POINT value).

Definition _clamp_distance (value : Q) : Q :=
  pymax 5.0 (pymin 200.0 value).

Definition _calculate_required_power (self : t) : result t :=
  if Qabs (_near_point self - NORMAL_NEAR_POINT) <? 0.1 then
    Ok (mk (_near_point self) (_object_distance self) (_lens_power self)
           (_age self) 0.0)
  else
    let! v := pdiv (- _near_point self) 100.0 in
    let! u := pdiv (- NORMAL_NEAR_POINT) 100.0 in
    let! inv_v := pdiv 1.0 v in
    let! inv_u := pdiv 1.0 u in
    let focal_length_inv := inv_v - inv_u in
    Ok (mk (_near_point self) (_object_distance self) (_lens_power self)
           (_age self) focal_length_inv).

(** [__init__(near_point, object_distance)]; [_required_power] does not
    exist before [_calculate_required_power] assigns it, the [0.0] below is
    never read. *)
Definition init (near_point object_distance : Q) : result t :=
  _calculate_required_power
    (mk (_clamp_near_point near_point) (_clamp_distance object_distance)
        0.0 25 0.0).

(** [@near_point.setter]. *)
Definition set_near_point (value : Q) (self : t) : result t :=
  _calculate_required_power
    (mk (_clamp_near_point value) (_object_distance self)
        (_lens_power self) (_age self) (_required_power self)).

(** [@object_distance.setter]. *)
Definition set_object_distance (value : Q) (self : t) : result t :=
  Ok (mk (_near_point self) (_clamp_distance value)
         (_lens_power self) (_age self) (_required_power self)).

(** [@lens_power.setter]. *)
Definition set_lens_power (value : Q) (self : t) : result t :=
  Ok (mk (_near_point self) (_object_distance self)
         (pymax MIN_POWER (pymin MAX_POWER value))
         (_age self) (_required_power self)).

(** [@age.setter]. *)
Definition set_age (value : Z) (self : t) : result t :=
  let age := pymaxZ 5 (pyminZ 100 value) in
  if (40 <? age)%Z then
    let! age_factor := pdiv (inject_Z (age - 40)) 60.0 in
    _calculate_required_power
      (mk (25.0 + age_factor * 30.0) (_object_distance self)
          (_lens_power self) age (_required_power self))
  else
    Ok (mk (_near_point self) (_object_distance self)
           (_lens_power self) age (_required_power self)).

Definition get_required_power (self : t) : Q := _required_power self.

Definition get_vision_condition (self : t) : string :=
  if _near_point self <? 20.0 then "myopia"
  else if 30.0 <? _near_point self then
    if (45 <? _age self)%Z then "presbyopia" else "hyperopia"
  else "normal".

Definition get_lens_type (self : t) : string :=
  if _near_point self <? NORMAL_NEAR_POINT - 2 then "concave"
  else if NORMAL_NEAR_POINT + 2 <? _near_point self then "convex"
  else "none".

Definition get_effective_near_point (self : t) : result Q :=
  if Qabs (_lens_power self) <? 0.01 then
    Ok (_near_point self)
  else if 0.01 <? Qabs (_lens_power self) then
    let! focal_length := pdiv 1.0 (_lens_power self) in
    let! u := pdiv (- NORMAL_NEAR_POINT) 100.0 in
    let f := focal_length in
    if 0.001 <? Qabs (f - u) then
      let! v := pdiv (f * u) (f + u) in
      let effective_near_point := Qabs (v * 100.0) in
      Ok (pymin 100.0 (pymax 10.0 effective_near_point))
    else
      Ok (_near_point self)
  else
    Ok (_near_point self).

Definition get_focus_quality (self : t) : result Q :=
  let! effective_np := get_effective_near_point self in
  if Qabs (_object_distance self - effective_np) <? 2.0 then
    Ok 1.0
  else
    let distance_error := Qabs (_object_distance self - effective_np) in
    let max_blur_distance := 30.0 in
    let! ratio := pdiv distance_error max_blur_distance in
    let focus := pymax 0.0 (1.0 - ratio) in
    Ok focus.

(** [set_preset(preset_name)]: the returned boolean and the new object. *)
Definition set_preset (preset_name : string) (self : t) : result (bool * t) :=
  match PRESETS !! preset_name with
  | Some preset =>
      let! self' :=
        _calculate_required_power
          (mk (near_point preset) (_object_distance self)
              (_lens_power self) (age preset) (_required_power self)) in
      Ok (true, self')
  | None => Ok (false, self)
  end.

(** The calls that mutate a [VisionPhysics] object. *)
Inductive mutator : Type :=
| SetNearPoint (value : Q)
| SetObjectDistance (value : Q)
| SetLensPower (value : Q)
| SetAge (value : Z)
| SetPreset (preset_name : string).

Definition run (m : mutator) (self : t) : result t :=
  match m with
  | SetNearPoint value => set_near_point value self
  | SetObjectDistance value => set_object_distance value self
  | SetLensPower value => set_lens_power value self
  | SetAge value => set_age value self
  | SetPreset preset_name =>
      let! r := set_preset preset_name self in Ok (snd r)
  end.

(** The objects a program can hold: built by [__init__], then mutated. *)
Inductive reachable : t -> Prop :=
| reach_init near_point object_distance self :
    init near_point object_distance = Ok self -> reachable self
| reach_run m self self' :
    reachable self -> run m self = Ok self' -> reachable self'.

(** What every object satisfies between two calls: the near point is in its
    public range and the required power is up to date. *)
Definition invariant (self : t) : Prop :=
  (MIN_NEAR_POINT <= _near_point self <= MAX_NEAR_POINT) /\
  _calculate_required_power self = Ok self.

Definition is_clear_vision (self : t) : bool :=
  let power_diff := Qabs (_lens_power self - _required_power self) in
  power_diff <? 0.25.

(** [get_ray_convergence_point(lens_present)]. *)
Definition get_ray_convergence_point (lens_present : bool) (self : t)
  : result Q :=
  if negb lens_present || (Qabs (_lens_power self) <? 0.01) then
    Ok (_near_point self)
  else
    get_effective_near_point self.

End VisionPhysics.

(** ** [get_effective_near_point] on binary64 floats *)

Module Binary64.

(** [a / b]: Python raises when the divisor compares equal to zero. *)
Definition fdiv (a b : float) : result float :=
  if (b =? 0)%float then Raise ZeroDivisionError else Ok (a / b)%float.

Definition fmax (a b : float) : float := if (a <? b)%float then b else a.
Definition fmin (a b : float) : float := if (b <? a)%float then b else a.

Definition NORMAL_NEAR_POINT : float := 25.0%float.

(** The method reads [self._lens_power] and [self._near_point] only. *)
Definition get_effective_near_point (_near_point _lens_power : float)
  : result float :=
  if (abs _lens_power <? 0.01)%float then
    Ok _near_point
  else if (0.01 <? abs _lens_power)%float then
    let! focal_length := fdiv 1.0%float _lens_power in
    let! u := fdiv (- NORMAL_NEAR_POINT)%float 100.0%float in
    let f := focal_length in
    if (0.001 <? abs (f - u))%float then
      let! v := fdiv (f * u)%float (f + u)%float in
      let effective_near_point := abs (v * 100.0)%float in
      Ok (fmin 100.0%float (fmax 10.0%float effective_near_point))
    else
      Ok _near_point
  else
    Ok _near_point.

End Binary64.

(** ** Python lists and ints, for the scene modules

    The scene modules index and slice lists and convert between ints and
    floats, so next to [ZeroDivisionError] a call can end in [IndexError],
    [OverflowError] or [ValueError]. *)

Inductive error : Type :=
| DivisionByZero
| IndexError
| OverflowError
| ValueError.

Inductive outcome (A : Type) : Type :=
| Return (a : A)
| Throw (e : error).

Arguments Return {A} a.
Arguments Throw {A} e.

Definition obind {A B : Type} (c : outcome A) (k : A -> outcome B)
  : outcome B :=
  match c with
  | Return a => k a
  | Throw e => Throw e
  end.

Notation "'let?' x ':=' c 'in' k" := (obind c (fun x => k))
  (at level 10, x name, c at level 100, k at level 200).

(** A computation of the physics modules, inside a scene method. *)
Definition lift {A : Type} (c : result A) : outcome A :=
  match c with
  | Ok a => Return a
  | Raise ZeroDivisionError => Throw DivisionByZero
  end.

(** A [for] loop that builds a list, one element per item. *)
Fixpoint mapM {A B : Type} (f : A -> outcome B) (l : list A)
  : outcome (list B) :=
  match l with
  | [] => Return []
  | a :: l' =>
      let? b := f a in
      let? bs := mapM f l' in
      Return (b :: bs)
  end.

(** [range(n)]; empty when [n <= 0]. *)
Definition range (n : Z) : list Z := map Z.of_nat (seq 0 (Z.to_nat n)).

(** [len(l)]. *)
Definition len {A : Type} (l : list A) : Z := Z.of_nat (length l).

(** [enumerate(l)]. *)
Definition enumerate {A : Type} (l : list A) : list (Z * A) :=
  combine (range (len l)) l.

(** [l[i]]: a negative index counts from the end. *)
Definition getitem {A : Type} (l : list A) (i : Z) : outcome A :=
  let j := if (i <? 0)%Z then (i + len l)%Z else i in
  if (j <? 0)%Z then Throw IndexError
  else match nth_error l (Z.to_nat j) with
       | Some a => Return a
       | None => Throw IndexError
       end.

(** Where a slice bound [s] falls in a list of length [n]. *)
Definition slice_bound (n s : Z) : nat :=
  Z.to_nat (if (s <? 0)%Z then Z.max 0 (s + n) else Z.min s n).

(** [l[s:]] and [l[:s]]. *)
Definition slice_from {A : Type} (l : list A) (s : Z) : list A :=
  skipn (slice_bound (len l) s) l.
Definition slice_to {A : Type} (l : list A) (s : Z) : list A :=
  firstn (slice_bound (len l) s) l.

(** Binary64: 53 bits of precision, exponents below 1024. *)
Definition prec : Z := 53.
Definition emax : Z := 1024.

(** [float(n)] of an int, the conversion behind [x * n] for a float [x]:
    the nearest float, ties to even; an int beyond the floats raises
    [OverflowError]. *)
Definition float_of_int (n : Z) : outcome spec_float :=
  match binary_normalize prec emax n 0 false with
  | S754_infinity _ => Throw OverflowError
  | x => Return x
  end.

(** [a / b] on ints: the quotient of the two ints, rounded once to the
    nearest float; a quotient beyond the floats raises [OverflowError]. *)
Definition int_truediv (a b : Z) : outcome spec_float :=
  if (b =? 0)%Z then Throw DivisionByZero
  else
    let '(mz, ez, lz) :=
      SFdiv_core_binary prec emax (Z.abs a) 0 (Z.abs b) 0 in
    match binary_round_aux prec emax (xorb (a <? 0)%Z (b <? 0)%Z) mz ez lz with
    | S754_infinity _ => Throw OverflowError
    | q => Return q
    end.

(** [x * n] for a float [x] and an int [n]. *)
Definition float_mul_int (x : spec_float) (n : Z) : outcome spec_float :=
  let? y := float_of_int n in
  Return (SFmul prec emax x y).

(** [int(x)] of a float: truncation towards zero; an infinity raises
    [OverflowError], a NaN [ValueError]. *)
Definition int_of_float (x : spec_float) : outcome Z :=
  match x with
  | S754_zero _ => Return 0%Z
  | S754_finite s m e => Return (cond_Zopp s (Z.shiftl (Z.pos m) e))
  | S754_infinity _ => Throw OverflowError
  | S754_nan => Throw ValueError
  end.

(** [a % b] on ints: the sign of the result is the sign of [b]. *)
Definition pymod (a b : Z) : outcome Z :=
  if (b =? 0)%Z then Throw DivisionByZero else Return (a mod b)%Z.

(** ** ohms_law_simulation/simulation/circuit.py

    A Panda3D node is modelled by the attributes the methods set on it: the
    colour passed to [setColor], the position passed to [setPos], the
    intervals handed to [Sequence]. *)

Module Circuit.

Definition Point3 : Type := (Q * Q * Q)%type.
Definition Color : Type := (Q * Q * Q * Q)%type.

(** [create_box(width, height, depth)]: the (vertex, normal, colour) rows
    written to the vertex data, in order, and the indices added to the
    triangle primitive. *)
Definition create_box (width height depth : Q)
  : outcome (list (Point3 * Point3 * Color) * list Z) :=
  let? w := lift (pdiv width 2) in
  let? h := lift (pdiv height 2) in
  let? d := lift (pdiv depth 2) in
  let vertices : list Point3 :=
    [ (- w, - h, - d); (w, - h, - d); (w, h, - d); (- w, h, - d);
      (- w, - h, d); (w, - h, d); (w, h, d); (- w, h, d) ] in
  let faces : list (list Z) :=
    [ [0; 1; 2; 0; 2; 3]; [4; 6; 5; 4; 7; 6]; [1; 5; 6; 1; 6; 2];
      [0; 3; 7; 0; 7; 4]; [3; 2; 6; 3; 6; 7]; [0; 4; 5; 0; 5; 1] ]%Z in
  let normals : list Point3 :=
    [ (0, 0, -1); (0, 0, 1); (1, 0, 0); (-1, 0, 0); (0, 1, 0); (0, -1, 0) ] in
  let? rows :=
    mapM (fun '(face_idx, face) =>
            mapM (fun idx =>
                    let? v := getitem vertices idx in
                    let? n := getitem normals face_idx in
                    Return (v, n, (1, 1, 1, 1)))
                 face)
         (enumerate faces) in
  let prim := range (len faces * 6) in
  Return (concat rows, prim).

(** [Battery.update_voltage_visual]: the colour given to the indicator. *)
Definition update_voltage_visual (voltage max_voltage : Q) : outcome Color :=
  let? intensity := lift (pdiv voltage max_voltage) in
  Return (intensity, intensity, 0.3, 1.0).

(** [Resistor.update_resistance_visual]: the colour given to the body. *)
Definition update_resistance_visual (resistance max_resistance : Q)
  : outcome Color :=
  let? intensity := lift (pdiv resistance max_resistance) in
  Return (0.2, 0.4 * (1 - intensity * 0.5), 0.8, 1.0).

(** A [LerpPosInterval(node, duration, pos, startPos=...)]. *)
Record LerpPosInterval : Type := mk_interval {
  duration : Q;
  pos : Point3;
  startPos : Point3
}.

(** An [Electron]: where its node is when a method returns, the colour of
    its sphere, and the intervals of the looping [Sequence], if any. *)
Record Electron : Type := mk_electron {
  position : Point3;
  sphere_color : Color;
  animation_sequence : option (list LerpPosInterval)
}.

(** [Electron(parent_node, position)]. *)
Definition new_electron (position : Point3) : Electron :=
  mk_electron position (1.0, 1.0, 0.2, 1.0) None.

(** [Electron.update_color(intensity)]. *)
Definition update_color (intensity : Q) (self : Electron) : Electron :=
  let brightness := 0.3 + 0.7 * intensity in
  mk_electron (position self) (brightness, brightness, 0.2, 1.0)
              (animation_sequence self).

(** [if self.animation_sequence: self.animation_sequence.finish()]: where
    the node is afterwards.  Finishing a [Sequence] runs its intervals to
    their end, which leaves the node at the [pos] of the last one; without a
    sequence, or with one that holds no interval, the node stays where it
    is. *)
Definition finish_animation (self : Electron) : Point3 :=
  match animation_sequence self with
  | Some intervals => List.last (map pos intervals) (position self)
  | None => position self
  end.

(** [Electron.animate_along_path(path_points, speed_factor)]. *)
Definition animate_along_path
  (path_points : list Point3) (speed_factor : Q) (self : Electron)
  : outcome Electron :=
  if (len path_points <? 2)%Z then Return self
  else
    let position := finish_animation self in
    let? duration_per_segment := lift (pdiv 0.1 speed_factor) in
    let? intervals :=
      mapM (fun i =>
              let? next := getitem path_points (i + 1) in
              let? start := getitem path_points i in
              Return (mk_interval duration_per_segment next start))
           (range (len path_points - 1)) in
    Return (mk_electron position (sphere_color self) (Some intervals)).

(** A [Circuit]: the colours of the battery indicator and of the resistor
    body, the electron path and the electrons. *)
Record t : Type := mk {
  indicator_color : Color;
  body_color : Color;
  electron_path : list Point3;
  electrons : list Electron
}.

(** The path [_create_electron_path] stores. *)
Definition the_electron_path : list Point3 :=
  [ (-2.5, 0, 0.5); (-1, 0, 0.5); (0, 0, 0.5); (1, 0, 0.5);
    (2.4, 0, 0.5); (2.4, 0, 0.3); (2.4, 0, 0); (2.4, 0, -0.3);
    (2.4, 0, -0.5); (1, 0, -0.5); (0, 0, -0.5); (-1, 0, -0.5);
    (-2.5, 0, -0.5); (-2.5, 0, -0.3); (-2.5, 0, 0); (-2.5, 0, 0.3);
    (-2.5, 0, 0.5) ].

(** [int((i / n) * size)], the share of the path that both loops below
    compute: a quotient of two ints, a product with an int and a truncation,
    all three on binary64 numbers. *)
Definition share_index (i n size : Z) : outcome Z :=
  let? share := int_truediv i n in
  let? scaled := float_mul_int share size in
  int_of_float scaled.

Definition _create_electrons (num_electrons : Z) (self : t) : outcome t :=
  let path_length := len (electron_path self) in
  let? created :=
    mapM (fun i =>
            let? path_index := share_index i num_electrons path_length in
            let? k := pymod path_index path_length in
            let? position := getitem (electron_path self) k in
            Return (new_electron position))
         (range num_electrons) in
  Return (mk (indicator_color self) (body_color self) (electron_path self)
             (electrons self ++ created)).

(** [Circuit(parent_node)]: [_create_circuit] with the colours the battery
    and the resistor start with. *)
Definition init : outcome t :=
  _create_electrons 15
    (mk (1.0, 1.0, 0.3, 1.0) (0.2, 0.4, 0.8, 1.0) the_electron_path []).

(** The speed factor and the colour intensity are computed on rationals, as
    everywhere for floats that are not turned into ints.  In exact arithmetic
    the speed factor is zero at the current -5/3 only, which is no float; in
    binary64 the sum rounds to zero at the float next to it.  The facts
    proved about this method take a current of at least 0, where the speed
    factor is at least 0.5 in both arithmetics. *)
Definition _update_electron_flow (current : Q) (self : t) : outcome t :=
  let speed_factor := 0.5 + current * 0.3 in
  let? ratio := lift (pdiv current 50.0) in
  let intensity := pymin ratio 1.0 in
  let? updated :=
    mapM (fun '(i, electron) =>
            let electron := update_color intensity electron in
            let? start_index :=
              share_index i (len (electrons self))
                          (len (electron_path self)) in
            let rotated_path :=
              slice_from (electron_path self) start_index
              ++ slice_to (electron_path self) start_index in
            animate_along_path rotated_path speed_factor electron)
         (enumerate (electrons self)) in
  Return (mk (indicator_color self) (body_color self) (electron_path self)
             updated).

(** [Circuit.update(voltage, resistance, current, max_voltage,
    max_resistance)]. *)
Definition update (voltage resistance current max_voltage max_resistance : Q)
  (self : t) : outcome t :=
  let? indicator := update_voltage_visual voltage max_voltage in
  let? body := update_resistance_visual resistance max_resistance in
  _update_electron_flow current
    (mk indicator body (electron_path self) (electrons self)).

(** [OhmsLawSimulation.on_parameters_changed] (main.py): the circuit is
    updated from the physics object. *)
Definition on_parameters_changed (physics : OhmsLawPhysics.t) (circuit : t)
  : outcome t :=
  update (OhmsLawPhysics._voltage physics) (OhmsLawPhysics._resistance physics)
         (OhmsLawPhysics._current physics)
         OhmsLawPhysics.MAX_VOLTAGE OhmsLawPhysics.MAX_RESISTANCE circuit.

(** Vector algebra and path vocabulary, to state facts about the geometry:
    difference, dot and cross product of points, and the intervals that lead
    from each point of a path to the next one. *)
Definition vsub (p q : Point3) : Point3 :=
  let '(px, py, pz) := p in
  let '(qx, qy, qz) := q in
  (px - qx, py - qy, pz - qz).

Definition dot (p q : Point3) : Q :=
  let '(px, py, pz) := p in
  let '(qx, qy, qz) := q in
  px * qx + py * qy + pz * qz.

Definition cross (p q : Point3) : Point3 :=
  let '(px, py, pz) := p in
  let '(qx, qy, qz) := q in
  (py * qz - pz * qy, pz * qx - px * qz, px * qy - py * qx).

Definition legs (duration : Q) (path : list Point3) : list LerpPosInterval :=
  map (fun '(a, b) => mk_interval duration b a) (combine path (tl path)).

End Circuit.

(** ** vision_simulation/simulation/optical_components.py

    As in [Circuit], a Panda3D node is the attributes the methods set on it.
    The scene holds a reference to the physics object the user interface
    mutates; the methods below take that object as an argument. *)

Module OpticalComponents.

Definition Point3 : Type := (Q * Q * Q)%type.
Definition Color : Type := (Q * Q * Q * Q)%type.

(** A [CorrectiveLens]: its type name, the colour of the disk, whether the
    node is hidden, and where it is. *)
Record CorrectiveLens : Type := mk_lens {
  lens_type : string;
  lens_disk_color : Color;
  lens_hidden : bool;
  lens_pos : Point3
}.


(** [CorrectiveLens.update_type(lens_type)]. *)
Definition update_type (new_type : string) (self : CorrectiveLens)
  : CorrectiveLens :=
  if String.eqb new_type (lens_type self) then self
  else mk_lens new_type (lens_disk_color self) (lens_hidden self)
               (lens_pos self).

(** A [LightRay]: its end points, its colour, the [segments] attribute (absent
    until [update_path_segments] assigns it) and the points of the line
    [_create_ray] draws. *)
Record LightRay : Type := mk_ray {
  start : Point3;
  end_ : Point3;
  color : Color;
  segments : option (list Point3);
  drawn : list Point3
}.

(** [LightRay._create_ray]: the points of the line that is drawn. *)
Definition _create_ray (start end_ : Point3) (segments : option (list Point3))
  : outcome (list Point3) :=
  match segments with
  | Some segs =>
      if (1 <? len segs)%Z then
        let? first := getitem segs 0 in
        Return (first :: slice_from segs 1)
      else Return [start; end_]
  | None => Return [start; end_]
  end.

(** [LightRay(parent_node, start_pos, end_pos, color)]. *)
Definition new_ray (start_pos end_pos : Point3) (color : Color)
  : outcome LightRay :=
  let? line := _create_ray start_pos end_pos None in
  Return (mk_ray start_pos end_pos color None line).

(** [LightRay.update_path_segments(segments)]. *)
Definition update_path_segments (segs : list Point3) (self : LightRay)
  : outcome LightRay :=
  let? first := getitem segs 0 in
  let? last := getitem segs (-1) in
  let? line := _create_ray first last (Some segs) in
  Return (mk_ray first last (color self) (Some segs) line).

(** [LightRay.set_color(color)]. *)
Definition set_color (new_color : Color) (self : LightRay) : outcome LightRay :=
  let? line := _create_ray (start self) (end_ self) (segments self) in
  Return (mk_ray (start self) (end_ self) new_color (segments self) line).

(** A [VisionScene]: the lens, the Y position of the test object, position
    and colour of the eye's focal point, and the rays. *)
Record t : Type := mk {
  lens : CorrectiveLens;
  test_object_y : Q;
  focal_point_pos : Point3;
  focal_point_color : Color;
  light_rays : list LightRay
}.

(** [VisionScene._create_light_rays(count)]. *)
Definition _create_light_rays (count : Z) (self : t) : outcome t :=
  let object_y := test_object_y self in
  let? rays :=
    mapM (fun i =>
            let z_offset := inject_Z (i - count / 2) * 0.5 in
            let start_pos : Point3 := (0, object_y, z_offset) in
            let end_pos : Point3 := (0, 1.5, z_offset * 0.35) in
            let color : Color :=
              if (Z.abs (i - count / 2) <=? 1)%Z then (0.4, 1.0, 0.4, 1.0)
              else (0.3, 0.8, 0.3, 0.85) in
            new_ray start_pos end_pos color)
         (range count) in
  Return (mk (lens self) (test_object_y self) (focal_point_pos self)
             (focal_point_color self) rays).

(** The path [_update_light_rays] gives to the ray of vertical offset
    [z_offset]: the body of its second loop, up to the call of
    [update_path_segments]. *)
Definition ray_segments
  (physics : VisionPhysics.t) (self : t) (focus_y z_offset : Q)
  : outcome (list Point3) :=
  let object_y := test_object_y self in
  let lens_y := snd (fst (lens_pos (lens self))) in
  let lens_power := VisionPhysics._lens_power physics in
  let start_pos : Point3 := (0, object_y, z_offset) in
  if lens_hidden (lens self) || (Qabs lens_power <? 0.1) then
    if Qabs (VisionPhysics._near_point physics - 25.0) <? 1.0 then
      let cornea_z := z_offset * 0.5 in
      let lens_z := z_offset * 0.25 in
      let retina_z := z_offset * 0.15 in
      Return [start_pos; (0, 1.2, cornea_z); (0, 0.65, lens_z);
              (0, -0.98, retina_z)]
    else
      let? defect_factor :=
        lift (pdiv (VisionPhysics._near_point physics - 25.0) 25.0) in
      let focus_shift := defect_factor * 1.5 in
      let focus_y_uncorrected := -0.98 + focus_shift in
      Return [start_pos; (0, 1.2, z_offset * 0.7); (0, 0.65, z_offset * 0.5);
              (0, focus_y_uncorrected, z_offset * 0.3)]
  else
    let? lens_strength := lift (pdiv (Qabs lens_power) 5.0) in
    let lens_bend := z_offset * (0.3 + lens_strength * 0.4) in
    let lens_bend := if 0 <? lens_power then - lens_bend else lens_bend in
    Return [start_pos; (0, lens_y, z_offset * 0.8);
            (0, lens_y + 0.5, lens_bend); (0, 1.2, z_offset * 0.4);
            (0, 0.65, z_offset * 0.2); (0, focus_y, z_offset * 0.08)].

(** [VisionScene._update_light_rays()], with [self.physics] as argument. *)
Definition _update_light_rays (physics : option VisionPhysics.t) (self : t)
  : outcome t :=
  match physics with
  | None =>
      let? rays :=
        mapM (fun '(i, ray) =>
                let count := len (light_rays self) in
                let z_offset := inject_Z (i - count / 2) * 0.6 in
                let object_y := test_object_y self in
                let segs : list Point3 :=
                  [ (0, object_y, z_offset); (0, 1.2, z_offset * 0.5);
                    (0, -0.98, z_offset * 0.2) ] in
                update_path_segments segs ray)
             (enumerate (light_rays self)) in
      Return (mk (lens self) (test_object_y self) (focal_point_pos self)
                 (focal_point_color self) rays)
  | Some physics =>
      let count := len (light_rays self) in
      let? effective_near_point :=
        lift (VisionPhysics.get_effective_near_point physics) in
      let required_power := VisionPhysics.get_required_power physics in
      let lens_power := VisionPhysics._lens_power physics in
      let focus_error := Qabs (lens_power - required_power) in
      let focus_y :=
        if focus_error <? 0.25 then -0.98
        else
          let focus_shift := (lens_power - required_power) * 0.8 in
          -0.98 + focus_shift in
      let focus_y := pymax (-2.0) (pymin 1.5 focus_y) in
      let? focus_quality := lift (VisionPhysics.get_focus_quality physics) in
      let focal_color : Color :=
        if 80 <? focus_quality then (0.3, 1.0, 0.3, 1.0)
        else if 50 <? focus_quality then (1.0, 1.0, 0.3, 1.0)
        else (1.0, 0.3, 0.3, 1.0) in
      let? rays :=
        mapM (fun '(i, ray) =>
                let z_offset := inject_Z (i - count / 2) * 0.6 in
                let? segs := ray_segments physics self focus_y z_offset in
                update_path_segments segs ray)
             (enumerate (light_rays self)) in
      Return (mk (lens self) (test_object_y self) (0, focus_y, 0)
                 focal_color rays)
  end.


(** [VisionScene.update_light_rays(focus_quality)]. *)
Definition update_light_rays (focus_quality : Q) (self : t) : outcome t :=
  let '(ray_color, focal_color) :=
    if 80 <? focus_quality then
      ((0.3, 1.0, 0.3, 0.8) : Color, (0.3, 1.0, 0.3, 1.0) : Color)
    else if 50 <? focus_quality then
      ((1.0, 1.0, 0.3, 0.7) : Color, (1.0, 1.0, 0.3, 1.0) : Color)
    else
      ((1.0, 0.3, 0.3, 0.6) : Color, (1.0, 0.3, 0.3, 1.0) : Color) in
  let? rays := mapM (set_color ray_color) (light_rays self) in
  Return (mk (lens self) (test_object_y self) (focal_point_pos self)
             focal_color rays).

(** The list [ray_segments] returns, written without the error monad (its
    divisions are by the literals 25.0 and 5.0), to state facts about it. *)
Definition ray_path
  (physics : VisionPhysics.t) (self : t) (focus_y z_offset : Q)
  : list Point3 :=
  let lens_y := snd (fst (lens_pos (lens self))) in
  let lens_power := VisionPhysics._lens_power physics in
  let near_point := VisionPhysics._near_point physics in
  let start_pos : Point3 := (0, test_object_y self, z_offset) in
  if lens_hidden (lens self) || (Qabs lens_power <? 0.1) then
    if Qabs (near_point - 25.0) <? 1.0 then
      [start_pos; (0, 1.2, z_offset * 0.5); (0, 0.65, z_offset * 0.25);
       (0, -0.98, z_offset * 0.15)]
    else
      [start_pos; (0, 1.2, z_offset * 0.7); (0, 0.65, z_offset * 0.5);
       (0, -0.98 + (near_point - 25.0) / 25.0 * 1.5, z_offset * 0.3)]
  else
    [start_pos; (0, lens_y, z_offset * 0.8);
     (0, lens_y + 0.5,
      if 0 <? lens_power
      then - (z_offset * (0.3 + Qabs lens_power / 5.0 * 0.4))
      else z_offset * (0.3 + Qabs lens_power / 5.0 * 0.4));
     (0, 1.2, z_offset * 0.4); (0, 0.65, z_offset * 0.2);
     (0, focus_y, z_offset * 0.08)].

End OpticalComponents.

(** * Facts about the runtime fragments *)

Ltac by_cases :=
  unfold pymax, pymin, Qltb in *;
  repeat match goal with
         | |- context [Qlt_le_dec ?a ?b] => destruct (Qlt_le_dec a b)
         | H : context [Qlt_le_dec ?a ?b] |- _ => destruct (Qlt_le_dec a b)
         end.

Lemma Qltb_true (x y : Q) : (x <? y) = true <-> x < y.
Proof.
  unfold Qltb. destruct (Qlt_le_dec x y) as [Hlt | Hle]; split; intros H;
    try reflexivity; try assumption; try discriminate.
  exfalso. apply (Qlt_irrefl x). eapply Qlt_le_trans; eassumption.
Qed.

Lemma Qltb_false (x y : Q) : (x <? y) = false <-> y <= x.
Proof.
  unfold Qltb. destruct (Qlt_le_dec x y) as [Hlt | Hle]; split; intros H;
    try reflexivity; try assumption; try discriminate.
  exfalso. apply (Qlt_irrefl x). eapply Qlt_le_trans; eassumption.
Qed.

Lemma pdiv_Ok (a b : Q) : ~ b == 0 -> pdiv a b = Ok (a / b).
Proof.
  intros Hb. unfold pdiv. destruct (Qeq_dec b 0) as [E | _]; [contradiction | reflexivity].
Qed.

Lemma Qdiv_nonzero (a b : Q) : ~ a == 0 -> ~ b == 0 -> ~ a / b == 0.
Proof.
  intros Ha Hb E. apply Ha.
  rewrite <- (Qmult_div_r a b) by exact Hb. rewrite E. ring.
Qed.

Lemma clamp_range (lo hi x : Q) :
  lo <= hi -> lo <= pymax lo (pymin hi x) <= hi.
Proof. intros H. by_cases; split; lra. Qed.

Lemma clamp_below (lo hi x : Q) :
  lo <= hi -> x < lo -> pymax lo (pymin hi x) = lo.
Proof. intros H Hx. by_cases; try reflexivity; lra. Qed.

Lemma clamp_inside (lo hi x : Q) :
  lo <= x <= hi -> pymax lo (pymin hi x) == x.
Proof. intros [H1 H2]. by_cases; lra. Qed.

Lemma clampZ_range (lo hi x : Z) :
  (lo <= hi)%Z -> (lo <= pymaxZ lo (pyminZ hi x) <= hi)%Z.
Proof.
  intros H. unfold pymaxZ, pyminZ.
  destruct (Z_lt_le_dec x hi); destruct (Z_lt_le_dec lo _); lia.
Qed.

(** * OhmsLawPhysics *)

Module OhmsLawFacts.
Import OhmsLawPhysics.

Lemma safe_resistance_pos (r : Q) : 0 < pymax r MIN_SAFE_RESISTANCE.
Proof. unfold MIN_SAFE_RESISTANCE. by_cases; lra. Qed.

Lemma safe_resistance_public (r : Q) :
  MIN_RESISTANCE <= r -> pymax r MIN_SAFE_RESISTANCE = r.
Proof.
  unfold MIN_RESISTANCE, MIN_SAFE_RESISTANCE. intros H.
  by_cases; [lra | reflexivity].
Qed.

(** The floor at [MIN_SAFE_RESISTANCE] keeps the division from raising. *)
Lemma update_calculations_Ok (self : t) :
  _update_calculations self =
  Ok (mk (_voltage self) (_resistance self)
         (_voltage self / pymax (_resistance self) MIN_SAFE_RESISTANCE)
         (_voltage self *
          (_voltage self / pymax (_resistance self) MIN_SAFE_RESISTANCE))).
Proof.
  unfold _update_calculations. rewrite pdiv_Ok; [reflexivity |].
  pose proof (safe_resistance_pos (_resistance self)). lra.
Qed.

Lemma clamp_voltage_range (value : Q) :
  MIN_VOLTAGE <= _clamp_voltage value <= MAX_VOLTAGE.
Proof. apply clamp_range. unfold MIN_VOLTAGE, MAX_VOLTAGE. lra. Qed.

Lemma clamp_resistance_range (value : Q) :
  MIN_RESISTANCE <= _clamp_resistance value <= MAX_RESISTANCE.
Proof. apply clamp_range. unfold MIN_RESISTANCE, MAX_RESISTANCE. lra. Qed.

Lemma ohm_init_invariant (voltage resistance : Q) :
  exists self, init voltage resistance = Ok self /\ invariant self.
Proof.
  unfold init. rewrite update_calculations_Ok. eexists. split; [reflexivity |].
  repeat split; cbn [_voltage _resistance];
    try apply clamp_voltage_range; try apply clamp_resistance_range.
  apply update_calculations_Ok.
Qed.

Lemma set_voltage_invariant (value : Q) (self : t) :
  invariant self ->
  exists self', set_voltage value self = Ok self' /\ invariant self' /\
                _voltage self' = _clamp_voltage value /\
                _resistance self' = _resistance self.
Proof.
  intros (_ & Hr & _). unfold set_voltage. rewrite update_calculations_Ok.
  eexists. split; [reflexivity |]. cbn [_voltage _resistance].
  repeat split; try apply clamp_voltage_range; try apply Hr.
  apply update_calculations_Ok.
Qed.

Lemma set_resistance_invariant (value : Q) (self : t) :
  invariant self ->
  exists self', set_resistance value self = Ok self' /\ invariant self' /\
                _voltage self' = _voltage self /\
                _resistance self' = _clamp_resistance value.
Proof.
  intros (Hv & _ & _). unfold set_resistance. rewrite update_calculations_Ok.
  eexists. split; [reflexivity |]. cbn [_voltage _resistance].
  repeat split; try apply clamp_resistance_range; try apply Hv.
  apply update_calculations_Ok.
Qed.

Lemma ohm_set_preset_invariant (preset_name : string) (self : t) :
  invariant self ->
  exists b self', set_preset preset_name self = Ok (b, self') /\
                  invariant self' /\
                  b = bool_decide (is_Some (PRESETS !! preset_name)).
Proof.
  intros Hinv. unfold set_preset.
  destruct (PRESETS !! preset_name) as [preset |] eqn:E.
  - destruct (set_voltage_invariant (voltage preset) self Hinv)
      as (s1 & -> & Hinv1 & _).
    destruct (set_resistance_invariant (resistance preset) s1 Hinv1)
      as (s2 & E2 & Hinv2 & _).
    cbn [bind]. rewrite E2. cbn [bind].
    exists true, s2. repeat split; apply Hinv2.
  - exists false, self. repeat split; apply Hinv.
Qed.

Lemma ohm_run_invariant (m : mutator) (self : t) :
  invariant self -> exists self', run m self = Ok self' /\ invariant self'.
Proof.
  intros Hinv. destruct m as [value | value | preset_name]; cbn [run].
  - destruct (set_voltage_invariant value self Hinv) as (s' & E & H & _); eauto.
  - destruct (set_resistance_invariant value self Hinv) as (s' & E & H & _); eauto.
  - destruct (ohm_set_preset_invariant preset_name self Hinv) as (b & s' & -> & H & _).
    cbn. eauto.
Qed.

Lemma ohm_reachable_invariant (self : t) : reachable self -> invariant self.
Proof.
  induction 1 as [voltage resistance self E | m self self' _ IH E].
  - destruct (ohm_init_invariant voltage resistance) as (s & Es & H). congruence.
  - destruct (ohm_run_invariant m self IH) as (s & Es & H). congruence.
Qed.

End OhmsLawFacts.

Module OhmsLawSpec.
Import OhmsLawPhysics OhmsLawFacts.

(** The object built by [OhmsLawPhysics()] with the default arguments. *)
Lemma default_object_reachable :
  reachable (mk 12.0 10.0 (12.0 / 10.0) (12.0 * (12.0 / 10.0))).
Proof. apply (reach_init 12.0 10.0). reflexivity. Qed.

(** Setting both inputs to values already in range stores them (up to the
    representation of the number) and derives current and power from them. *)
Lemma setters_store_in_range_values (v r : Q) (self : t) :
  1 <= v <= 50 -> 1 <= r <= 100 ->
  exists self1 self2,
    set_voltage v self = Ok self1 /\ set_resistance r self1 = Ok self2 /\
    _voltage self2 == v /\ _resistance self2 == r /\
    _current self2 == v / r /\ _power self2 == v * (v / r).
Proof.
  intros Hv Hr. unfold set_voltage. rewrite update_calculations_Ok.
  eexists. unfold set_resistance. rewrite update_calculations_Ok.
  eexists. split; [reflexivity |]. split; [reflexivity |].
  cbn [_voltage _resistance _current _power].
  assert (Ev : _clamp_voltage v == v)
    by (apply clamp_inside; unfold MIN_VOLTAGE, MAX_VOLTAGE; lra).
  assert (Er : _clamp_resistance r == r)
    by (apply clamp_inside; unfold MIN_RESISTANCE, MAX_RESISTANCE; lra).
  rewrite safe_resistance_public by apply clamp_resistance_range.
  rewrite Ev, Er. repeat split; reflexivity.
Qed.

(** C2.  In every object a program can hold (built by the constructor, then
    changed only through the voltage setter, the resistance setter and
    [set_preset]), the stored voltage is in [1, 50], the stored resistance is
    in [1, 100], [current] is [voltage / resistance] and [power] is
    [voltage * current]; every mutator returns (it never raises) and leaves
    such an object.  Each mutator derives the two fields from what it has
    just written: the voltage setter stores the value it is given (cut to
    [1, 50]), keeps the resistance and stores [current] and [power] computed
    from the new voltage; the resistance setter does the same with the
    resistance; a known preset stores its two entries and the current and
    power that follow from them.  No mutator sets [current] or [power] on its
    own. *)
Theorem derived_fields_follow_ohms_law (v r : Q) (self : t) :
  reachable self ->
  (1 <= _voltage self <= 50) /\
  (1 <= _resistance self <= 100) /\
  _current self = _voltage self / _resistance self /\
  _power self = _voltage self * _current self /\
  (forall m : mutator, exists self', run m self = Ok self' /\ reachable self') /\
  (exists self',
     set_voltage v self = Ok self' /\
     _voltage self' = pymax 1.0 (pymin 50.0 v) /\
     (1 <= v <= 50 -> _voltage self' == v) /\
     _resistance self' = _resistance self /\
     _current self' = _voltage self' / _resistance self /\
     _power self' = _voltage self' * (_voltage self' / _resistance self)) /\
  (exists self',
     set_resistance r self = Ok self' /\
     _resistance self' = pymax 1.0 (pymin 100.0 r) /\
     (1 <= r <= 100 -> _resistance self' == r) /\
     _voltage self' = _voltage self /\
     _current self' = _voltage self / _resistance self' /\
     _power self' = _voltage self * (_voltage self / _resistance self')) /\
  (forall preset_name p,
     PRESETS !! preset_name = Some p ->
     exists self',
       set_preset preset_name self = Ok (true, self') /\
       _voltage self' = pymax 1.0 (pymin 50.0 (voltage p)) /\
       _resistance self' = pymax 1.0 (pymin 100.0 (resistance p)) /\
       _current self' = _voltage self' / _resistance self' /\
       _power self' = _voltage self' * (_voltage self' / _resistance self')).
Proof.
  intros Hreach. pose proof (ohm_reachable_invariant self Hreach) as (Hv & Hr & Hup).
  rewrite update_calculations_Ok in Hup.
  rewrite safe_resistance_public in Hup by apply Hr.
  split; [unfold MIN_VOLTAGE, MAX_VOLTAGE in Hv; lra |].
  split; [unfold MIN_RESISTANCE, MAX_RESISTANCE in Hr; lra |].
  split; [| split; [| split; [| split; [| split]]]].
  - destruct self as [v0 r0 c p]. cbn [_voltage _resistance _current] in *.
    injection Hup as Hc _. symmetry. exact Hc.
  - destruct self as [v0 r0 c p].
    cbn [_voltage _resistance _current _power] in *.
    injection Hup as Hc Hp. rewrite <- Hp, <- Hc. reflexivity.
  - intros m.
    destruct (ohm_run_invariant m self (ohm_reachable_invariant self Hreach))
      as (self' & E & _).
    exists self'. split; [exact E |]. eapply reach_run; eassumption.
  - unfold set_voltage. rewrite update_calculations_Ok.
    eexists. split; [reflexivity |].
    cbn [_voltage _resistance _current _power].
    rewrite safe_resistance_public by apply Hr.
    split; [reflexivity |]. split; [| repeat split; reflexivity].
    intros Hin. apply clamp_inside; unfold MIN_VOLTAGE, MAX_VOLTAGE; lra.
  - unfold set_resistance. rewrite update_calculations_Ok.
    eexists. split; [reflexivity |].
    cbn [_voltage _resistance _current _power].
    rewrite safe_resistance_public by apply clamp_resistance_range.
    split; [reflexivity |]. split; [| repeat split; reflexivity].
    intros Hin. apply clamp_inside; unfold MIN_RESISTANCE, MAX_RESISTANCE; lra.
  - intros preset_name p E. unfold set_preset. rewrite E.
    unfold set_voltage. rewrite update_calculations_Ok. cbn [bind].
    unfold set_resistance. rewrite update_calculations_Ok. cbn [bind].
    eexists. split; [reflexivity |].
    cbn [_voltage _resistance _current _power].
    rewrite safe_resistance_public by apply clamp_resistance_range.
    repeat split; reflexivity.
Qed.

Lemma derived_fields_follow_ohms_law_witness :
  let self := mk 24.0 2.0 (24.0 / 2.0) (24.0 * (24.0 / 2.0)) in
  let v := 5.0 in
  let r := 50.0 in
  (1 <= _voltage self <= 50) /\
  (1 <= _resistance self <= 100) /\
  _current self = _voltage self / _resistance self /\
  _power self = _voltage self * _current self /\
  (forall m : mutator, exists self', run m self = Ok self' /\ reachable self') /\
  (exists self',
     set_voltage v self = Ok self' /\
     _voltage self' = pymax 1.0 (pymin 50.0 v) /\
     (1 <= v <= 50 -> _voltage self' == v) /\
     _resistance self' = _resistance self /\
     _current self' = _voltage self' / _resistance self /\
     _power self' = _voltage self' * (_voltage self' / _resistance self)) /\
  (exists self',
     set_resistance r self = Ok self' /\
     _resistance self' = pymax 1.0 (pymin 100.0 r) /\
     (1 <= r <= 100 -> _resistance self' == r) /\
     _voltage self' = _voltage self /\
     _current self' = _voltage self / _resistance self' /\
     _power self' = _voltage self * (_voltage self / _resistance self')) /\
  (forall preset_name p,
     PRESETS !! preset_name = Some p ->
     exists self',
       set_preset preset_name self = Ok (true, self') /\
       _voltage self' = pymax 1.0 (pymin 50.0 (voltage p)) /\
       _resistance self' = pymax 1.0 (pymin 100.0 (resistance p)) /\
       _current self' = _voltage self' / _resistance self' /\
       _power self' = _voltage self' * (_voltage self' / _resistance self')).
Proof.
  apply (derived_fields_follow_ohms_law 5.0 50.0
           (mk 24.0 2.0 (24.0 / 2.0) (24.0 * (24.0 / 2.0)))).
  apply (reach_run (SetResistance 2.0)
           (mk 24.0 10.0 (24.0 / 10.0) (24.0 * (24.0 / 10.0)))).
  - apply (reach_run (SetVoltage 24.0)
             (mk 12.0 10.0 (12.0 / 10.0) (12.0 * (12.0 / 10.0)))).
    + apply (reach_init 12.0 10.0). reflexivity.
    + reflexivity.
  - reflexivity.
Defined.

(** C4.  The floor of the resistance clamp is the public minimum [1.0], not
    the [0.1] of the divide guard: the setter called with a value below [1.0]
    stores [1.0]; and [set_preset("short_circuit")], whose table entry is
    (12.0, 0.1), succeeds with stored voltage 12.0, stored resistance [1.0]
    (not [0.1]) and current 12.0. *)
Theorem resistance_floor_is_public_minimum (value : Q) (self : t) :
  value < 1.0 ->
  (exists self', set_resistance value self = Ok self' /\
                 _resistance self' = 1.0) /\
  PRESETS !! "short_circuit"%string = Some (mk_preset 12.0 0.1) /\
  (exists self', set_preset "short_circuit" self = Ok (true, self') /\
                 _voltage self' = 12.0 /\
                 _resistance self' = 1.0 /\
                 ~ _resistance self' == MIN_SAFE_RESISTANCE /\
                 _current self' == 12.0).
Proof.
  intros Hlt. split; [| split].
  - unfold set_resistance. rewrite update_calculations_Ok.
    eexists. split; [reflexivity |]. cbn [_resistance].
    apply clamp_below; [unfold MIN_RESISTANCE, MAX_RESISTANCE; lra | exact Hlt].
  - reflexivity.
  - assert (E : PRESETS !! "short_circuit"%string = Some (mk_preset 12.0 0.1))
      by reflexivity.
    unfold set_preset. rewrite E. cbn [voltage resistance].
    unfold set_voltage. rewrite update_calculations_Ok. cbn [bind].
    unfold set_resistance. rewrite update_calculations_Ok. cbn [bind].
    eexists. split; [reflexivity |]. cbn [_voltage _resistance _current].
    split; [vm_compute; reflexivity |].
    split; [vm_compute; reflexivity |].
    split; [| vm_compute; reflexivity].
    vm_compute. discriminate.
Qed.

Lemma resistance_floor_is_public_minimum_witness :
  let self := mk 12.0 10.0 (12.0 / 10.0) (12.0 * (12.0 / 10.0)) in
  (exists self', set_resistance 0 self = Ok self' /\
                 _resistance self' = 1.0) /\
  PRESETS !! "short_circuit"%string = Some (mk_preset 12.0 0.1) /\
  (exists self', set_preset "short_circuit" self = Ok (true, self') /\
                 _voltage self' = 12.0 /\
                 _resistance self' = 1.0 /\
                 ~ _resistance self' == MIN_SAFE_RESISTANCE /\
                 _current self' == 12.0).
Proof.
  apply (resistance_floor_is_public_minimum 0
           (mk 12.0 10.0 (12.0 / 10.0) (12.0 * (12.0 / 10.0)))).
  reflexivity.
Defined.

(** C5.  [is_dangerous()] answers true exactly when the current is strictly
    above 20.0 or the power strictly above 500.0; with current at most 20.0 and
    power at most 500.0 it returns [(False, "")], and the boundary itself
    (current 20.0 and power 500.0, reached with 25 V over 1.25 ohm) is such a
    state. *)
Theorem is_dangerous_strict (self : t) :
  (fst (is_dangerous self) = true <->
   20.0 < _current self \/ 500.0 < _power self) /\
  (_current self <= 20.0 -> _power self <= 500.0 ->
   is_dangerous self = (false, EmptyString)) /\
  (exists boundary,
     reachable boundary /\
     _current boundary == 20.0 /\ _power boundary == 500.0 /\
     is_dangerous boundary = (false, EmptyString)).
Proof.
  split; [| split].
  - unfold is_dangerous.
    destruct (20.0 <? _current self) eqn:Ec; cbn [fst].
    + apply Qltb_true in Ec. split; [left; exact Ec | reflexivity].
    + apply Qltb_false in Ec.
      destruct (500.0 <? _power self) eqn:Ep; cbn [fst].
      * apply Qltb_true in Ep. split; [right; exact Ep | reflexivity].
      * apply Qltb_false in Ep. split; [discriminate |].
        intros [H | H]; lra.
  - intros Hc Hp. unfold is_dangerous.
    apply Qltb_false in Hc, Hp. rewrite Hc, Hp. reflexivity.
  - exists (mk 25.0 1.25 (25.0 / 1.25) (25.0 * (25.0 / 1.25))).
    split; [apply (reach_init 25.0 1.25); reflexivity |].
    repeat split; reflexivity.
Qed.

End OhmsLawSpec.

(** * VisionPhysics *)

Module VisionFacts.
Import VisionPhysics.

(** The thin-lens value [_calculate_required_power] stores outside the
    [0.1] cm dead band around the normal near point. *)
Lemma calculate_required_power_Ok (self : t) :
  ~ _near_point self == 0 ->
  _calculate_required_power self =
  Ok (mk (_near_point self) (_object_distance self) (_lens_power self)
         (_age self)
         (if Qabs (_near_point self - NORMAL_NEAR_POINT) <? 0.1 then 0.0
          else 1.0 / (- _near_point self / 100.0)
               - 1.0 / (- NORMAL_NEAR_POINT / 100.0))).
Proof.
  intros Hnp. unfold _calculate_required_power.
  destruct (Qabs (_near_point self - NORMAL_NEAR_POINT) <? 0.1);
    [reflexivity |].
  rewrite (pdiv_Ok (- _near_point self) 100.0) by lra. cbn [bind].
  rewrite (pdiv_Ok (- NORMAL_NEAR_POINT) 100.0) by lra. cbn [bind].
  rewrite pdiv_Ok; [cbn [bind] |].
  - rewrite pdiv_Ok; [reflexivity |].
    apply Qdiv_nonzero; unfold NORMAL_NEAR_POINT; lra.
  - apply Qdiv_nonzero; lra.
Qed.

Lemma clamp_near_point_range (value : Q) :
  MIN_NEAR_POINT <= _clamp_near_point value <= MAX_NEAR_POINT.
Proof. apply clamp_range. unfold MIN_NEAR_POINT, MAX_NEAR_POINT. lra. Qed.

(** Every entry of the preset table, by name. *)
Lemma PRESETS_entries (preset_name : string) (p : preset) :
  PRESETS !! preset_name = Some p ->
  p = mk_preset 25.0 25 "Normal Vision - Student" \/
  p = mk_preset 15.0 20 "Mild Myopia - Young Adult" \/
  p = mk_preset 12.0 18 "Moderate Myopia - Teen" \/
  p = mk_preset 40.0 45 "Mild Hyperopia - Middle-aged" \/
  p = mk_preset 50.0 60 "Presbyopia - Elderly".
Proof.
  unfold PRESETS. cbn [list_to_map foldr uncurry fst snd]. intros H.
  repeat (apply lookup_insert_Some in H as [[_ <-] | [_ H]]; [tauto |]).
  rewrite lookup_empty in H. discriminate.
Qed.

Lemma PRESETS_near_point_range (preset_name : string) (p : preset) :
  PRESETS !! preset_name = Some p -> 12.0 <= near_point p <= 50.0.
Proof.
  intros H. apply PRESETS_entries in H.
  destruct H as [-> | [-> | [-> | [-> | ->]]]]; cbn [near_point]; lra.
Qed.

(** The near point the age setter writes for a clamped age above 40. *)
Lemma age_near_point_range (a : Z) :
  (40 < a <= 100)%Z ->
  25.0 < 25.0 + inject_Z (a - 40) / 60.0 * 30.0 <= 55.0.
Proof.
  intros [Hlo Hhi].
  assert (H0 : 0 < inject_Z (a - 40)).
  { rewrite <- (Zlt_Qlt 0). lia. }
  assert (H1 : inject_Z (a - 40) <= 60).
  { rewrite <- (Zle_Qle _ 60). lia. }
  set (x := inject_Z (a - 40)) in *.
  assert (E : 25.0 + x / 60.0 * 30.0 == 25 + x * (1 # 2)) by field.
  rewrite E. split; lra.
Qed.

(** The attribute [_required_power] is up to date exactly when it holds the
    value [_calculate_required_power] would store. *)
Lemma up_to_date_iff (self : t) :
  ~ _near_point self == 0 ->
  (_calculate_required_power self = Ok self <->
   _required_power self =
   if Qabs (_near_point self - NORMAL_NEAR_POINT) <? 0.1 then 0.0
   else 1.0 / (- _near_point self / 100.0)
        - 1.0 / (- NORMAL_NEAR_POINT / 100.0)).
Proof.
  intros Hnp. rewrite calculate_required_power_Ok by exact Hnp.
  destruct self as [np od lp a rp].
  cbn [_near_point _object_distance _lens_power _age _required_power].
  split.
  - intros [= E]. symmetry. exact E.
  - intros ->. reflexivity.
Qed.

Lemma invariant_nonzero (self : t) :
  MIN_NEAR_POINT <= _near_point self <= MAX_NEAR_POINT ->
  ~ _near_point self == 0.
Proof. unfold MIN_NEAR_POINT. intros [H _] E. rewrite E in H. lra. Qed.

Lemma calculate_establishes_invariant (self : t) :
  MIN_NEAR_POINT <= _near_point self <= MAX_NEAR_POINT ->
  exists self', _calculate_required_power self = Ok self' /\
                invariant self' /\
                _near_point self' = _near_point self /\
                _object_distance self' = _object_distance self /\
                _lens_power self' = _lens_power self /\
                _age self' = _age self.
Proof.
  intros Hrange. pose proof (invariant_nonzero self Hrange) as Hnp.
  rewrite calculate_required_power_Ok by exact Hnp.
  eexists. split; [reflexivity |].
  cbn [_near_point _object_distance _lens_power _age].
  repeat split; try apply Hrange.
  apply up_to_date_iff; [exact Hnp | reflexivity].
Qed.

Lemma vision_init_invariant (near_point object_distance : Q) :
  exists self, init near_point object_distance = Ok self /\ invariant self.
Proof.
  unfold init.
  edestruct calculate_establishes_invariant as (s & E & H & _);
    [| exists s; split; [exact E | exact H]].
  apply clamp_near_point_range.
Qed.

Lemma set_near_point_invariant (value : Q) (self : t) :
  exists self', set_near_point value self = Ok self' /\ invariant self' /\
                _near_point self' = _clamp_near_point value.
Proof.
  unfold set_near_point.
  edestruct calculate_establishes_invariant as (s & E & H & Hnp & _);
    [| exists s; split; [exact E | split; [exact H | exact Hnp]]].
  apply clamp_near_point_range.
Qed.

Lemma set_object_distance_invariant (value : Q) (self : t) :
  invariant self ->
  exists self', set_object_distance value self = Ok self' /\
                invariant self' /\ _near_point self' = _near_point self.
Proof.
  intros [Hrange Hup]. eexists. split; [reflexivity |].
  pose proof (invariant_nonzero self Hrange) as Hnp.
  split; [split |]; cbn [_near_point]; try exact Hrange; try reflexivity.
  apply up_to_date_iff; [exact Hnp |].
  apply up_to_date_iff in Hup; [exact Hup | exact Hnp].
Qed.

Lemma set_lens_power_invariant (value : Q) (self : t) :
  invariant self ->
  exists self', set_lens_power value self = Ok self' /\
                invariant self' /\ _near_point self' = _near_point self /\
                MIN_POWER <= _lens_power self' <= MAX_POWER.
Proof.
  intros [Hrange Hup]. eexists. split; [reflexivity |].
  pose proof (invariant_nonzero self Hrange) as Hnp.
  split; [split | split]; cbn [_near_point _lens_power];
    try exact Hrange; try reflexivity.
  - apply up_to_date_iff; [exact Hnp |].
    apply up_to_date_iff in Hup; [exact Hup | exact Hnp].
  - apply clamp_range. unfold MIN_POWER, MAX_POWER. lra.
Qed.

(** The age setter: what it stores, by the two branches of its test. *)
Lemma set_age_cases (value : Z) (self : t) :
  let a := pymaxZ 5 (pyminZ 100 value) in
  ((40 < a)%Z ->
   exists self',
     set_age value self = Ok self' /\
     _age self' = a /\
     _near_point self' = 25.0 + inject_Z (a - 40) / 60.0 * 30.0 /\
     _object_distance self' = _object_distance self /\
     _lens_power self' = _lens_power self /\
     invariant self') /\
  ((a <= 40)%Z ->
   set_age value self =
   Ok (mk (_near_point self) (_object_distance self) (_lens_power self)
          a (_required_power self))).
Proof.
  intros a. unfold set_age. fold a. split; intros Ha.
  - assert (E : (40 <? a)%Z = true) by (apply Z.ltb_lt; exact Ha).
    rewrite E. rewrite pdiv_Ok by lra. cbn [bind].
    pose proof (clampZ_range 5 100 value ltac:(lia)) as Hclamp. fold a in Hclamp.
    pose proof (age_near_point_range a ltac:(lia)) as Hnp.
    edestruct calculate_establishes_invariant
      as (s & Es & H & Hn & Hod & Hlp & Hage);
      [| exists s; split; [exact Es |]; repeat split;
         first [exact Hage | exact Hn | exact Hod | exact Hlp | apply H]].
    cbn [_near_point]. unfold MIN_NEAR_POINT, MAX_NEAR_POINT. lra.
  - assert (E : (40 <? a)%Z = false) by (apply Z.ltb_ge; exact Ha).
    rewrite E. reflexivity.
Qed.

Lemma set_age_invariant (value : Z) (self : t) :
  invariant self ->
  exists self', set_age value self = Ok self' /\ invariant self'.
Proof.
  intros [Hrange Hup].
  destruct (set_age_cases value self) as [Hgt Hle].
  destruct (Z_lt_le_dec 40 (pymaxZ 5 (pyminZ 100 value))) as [Ha | Ha].
  - destruct (Hgt Ha) as (s & E & _ & _ & _ & _ & H). eauto.
  - rewrite (Hle Ha). eexists. split; [reflexivity |].
    pose proof (invariant_nonzero self Hrange) as Hnp.
    split; cbn [_near_point]; [exact Hrange |].
    apply up_to_date_iff; [exact Hnp |].
    apply up_to_date_iff in Hup; [exact Hup | exact Hnp].
Qed.

Lemma set_preset_known (preset_name : string) (p : preset) (self : t) :
  PRESETS !! preset_name = Some p ->
  exists self', set_preset preset_name self = Ok (true, self') /\
                invariant self' /\
                _near_point self' = near_point p /\ _age self' = age p /\
                _object_distance self' = _object_distance self /\
                _lens_power self' = _lens_power self.
Proof.
  intros E. unfold set_preset. rewrite E.
  pose proof (PRESETS_near_point_range preset_name p E) as Hp.
  edestruct calculate_establishes_invariant
    as (s & Es & H & Hn & Hod & Hlp & Hage);
    [| rewrite Es; cbn [bind]; exists s; split; [reflexivity |];
       repeat split;
       first [exact Hage | exact Hn | exact Hod | exact Hlp | apply H]].
  cbn [_near_point]. unfold MIN_NEAR_POINT, MAX_NEAR_POINT. lra.
Qed.

Lemma set_preset_unknown (preset_name : string) (self : t) :
  PRESETS !! preset_name = None ->
  set_preset preset_name self = Ok (false, self).
Proof. intros E. unfold set_preset. rewrite E. reflexivity. Qed.

Lemma vision_run_invariant (m : mutator) (self : t) :
  invariant self -> exists self', run m self = Ok self' /\ invariant self'.
Proof.
  intros Hinv.
  destruct m as [value | value | value | value | preset_name]; cbn [run].
  - destruct (set_near_point_invariant value self) as (s & E & H & _); eauto.
  - destruct (set_object_distance_invariant value self Hinv)
      as (s & E & H & _); eauto.
  - destruct (set_lens_power_invariant value self Hinv)
      as (s & E & H & _); eauto.
  - apply set_age_invariant. exact Hinv.
  - destruct (PRESETS !! preset_name) as [p |] eqn:E.
    + destruct (set_preset_known preset_name p self E) as (s & -> & H & _).
      cbn. eauto.
    + rewrite (set_preset_unknown preset_name self E). cbn. eauto.
Qed.

Lemma vision_reachable_invariant (self : t) : reachable self -> invariant self.
Proof.
  induction 1 as [near_point object_distance self E | m self self' _ IH E].
  - destruct (vision_init_invariant near_point object_distance) as (s & Es & H).
    congruence.
  - destruct (vision_run_invariant m self IH) as (s & Es & H). congruence.
Qed.

End VisionFacts.

Module VisionSpec.
Import VisionPhysics VisionFacts.

(** The object built by [VisionPhysics()] with the default arguments. *)
Lemma vision_default_reachable : reachable (mk 25.0 25.0 0.0 25 0.0).
Proof. apply (reach_init 25.0 25.0). reflexivity. Qed.

(** C1.  The guard of [get_effective_near_point] tests [f - u] while the
    division is by [f + u].  At lens power 4.0 (inside [-10, 10], above the
    0.01 threshold) the focal length is 0.25, the guard passes with
    [|f - u| = 0.5], the denominator [f + u] is zero and the call raises
    [ZeroDivisionError], whatever the other attributes hold; an object in
    that state is reached by the constructor followed by the lens-power
    setter, and [get_focus_quality] raises on it as well. *)
Theorem effective_near_point_raises_at_four_diopters :
  (-10.0 <= 4.0 <= 10.0) /\
  0.01 <= Qabs 4.0 /\
  0.001 < Qabs (1.0 / 4.0 - (- NORMAL_NEAR_POINT / 100.0)) /\
  1.0 / 4.0 + (- NORMAL_NEAR_POINT / 100.0) == 0 /\
  (forall np od a rp,
     get_effective_near_point (mk np od 4.0 a rp) = Raise ZeroDivisionError) /\
  (exists self,
     reachable self /\ _lens_power self = 4.0 /\
     get_effective_near_point self = Raise ZeroDivisionError /\
     get_focus_quality self = Raise ZeroDivisionError).
Proof.
  split; [split; discriminate |].
  split; [discriminate |].
  split; [reflexivity |].
  split; [reflexivity |].
  split; [intros np od a rp; reflexivity |].
  exists (mk 25.0 25.0 4.0 25 0.0). split; [| repeat split; reflexivity].
  apply (reach_run (SetLensPower 4.0) (mk 25.0 25.0 0.0 25 0.0)).
  - exact vision_default_reachable.
  - reflexivity.
Qed.

(** The thin-lens value in closed form: [1/v - 1/u = 4 - 100/near_point]. *)
Lemma thin_lens_closed_form (np : Q) :
  ~ np == 0 ->
  1.0 / (- np / 100.0) - 1.0 / (- NORMAL_NEAR_POINT / 100.0)
  == (4 * np - 100) * / np.
Proof. intros Hnp. unfold NORMAL_NEAR_POINT. field. lra. Qed.

Lemma thin_lens_sign (np : Q) :
  0 < np ->
  ((4 * np - 100) * / np < 0 <-> np < 25) /\
  (0 < (4 * np - 100) * / np <-> 25 < np) /\
  ((4 * np - 100) * / np == 0 <-> np == 25).
Proof.
  intros Hpos.
  assert (Hi : 0 < / np) by (apply Qinv_lt_0_compat; exact Hpos).
  assert (E : np * / np == 1) by (apply Qmult_inv_r; lra).
  set (i := / np) in *.
  repeat split; intros H; nra.
Qed.

(** What the age setter stores at age 60. *)
Lemma set_age_sixty (self : t) :
  exists self',
    set_age 60 self = Ok self' /\ _age self' = 60%Z /\
    _near_point self' == 35.0 /\
    _required_power self' == 1.0 / (- 35.0 / 100.0) - 1.0 / (- 25.0 / 100.0).
Proof.
  eexists. split; [reflexivity |]. cbn [_age _near_point _required_power].
  repeat split; reflexivity.
Qed.

(** C3.  In every object a program can hold, [required_power] is zero exactly
    when [|near_point - 25.0| < 0.1] (then it is the stored literal [0.0], in
    particular at near point 25.0), and otherwise it is [1/v - 1/u] with
    [v = -near_point/100] and [u = -0.25]; it is negative at near point 15.0
    and positive at near point 40.0.  The near-point setter produces these
    values: it stores the value it is given (cut to [10, 100]) and, with it,
    [0.0] inside the dead band and [1/v - 1/u] outside; called with 25.0, 15.0
    and 40.0 it leaves objects with exactly these near points, whose required
    power is [0.0], negative and positive. *)
Theorem required_power_thin_lens (value : Q) (self : t) :
  reachable self ->
  let np := _near_point self in
  (_required_power self == 0 <-> Qabs (np - 25.0) < 0.1) /\
  (Qabs (np - 25.0) < 0.1 -> _required_power self = 0.0) /\
  (~ Qabs (np - 25.0) < 0.1 ->
   _required_power self == 1 / (- np / 100) - 1 / -0.25) /\
  (np == 25.0 -> _required_power self = 0.0) /\
  (np == 15.0 -> _required_power self < 0) /\
  (np == 40.0 -> 0 < _required_power self) /\
  (exists self',
     set_near_point value self = Ok self' /\
     _near_point self' = pymax 10.0 (pymin 100.0 value) /\
     (10 <= value <= 100 -> _near_point self' == value) /\
     _required_power self' =
     (if Qabs (_near_point self' - 25.0) <? 0.1 then 0.0
      else 1.0 / (- _near_point self' / 100.0) - 1.0 / (- 25.0 / 100.0))) /\
  (exists s25 s15 s40,
     set_near_point 25.0 self = Ok s25 /\
     _near_point s25 = 25.0 /\ _required_power s25 = 0.0 /\
     set_near_point 15.0 self = Ok s15 /\
     _near_point s15 = 15.0 /\ _required_power s15 < 0 /\
     set_near_point 40.0 self = Ok s40 /\
     _near_point s40 = 40.0 /\ 0 < _required_power s40).
Proof.
  intros Hreach np.
  destruct (vision_reachable_invariant self Hreach) as [Hrange Hup].
  pose proof (invariant_nonzero self Hrange) as Hnz.
  apply up_to_date_iff in Hup; [| exact Hnz].
  unfold MIN_NEAR_POINT, MAX_NEAR_POINT in Hrange. fold np in Hrange, Hnz, Hup.
  assert (Hpos : 0 < np) by lra.
  destruct (thin_lens_sign np Hpos) as (Hneg & Hposv & Hzero).
  pose proof (thin_lens_closed_form np Hnz) as Hform.
  assert (Hspec : 1 / (- np / 100) - 1 / -0.25 == (4 * np - 100) * / np)
    by (field; lra).
  unfold NORMAL_NEAR_POINT in Hup.
  assert (Hsetter :
    exists self',
      set_near_point value self = Ok self' /\
      _near_point self' = pymax 10.0 (pymin 100.0 value) /\
      (10 <= value <= 100 -> _near_point self' == value) /\
      _required_power self' =
      (if Qabs (_near_point self' - 25.0) <? 0.1 then 0.0
       else 1.0 / (- _near_point self' / 100.0) - 1.0 / (- 25.0 / 100.0))).
  { unfold set_near_point. rewrite calculate_required_power_Ok.
    2: { apply invariant_nonzero. cbn [_near_point].
         apply clamp_near_point_range. }
    eexists. split; [reflexivity |].
    cbn [_near_point _required_power].
    split; [reflexivity |]. split; [| reflexivity].
    intros Hin. apply clamp_inside; unfold MIN_NEAR_POINT, MAX_NEAR_POINT; lra. }
  assert (Hcases :
    exists s25 s15 s40,
      set_near_point 25.0 self = Ok s25 /\
      _near_point s25 = 25.0 /\ _required_power s25 = 0.0 /\
      set_near_point 15.0 self = Ok s15 /\
      _near_point s15 = 15.0 /\ _required_power s15 < 0 /\
      set_near_point 40.0 self = Ok s40 /\
      _near_point s40 = 40.0 /\ 0 < _required_power s40).
  { exists (mk 25.0 (_object_distance self) (_lens_power self) (_age self) 0.0),
           (mk 15.0 (_object_distance self) (_lens_power self) (_age self)
               (1.0 / (- 15.0 / 100.0) - 1.0 / (- 25.0 / 100.0))),
           (mk 40.0 (_object_distance self) (_lens_power self) (_age self)
               (1.0 / (- 40.0 / 100.0) - 1.0 / (- 25.0 / 100.0))).
    repeat split; reflexivity. }
  destruct (Qabs (np - 25.0) <? 0.1) eqn:Eband.
  - apply Qltb_true in Eband. rewrite Hup.
    pose proof Eband as Hband. apply Qabs_Qlt_condition in Hband.
    split; [split; [intros _; exact Eband | reflexivity] |].
    split; [reflexivity |].
    split; [intros H; exfalso; tauto |].
    split; [reflexivity |].
    split; [intros H; exfalso; lra |].
    split; [intros H; exfalso; lra |].
    split; [exact Hsetter | exact Hcases].
  - apply Qltb_false in Eband.
    assert (Hout : ~ Qabs (np - 25.0) < 0.1) by (intros H; lra).
    assert (Hval : _required_power self == (4 * np - 100) * / np).
    { rewrite Hup. exact Hform. }
    assert (Hne : ~ np == 25).
    { intros E. apply Hout. rewrite E. reflexivity. }
    split; [| split; [| split; [| split; [| split; [| split; [| split]]]]]].
    + rewrite Hval. split; intros H; [exfalso; tauto | contradiction].
    + intros H. contradiction.
    + intros _. rewrite Hval, Hspec. reflexivity.
    + intros H. exfalso. apply Hne. rewrite H. reflexivity.
    + intros H. rewrite Hval. apply Hneg. rewrite H. reflexivity.
    + intros H. rewrite Hval. apply Hposv. rewrite H. reflexivity.
    + exact Hsetter.
    + exact Hcases.
Qed.

Lemma required_power_thin_lens_witness :
  let self := mk 40.0 25.0 0.0 25
                 (1.0 / (- 40.0 / 100.0) - 1.0 / (- 25.0 / 100.0)) in
  let value := 15.0 in
  let np := _near_point self in
  (_required_power self == 0 <-> Qabs (np - 25.0) < 0.1) /\
  (Qabs (np - 25.0) < 0.1 -> _required_power self = 0.0) /\
  (~ Qabs (np - 25.0) < 0.1 ->
   _required_power self == 1 / (- np / 100) - 1 / -0.25) /\
  (np == 25.0 -> _required_power self = 0.0) /\
  (np == 15.0 -> _required_power self < 0) /\
  (np == 40.0 -> 0 < _required_power self) /\
  (exists self',
     set_near_point value self = Ok self' /\
     _near_point self' = pymax 10.0 (pymin 100.0 value) /\
     (10 <= value <= 100 -> _near_point self' == value) /\
     _required_power self' =
     (if Qabs (_near_point self' - 25.0) <? 0.1 then 0.0
      else 1.0 / (- _near_point self' / 100.0) - 1.0 / (- 25.0 / 100.0))) /\
  (exists s25 s15 s40,
     set_near_point 25.0 self = Ok s25 /\
     _near_point s25 = 25.0 /\ _required_power s25 = 0.0 /\
     set_near_point 15.0 self = Ok s15 /\
     _near_point s15 = 15.0 /\ _required_power s15 < 0 /\
     set_near_point 40.0 self = Ok s40 /\
     _near_point s40 = 40.0 /\ 0 < _required_power s40).
Proof.
  apply (required_power_thin_lens 15.0
           (mk 40.0 25.0 0.0 25
               (1.0 / (- 40.0 / 100.0) - 1.0 / (- 25.0 / 100.0)))).
  apply (reach_init 40.0 25.0). reflexivity.
Defined.

(** C7.  The age setter stores the age clamped to [5, 100].  When the clamped
    age is above 40 it returns with [near_point] overwritten by
    [25.0 + ((age - 40) / 60.0) * 30.0] and [required_power] recomputed for
    that near point, whatever it held before: the new near point is at least
    25.5, outside the dead band, so the stored value is [1/v - 1/u] with
    [v = -near_point/100] and [u = -0.25], a positive power (object distance
    and lens power are kept); when the clamped age is at most 40 only the age
    changes.  Age 60 gives near point 35.0 and the required power that goes
    with 35.0, age 30 leaves the near point as it was. *)
Theorem set_age_overwrites_near_point_above_forty (value : Z) (self : t) :
  let a := pymaxZ 5 (pyminZ 100 value) in
  (a = Z.max 5 (Z.min 100 value)) /\
  ((40 < a)%Z ->
   exists self',
     set_age value self = Ok self' /\
     _age self' = a /\
     _near_point self' = 25.0 + inject_Z (a - 40) / 60.0 * 30.0 /\
     _calculate_required_power self' = Ok self' /\
     _object_distance self' = _object_distance self /\
     _lens_power self' = _lens_power self /\
     _required_power self' =
     1.0 / (- (25.0 + inject_Z (a - 40) / 60.0 * 30.0) / 100.0)
     - 1.0 / (- 25.0 / 100.0) /\
     0 < _required_power self') /\
  ((a <= 40)%Z ->
   set_age value self =
   Ok (mk (_near_point self) (_object_distance self) (_lens_power self)
          a (_required_power self))) /\
  (exists self',
     set_age 60 self = Ok self' /\ _age self' = 60%Z /\
     _near_point self' == 35.0 /\
     _required_power self' == 1.0 / (- 35.0 / 100.0) - 1.0 / (- 25.0 / 100.0)) /\
  set_age 30 self =
  Ok (mk (_near_point self) (_object_distance self) (_lens_power self)
         30 (_required_power self)).
Proof.
  intros a. destruct (set_age_cases value self) as [Hgt Hle]. fold a in Hgt, Hle.
  split; [| split; [| split; [| split]]].
  - unfold a, pymaxZ, pyminZ.
    destruct (Z_lt_le_dec value 100); destruct (Z_lt_le_dec 5 _); lia.
  - intros Ha. destruct (Hgt Ha) as (s & E & Hage & Hnp & Hod & Hlp & Hinv).
    exists s.
    pose proof (clampZ_range 5 100 value ltac:(lia)) as Hclamp.
    fold a in Hclamp.
    pose proof (age_near_point_range a ltac:(lia)) as Hrange.
    destruct Hinv as [Hin Hup].
    assert (Hrp : _required_power s =
                  1.0 / (- (25.0 + inject_Z (a - 40) / 60.0 * 30.0) / 100.0)
                  - 1.0 / (- 25.0 / 100.0)).
    { apply up_to_date_iff in Hup; [| apply invariant_nonzero; exact Hin].
      rewrite Hup, Hnp.
      assert (Eband : (Qabs (25.0 + inject_Z (a - 40) / 60.0 * 30.0
                             - NORMAL_NEAR_POINT) <? 0.1) = false).
      { apply Qltb_false. unfold NORMAL_NEAR_POINT.
        assert (H0 : 1 <= inject_Z (a - 40)).
        { rewrite <- (Zle_Qle 1). lia. }
        set (x := inject_Z (a - 40)) in *.
        assert (Ex : 25.0 + x / 60.0 * 30.0 - 25.0 == x * (1 # 2)) by field.
        rewrite Ex. rewrite Qabs_pos by lra. lra. }
      rewrite Eband. reflexivity. }
    repeat split; try assumption.
    rewrite Hrp.
    set (np := 25.0 + inject_Z (a - 40) / 60.0 * 30.0) in *.
    assert (Hnz : ~ np == 0) by lra.
    rewrite (thin_lens_closed_form np Hnz).
    apply thin_lens_sign; lra.
  - exact Hle.
  - destruct (set_age_sixty self) as (s & E & Hage & Hnp & Hrp).
    exists s. repeat split; assumption.
  - destruct (set_age_cases 30 self) as [_ H30].
    apply H30. discriminate.
Qed.

(** C8.  When [get_effective_near_point()] returns [e], [get_focus_quality()]
    returns; with [gap = |object_distance - e|] the result is exactly [1.0]
    when [gap < 2.0] (in particular when the two are equal), and otherwise
    [max(0.0, 1.0 - gap / 30.0)]: [1 - gap/30] for a gap from 2 to 30 cm, and
    [0] from 30 cm on. *)
Theorem focus_quality_profile (self : t) (e : Q) :
  get_effective_near_point self = Ok e ->
  let gap := Qabs (_object_distance self - e) in
  exists q,
    get_focus_quality self = Ok q /\
    (gap < 2.0 -> q = 1.0) /\
    (_object_distance self == e -> q = 1.0) /\
    (~ gap < 2.0 -> q = pymax 0.0 (1.0 - gap / 30.0)) /\
    (2.0 <= gap <= 30.0 -> q == 1 - gap * (1 # 30)) /\
    (30.0 <= gap -> q == 0).
Proof.
  intros He gap. unfold get_focus_quality. rewrite He. cbn [bind]. fold gap.
  assert (Hdiv : gap / 30.0 == gap * (1 # 30)) by field.
  destruct (gap <? 2.0) eqn:Egap.
  - apply Qltb_true in Egap. exists 1.0. split; [reflexivity |].
    repeat split; try reflexivity; intros H; try contradiction; exfalso; lra.
  - apply Qltb_false in Egap. rewrite pdiv_Ok by lra. cbn [bind].
    exists (pymax 0.0 (1.0 - gap / 30.0)). split; [reflexivity |].
    split; [intros H; exfalso; lra |].
    split; [| split; [reflexivity |]].
    + intros H. exfalso.
      assert (E0 : gap == 0).
      { unfold gap. rewrite H.
        assert (Ez : e - e == 0) by ring. rewrite Ez. reflexivity. }
      lra.
    + split; intros H; unfold pymax;
        destruct (Qlt_le_dec 0.0 (1.0 - gap / 30.0)); lra.
Qed.

Lemma focus_quality_profile_witness :
  let self := mk 25.0 40.0 0.0 25 0.0 in
  let gap := Qabs (_object_distance self - 25.0) in
  exists q,
    get_focus_quality self = Ok q /\
    (gap < 2.0 -> q = 1.0) /\
    (_object_distance self == 25.0 -> q = 1.0) /\
    (~ gap < 2.0 -> q = pymax 0.0 (1.0 - gap / 30.0)) /\
    (2.0 <= gap <= 30.0 -> q == 1 - gap * (1 # 30)) /\
    (30.0 <= gap -> q == 0).
Proof.
  apply (focus_quality_profile (mk 25.0 40.0 0.0 25 0.0) 25.0).
  reflexivity.
Defined.

(** C9, as stated, fails at the threshold itself.  With lens power exactly
    0.01 neither [abs(lens_power) < 0.01] nor [abs(lens_power) > 0.01] holds,
    so the call falls through to [return self._near_point]: two reachable
    objects with the same lens power 0.01 (for which the guard would pass) and
    near points 25.0 and 50.0 get different answers. *)
Lemma effective_near_point_at_threshold_reads_near_point :
  ~ (forall self1 self2 : t,
       reachable self1 -> reachable self2 ->
       _lens_power self1 = _lens_power self2 ->
       0.01 <= Qabs (_lens_power self1) ->
       0.001 < Qabs (1.0 / _lens_power self1 - -0.25) ->
       exists e, get_effective_near_point self1 = Ok e /\
                 get_effective_near_point self2 = Ok e).
Proof.
  intros H.
  destruct (H (mk 25.0 25.0 0.01 25 0.0)
              (mk 50.0 25.0 0.01 25
                  (1.0 / (- 50.0 / 100.0) - 1.0 / (- 25.0 / 100.0))))
    as (e & E1 & E2).
  - apply (reach_run (SetLensPower 0.01) (mk 25.0 25.0 0.0 25 0.0)).
    + exact vision_default_reachable.
    + reflexivity.
  - apply (reach_run (SetLensPower 0.01)
             (mk 50.0 25.0 0.0 25
                 (1.0 / (- 50.0 / 100.0) - 1.0 / (- 25.0 / 100.0)))).
    + apply (reach_init 50.0 25.0). reflexivity.
    + reflexivity.
  - reflexivity.
  - discriminate.
  - reflexivity.
  - vm_compute in E1, E2. congruence.
Qed.

(** C9, amended.  For two objects with the same lens power, strictly above
    the 0.01 threshold in absolute value, for which the guard
    [|f - u| > 0.001] passes and the denominator [f + u] is not zero
    ([f = 1/lens_power], [u = -0.25]), [get_effective_near_point()] returns
    the same value in both: the clamp to [10, 100] of [|f*u/(f+u)| * 100],
    whatever the near point, object distance and age are. *)
Theorem effective_near_point_depends_only_on_lens_power (self1 self2 : t) :
  _lens_power self1 = _lens_power self2 ->
  0.01 < Qabs (_lens_power self1) ->
  0.001 < Qabs (1.0 / _lens_power self1 - -0.25) ->
  ~ 1.0 / _lens_power self1 + -0.25 == 0 ->
  let f := 1.0 / _lens_power self1 in
  let u := - NORMAL_NEAR_POINT / 100.0 in
  let e := pymin 100.0 (pymax 10.0 (Qabs (f * u / (f + u) * 100.0))) in
  get_effective_near_point self1 = Ok e /\
  get_effective_near_point self2 = Ok e.
Proof.
  intros Hlp Habs Hguard Hden f u e.
  assert (Hu : u == -0.25) by (unfold u, NORMAL_NEAR_POINT; reflexivity).
  assert (Hnz : ~ _lens_power self1 == 0).
  { intros E. rewrite E in Habs. revert Habs. discriminate. }
  assert (Hcalc : forall self : t,
             _lens_power self = _lens_power self1 ->
             get_effective_near_point self = Ok e).
  { intros self Hself. unfold get_effective_near_point. rewrite Hself.
    assert (E1 : (Qabs (_lens_power self1) <? 0.01) = false)
      by (apply Qltb_false; lra).
    assert (E2 : (0.01 <? Qabs (_lens_power self1)) = true)
      by (apply Qltb_true; exact Habs).
    rewrite E1, E2. rewrite pdiv_Ok by exact Hnz. cbn [bind].
    rewrite (pdiv_Ok (- NORMAL_NEAR_POINT) 100.0) by lra. cbn [bind].
    fold f u.
    assert (E3 : (0.001 <? Qabs (f - u)) = true).
    { apply Qltb_true. rewrite Hu. exact Hguard. }
    rewrite E3. rewrite pdiv_Ok; [reflexivity |].
    rewrite Hu. exact Hden. }
  split; apply Hcalc; [reflexivity | symmetry; exact Hlp].
Qed.

Lemma effective_near_point_depends_only_on_lens_power_witness :
  let self1 := mk 25.0 25.0 2.0 25 0.0 in
  let self2 := mk 50.0 80.0 2.0 60
                  (1.0 / (- 50.0 / 100.0) - 1.0 / (- 25.0 / 100.0)) in
  let f := 1.0 / _lens_power self1 in
  let u := - NORMAL_NEAR_POINT / 100.0 in
  let e := pymin 100.0 (pymax 10.0 (Qabs (f * u / (f + u) * 100.0))) in
  get_effective_near_point self1 = Ok e /\
  get_effective_near_point self2 = Ok e.
Proof.
  apply (effective_near_point_depends_only_on_lens_power
           (mk 25.0 25.0 2.0 25 0.0)
           (mk 50.0 80.0 2.0 60
               (1.0 / (- 50.0 / 100.0) - 1.0 / (- 25.0 / 100.0)))).
  - reflexivity.
  - reflexivity.
  - reflexivity.
  - discriminate.
Defined.

(** A mutator called on an object whose near point is in [10, 100] returns,
    and the near point of the new object is in [10, 100] again. *)
Lemma run_near_point_range (m : mutator) (self : t) :
  10.0 <= _near_point self <= 100.0 ->
  exists self', run m self = Ok self' /\ 10.0 <= _near_point self' <= 100.0.
Proof.
  intros Hrange.
  destruct m as [value | value | value | value | preset_name]; cbn [run].
  - destruct (set_near_point_invariant value self) as (s & E & [H _] & _).
    exists s. split; [exact E | exact H].
  - eexists. split; [reflexivity | exact Hrange].
  - eexists. split; [reflexivity | exact Hrange].
  - destruct (set_age_cases value self) as [Hgt Hle].
    destruct (Z_lt_le_dec 40 (pymaxZ 5 (pyminZ 100 value))) as [Ha | Ha].
    + destruct (Hgt Ha) as (s & E & _ & _ & _ & _ & [H _]).
      exists s. split; [exact E | exact H].
    + rewrite (Hle Ha). eexists. split; [reflexivity | exact Hrange].
  - destruct (PRESETS !! preset_name) as [p |] eqn:E.
    + destruct (set_preset_known preset_name p self E) as (s & -> & [H _] & _).
      exists s. split; [reflexivity | exact H].
    + rewrite (set_preset_unknown preset_name self E).
      exists self. split; [reflexivity | exact Hrange].
Qed.

(** C10.  The near point of every object a program can hold is in
    [10.0, 100.0].  The constructor and the near-point setter clamp; the
    preset table only holds near points in [12.0, 50.0] and the age formula
    gives at most 55.0 (reached at age 100), so the two direct assignments
    stay inside the range too; every mutator returns and preserves the
    range. *)
Theorem near_point_stays_in_range :
  (forall preset_name p,
     PRESETS !! preset_name = Some p -> 12.0 <= near_point p <= 50.0) /\
  (forall a : Z,
     (40 < a <= 100)%Z -> 25.0 + inject_Z (a - 40) / 60.0 * 30.0 <= 55.0) /\
  25.0 + inject_Z (100 - 40) / 60.0 * 30.0 == 55.0 /\
  (forall near_point object_distance,
     exists self, init near_point object_distance = Ok self /\
                  10.0 <= _near_point self <= 100.0) /\
  (forall m self,
     10.0 <= _near_point self <= 100.0 ->
     exists self', run m self = Ok self' /\
                   10.0 <= _near_point self' <= 100.0) /\
  (forall self, reachable self -> 10.0 <= _near_point self <= 100.0).
Proof.
  split; [exact PRESETS_near_point_range |].
  split; [intros a Ha; apply age_near_point_range; exact Ha |].
  split; [reflexivity |].
  split; [| split].
  - intros np od. destruct (vision_init_invariant np od) as (s & E & [H _]).
    exists s. split; [exact E | exact H].
  - exact run_near_point_range.
  - intros self Hreach.
    destruct (vision_reachable_invariant self Hreach) as [H _]. exact H.
Qed.

End VisionSpec.

(** * Both models: [set_preset] *)

Section SetPreset.

Variable preset_name : string.

(** C6.  In both classes, [set_preset] with a name that is not a key of
    [PRESETS] returns [False] without raising and leaves the object as it
    was, attribute for attribute; with a name that is a key it returns
    [True]. *)
Theorem set_preset_unknown_name_changes_nothing :
  (OhmsLawPhysics.PRESETS !! preset_name = None ->
   forall self, OhmsLawPhysics.set_preset preset_name self = Ok (false, self)) /\
  (is_Some (OhmsLawPhysics.PRESETS !! preset_name) ->
   forall self, exists self',
     OhmsLawPhysics.set_preset preset_name self = Ok (true, self')) /\
  (VisionPhysics.PRESETS !! preset_name = None ->
   forall self, VisionPhysics.set_preset preset_name self = Ok (false, self)) /\
  (is_Some (VisionPhysics.PRESETS !! preset_name) ->
   forall self, exists self',
     VisionPhysics.set_preset preset_name self = Ok (true, self')).
Proof.
  split; [| split; [| split]].
  - intros E self. unfold OhmsLawPhysics.set_preset. rewrite E. reflexivity.
  - intros [p E] self. unfold OhmsLawPhysics.set_preset. rewrite E.
    unfold OhmsLawPhysics.set_voltage.
    rewrite OhmsLawFacts.update_calculations_Ok. cbn [bind].
    unfold OhmsLawPhysics.set_resistance.
    rewrite OhmsLawFacts.update_calculations_Ok. cbn [bind].
    eexists. reflexivity.
  - intros E self. apply VisionFacts.set_preset_unknown. exact E.
  - intros [p E] self.
    destruct (VisionFacts.set_preset_known preset_name p self E)
      as (s & Es & _).
    exists s. exact Es.
Qed.

End SetPreset.

(** The five keys of each table are known names, anything else is not. *)
Lemma preset_names :
  is_Some (OhmsLawPhysics.PRESETS !! "short_circuit"%string) /\
  OhmsLawPhysics.PRESETS !! "presbyopia"%string = None /\
  is_Some (VisionPhysics.PRESETS !! "presbyopia"%string) /\
  VisionPhysics.PRESETS !! "short_circuit"%string = None.
Proof. repeat split; try reflexivity; eexists; reflexivity. Qed.

(** * The same calls on binary64 floats *)

(** At lens power 4.0 the call raises on floats as it does on rationals
    ([1.0/4.0] is 0.25 and [0.25 + -0.25] is 0.0 exactly); at lens power 0.01
    it returns the near point it was given; at 2.0 it returns 50.0. *)
Lemma binary64_effective_near_point :
  (forall near_point,
     Binary64.get_effective_near_point near_point 4.0%float
     = Raise ZeroDivisionError) /\
  (forall near_point,
     Binary64.get_effective_near_point near_point 0.01%float
     = Ok near_point) /\
  (forall near_point,
     Binary64.get_effective_near_point near_point 2.0%float
     = Ok 50.0%float).
Proof. repeat split; intros near_point; vm_compute; reflexivity. Qed.

(** * More of OhmsLawPhysics *)

Lemma clamp_clamped (lo hi x : Q) :
  lo < hi -> clamped lo hi (pymax lo (pymin hi x)).
Proof.
  intros H. unfold clamped, pymax, pymin.
  destruct (Qlt_le_dec x hi) as [H1 | H1].
  - destruct (Qlt_le_dec lo x) as [H2 | H2]; [right; right; split; assumption |].
    left. reflexivity.
  - destruct (Qlt_le_dec lo hi) as [H2 | H2]; [right; left; reflexivity |].
    left. reflexivity.
Qed.

Lemma clamp_fixes_clamped (lo hi x : Q) :
  lo < hi -> clamped lo hi x -> pymax lo (pymin hi x) = x.
Proof.
  intros H [-> | [-> | [H1 H2]]]; unfold pymax, pymin.
  - destruct (Qlt_le_dec lo hi) as [_ | H3]; [| lra].
    destruct (Qlt_le_dec lo lo) as [H3 | _]; [lra | reflexivity].
  - destruct (Qlt_le_dec hi hi) as [H3 | _]; [lra |].
    destruct (Qlt_le_dec lo hi) as [_ | H3]; [reflexivity | lra].
  - destruct (Qlt_le_dec x hi) as [_ | H3]; [| lra].
    destruct (Qlt_le_dec lo x) as [_ | H3]; [reflexivity | lra].
Qed.

Module OhmsLawMore.
Import OhmsLawPhysics OhmsLawFacts.

Lemma ohm_reachable_clamped (self : t) :
  reachable self ->
  clamped MIN_VOLTAGE MAX_VOLTAGE (_voltage self) /\
  clamped MIN_RESISTANCE MAX_RESISTANCE (_resistance self).
Proof.
  assert (Hv : forall x, clamped MIN_VOLTAGE MAX_VOLTAGE (_clamp_voltage x))
    by (intros x; apply clamp_clamped; reflexivity).
  assert (Hr : forall x,
             clamped MIN_RESISTANCE MAX_RESISTANCE (_clamp_resistance x))
    by (intros x; apply clamp_clamped; reflexivity).
  induction 1 as [voltage resistance self E | m self self' _ IH E].
  - unfold init in E. rewrite update_calculations_Ok in E.
    injection E as <-. split; [apply Hv | apply Hr].
  - destruct IH as [IHv IHr].
    destruct m as [value | value | preset_name]; cbn [run] in E.
    + unfold set_voltage in E. rewrite update_calculations_Ok in E.
      injection E as <-. split; [apply Hv | exact IHr].
    + unfold set_resistance in E. rewrite update_calculations_Ok in E.
      injection E as <-. split; [exact IHv | apply Hr].
    + unfold set_preset in E.
      destruct (PRESETS !! preset_name) as [p |].
      * unfold set_voltage in E. rewrite update_calculations_Ok in E.
        cbn [bind] in E. unfold set_resistance in E.
        rewrite update_calculations_Ok in E. cbn [bind snd] in E.
        injection E as <-. split; [apply Hv | apply Hr].
      * cbn [bind snd] in E. injection E as <-. split; assumption.
Qed.

Lemma ohm_reachable_fields (self : t) :
  reachable self ->
  (1 <= _voltage self <= 50) /\
  (1 <= _resistance self <= 100) /\
  _current self = _voltage self / _resistance self /\
  _power self = _voltage self * _current self.
Proof.
  intros Hreach. destruct (ohm_reachable_invariant self Hreach) as (Hv & Hr & Hup).
  rewrite update_calculations_Ok in Hup.
  rewrite safe_resistance_public in Hup by apply Hr.
  unfold MIN_VOLTAGE, MAX_VOLTAGE in Hv.
  unfold MIN_RESISTANCE, MAX_RESISTANCE in Hr.
  destruct self as [v r c p]. cbn [_voltage _resistance _current _power] in *.
  injection Hup as Hc Hp.
  split; [lra |]. split; [lra |]. split; [symmetry; exact Hc |].
  rewrite <- Hp, <- Hc. reflexivity.
Qed.

(** X1.  In every object a program can hold, the current is between 0.01 A
    and 50 A and the power between 0.01 W and 2500 W; both upper bounds are
    reached with 50 V over 1 ohm, both lower bounds with 1 V over 100 ohm. *)
Theorem current_and_power_ranges (self : t) :
  reachable self ->
  (0.01 <= _current self <= 50) /\
  (0.01 <= _power self <= 2500) /\
  (exists top, reachable top /\ _current top == 50 /\ _power top == 2500) /\
  (exists low, reachable low /\ _current low == 0.01 /\ _power low == 0.01).
Proof.
  intros Hreach.
  destruct (ohm_reachable_fields self Hreach) as (Hv & Hr & Hc & Hp).
  assert (Hi : 0 < / _resistance self) by (apply Qinv_lt_0_compat; lra).
  assert (E : _resistance self * / _resistance self == 1)
    by (apply Qmult_inv_r; lra).
  assert (Hcur : 0.01 <= _current self <= 50).
  { rewrite Hc. unfold Qdiv.
    set (v := _voltage self) in *. set (r := _resistance self) in *.
    set (i := / r) in *. split; nra. }
  split; [exact Hcur |]. split.
  - rewrite Hp. set (v := _voltage self) in *. set (c := _current self) in *.
    split; nra.
  - split.
    + exists (mk 50.0 1.0 (50.0 / 1.0) (50.0 * (50.0 / 1.0))).
      split; [apply (reach_init 50.0 1.0); reflexivity |].
      split; reflexivity.
    + exists (mk 1.0 100.0 (1.0 / 100.0) (1.0 * (1.0 / 100.0))).
      split; [apply (reach_init 1.0 100.0); reflexivity |].
      split; reflexivity.
Qed.

Lemma current_and_power_ranges_witness :
  let self := mk 12.0 10.0 (12.0 / 10.0) (12.0 * (12.0 / 10.0)) in
  (0.01 <= _current self <= 50) /\
  (0.01 <= _power self <= 2500) /\
  (exists top, reachable top /\ _current top == 50 /\ _power top == 2500) /\
  (exists low, reachable low /\ _current low == 0.01 /\ _power low == 0.01).
Proof.
  apply (current_and_power_ranges
           (mk 12.0 10.0 (12.0 / 10.0) (12.0 * (12.0 / 10.0)))).
  exact OhmsLawSpec.default_object_reachable.
Defined.

Lemma ohm_reachable_current (self : t) :
  reachable self -> 0.01 <= _current self <= 50.
Proof.
  intros Hreach.
  destruct (ohm_reachable_fields self Hreach) as (Hv & Hr & Hc & _).
  assert (Hi : 0 < / _resistance self) by (apply Qinv_lt_0_compat; lra).
  assert (E : _resistance self * / _resistance self == 1)
    by (apply Qmult_inv_r; lra).
  rewrite Hc. unfold Qdiv.
  set (v := _voltage self) in *. set (r := _resistance self) in *.
  set (i := / r) in *. split; nra.
Qed.

(** X2.  On every object a program can hold, [get_intensity_color] returns
    (it does not raise) and its [min(..., 1.0)] never cuts: each of the three
    colour channels is multiplied by [k = 0.3 + 0.7 * current / 50], with
    [0.3 < k <= 1], so a channel in [0, 1] stays in [0, 1]; alpha is passed
    through unchanged. *)
Theorem intensity_color_scales_channels (r g b a : Q) (self : t) :
  reachable self ->
  let k := 0.3 + 0.7 * (_current self / 50.0) in
  get_intensity_color (r, g, b, a) self = Ok (r * k, g * k, b * k, a) /\
  0.3 < k <= 1 /\
  (forall x, 0 <= x <= 1 -> 0 <= x * k <= 1).
Proof.
  intros Hreach k. pose proof (ohm_reachable_current self Hreach) as Hc.
  assert (Hratio : _current self / 50.0 == _current self * (1 # 50)) by field.
  assert (Hk : 0.3 < k <= 1) by (unfold k; rewrite Hratio; split; lra).
  split; [| split; [exact Hk |]].
  - unfold get_intensity_color. rewrite pdiv_Ok by lra. cbn [bind].
    assert (E : pymin (_current self / 50.0) 1.0 = _current self / 50.0).
    { unfold pymin. destruct (Qlt_le_dec 1.0 (_current self / 50.0)) as [H | _];
        [| reflexivity].
      rewrite Hratio in H. lra. }
    rewrite E. reflexivity.
  - intros x Hx. split; nra.
Qed.

Lemma intensity_color_scales_channels_witness :
  let self := mk 12.0 10.0 (12.0 / 10.0) (12.0 * (12.0 / 10.0)) in
  let k := 0.3 + 0.7 * (_current self / 50.0) in
  get_intensity_color (1, 1, 0, 1) self = Ok (1 * k, 1 * k, 0 * k, 1) /\
  0.3 < k <= 1 /\
  (forall x, 0 <= x <= 1 -> 0 <= x * k <= 1).
Proof.
  apply (intensity_color_scales_channels 1 1 0 1
           (mk 12.0 10.0 (12.0 / 10.0) (12.0 * (12.0 / 10.0)))).
  exact OhmsLawSpec.default_object_reachable.
Defined.

(** X3.  For a positive base speed, [get_electron_speed_factor] on an object
    a program can hold lies between 1.005 and 26 times the base speed, and it
    never decreases with the current: of two such objects, the one whose
    current is not smaller gets a factor that is not smaller. *)
Theorem electron_speed_factor_range (base_speed : Q) (self other : t) :
  0 < base_speed -> reachable self -> reachable other ->
  (base_speed * 1.005 <= get_electron_speed_factor base_speed self
   <= base_speed * 26) /\
  (_current self <= _current other ->
   get_electron_speed_factor base_speed self
   <= get_electron_speed_factor base_speed other).
Proof.
  intros Hb Hs Ho. unfold get_electron_speed_factor.
  pose proof (ohm_reachable_current self Hs) as Hc.
  pose proof (ohm_reachable_current other Ho) as Hc'.
  set (c := _current self) in *. set (c' := _current other) in *.
  split; [split; nra |]. intros Hlt. nra.
Qed.

Lemma electron_speed_factor_range_witness :
  let self := mk 12.0 10.0 (12.0 / 10.0) (12.0 * (12.0 / 10.0)) in
  let other := mk 50.0 1.0 (50.0 / 1.0) (50.0 * (50.0 / 1.0)) in
  (1.0 * 1.005 <= get_electron_speed_factor 1.0 self <= 1.0 * 26) /\
  (_current self <= _current other ->
   get_electron_speed_factor 1.0 self <= get_electron_speed_factor 1.0 other).
Proof.
  apply (electron_speed_factor_range 1.0
           (mk 12.0 10.0 (12.0 / 10.0) (12.0 * (12.0 / 10.0)))
           (mk 50.0 1.0 (50.0 / 1.0) (50.0 * (50.0 / 1.0)))).
  - reflexivity.
  - exact OhmsLawSpec.default_object_reachable.
  - apply (reach_init 50.0 1.0). reflexivity.
Defined.

(** X4.  Writing back what the getters return changes nothing: on an object a
    program can hold, the voltage setter called with the stored voltage, and
    the resistance setter called with the stored resistance, return the very
    same object. *)
Theorem ohm_setters_fix_stored_values (self : t) :
  reachable self ->
  set_voltage (_voltage self) self = Ok self /\
  set_resistance (_resistance self) self = Ok self.
Proof.
  intros Hreach.
  destruct (ohm_reachable_clamped self Hreach) as [Hv Hr].
  destruct (ohm_reachable_invariant self Hreach) as (_ & _ & Hup).
  assert (Ev : _clamp_voltage (_voltage self) = _voltage self)
    by (apply clamp_fixes_clamped; [reflexivity | exact Hv]).
  assert (Er : _clamp_resistance (_resistance self) = _resistance self)
    by (apply clamp_fixes_clamped; [reflexivity | exact Hr]).
  unfold set_voltage, set_resistance. rewrite Ev, Er.
  destruct self as [v r c p]. cbn [_voltage _resistance _current _power].
  split; exact Hup.
Qed.

Lemma ohm_setters_fix_stored_values_witness :
  let self := mk 12.0 10.0 (12.0 / 10.0) (12.0 * (12.0 / 10.0)) in
  set_voltage (_voltage self) self = Ok self /\
  set_resistance (_resistance self) self = Ok self.
Proof.
  apply (ohm_setters_fix_stored_values
           (mk 12.0 10.0 (12.0 / 10.0) (12.0 * (12.0 / 10.0)))).
  exact OhmsLawSpec.default_object_reachable.
Defined.

Lemma set_voltage_then_resistance (v r : Q) (self : t) :
  (let! self1 := set_voltage v self in set_resistance r self1) = init v r.
Proof.
  unfold set_voltage, set_resistance, init.
  rewrite !update_calculations_Ok. cbn [bind _voltage _resistance].
  rewrite !update_calculations_Ok. reflexivity.
Qed.

Lemma set_preset_as_init (preset_name : string) (p : preset) (self : t) :
  PRESETS !! preset_name = Some p ->
  set_preset preset_name self =
  (let! self' := init (voltage p) (resistance p) in Ok (true, self')).
Proof.
  intros E. unfold set_preset. rewrite E.
  unfold set_voltage, set_resistance, init.
  rewrite !update_calculations_Ok. cbn [bind _voltage _resistance].
  rewrite !update_calculations_Ok. reflexivity.
Qed.

(** X5.  The object keeps no history.  Calling both setters, in either order,
    gives the object the constructor builds from the same two arguments; a
    second call of a setter overrides the first; and [set_preset] with a known
    name gives the object the constructor builds from the table entry. *)
Theorem ohm_setters_rebuild_the_object (v r v' : Q) (self : t) :
  (let! self1 := set_voltage v self in set_resistance r self1) = init v r /\
  (let! self1 := set_resistance r self in set_voltage v self1) = init v r /\
  (let! self1 := set_voltage v' self in set_voltage v self1)
  = set_voltage v self /\
  (forall preset_name p,
     PRESETS !! preset_name = Some p ->
     set_preset preset_name self =
     (let! self' := init (voltage p) (resistance p) in Ok (true, self'))).
Proof.
  split; [apply set_voltage_then_resistance |].
  split; [| split].
  - unfold set_voltage, set_resistance, init.
    rewrite !update_calculations_Ok. cbn [bind _voltage _resistance].
    rewrite !update_calculations_Ok. reflexivity.
  - unfold set_voltage.
    rewrite !update_calculations_Ok. cbn [bind _voltage _resistance].
    rewrite !update_calculations_Ok. reflexivity.
  - intros preset_name p E. apply set_preset_as_init. exact E.
Qed.

(** Every entry of the preset table, by name. *)
Lemma ohm_PRESETS_entries (preset_name : string) (p : preset) :
  PRESETS !! preset_name = Some p ->
  p = mk_preset 12.0 10.0 \/ p = mk_preset 24.0 2.0 \/
  p = mk_preset 5.0 50.0 \/ p = mk_preset 12.0 0.1 \/
  p = mk_preset 12.0 100.0.
Proof.
  unfold PRESETS. cbn [list_to_map foldr uncurry fst snd]. intros H.
  repeat (apply lookup_insert_Some in H as [[_ <-] | [_ H]]; [tauto |]).
  rewrite lookup_empty in H. discriminate.
Qed.

(** X6.  An object a program can hold whose resistance is at least 5 ohm is
    never reported dangerous; and 5 is the least such bound: for every
    resistance from 1 up to (not including) 5, the object built with 50 V and
    that resistance is reported dangerous. *)
Theorem ohm_safe_from_five_ohms (self : t) :
  reachable self -> 5 <= _resistance self ->
  is_dangerous self = (false, EmptyString) /\
  (forall r, 1 <= r -> r < 5 ->
     exists hot, init 50.0 r = Ok hot /\ _resistance hot == r /\
                 fst (is_dangerous hot) = true).
Proof.
  intros Hreach H5. split.
  - destruct (ohm_reachable_fields self Hreach) as (Hv & Hr & Hc & Hp).
    assert (Hi : 0 < / _resistance self) by (apply Qinv_lt_0_compat; lra).
    assert (E : _resistance self * / _resistance self == 1)
      by (apply Qmult_inv_r; lra).
    assert (Hcur : _current self <= 10).
    { rewrite Hc. unfold Qdiv.
      set (v := _voltage self) in *. set (r := _resistance self) in *.
      set (i := / r) in *. nra. }
    assert (Hpow : _power self <= 500).
    { rewrite Hp. set (v := _voltage self) in *. set (c := _current self) in *.
      nra. }
    unfold is_dangerous.
    assert (E1 : (20.0 <? _current self) = false) by (apply Qltb_false; lra).
    assert (E2 : (500.0 <? _power self) = false) by (apply Qltb_false; lra).
    rewrite E1, E2. reflexivity.
  - intros r Hr1 Hr5. unfold init. rewrite update_calculations_Ok.
    cbn [_voltage _resistance].
    eexists. split; [reflexivity |]. cbn [_resistance].
    assert (Er : _clamp_resistance r == r)
      by (apply clamp_inside; unfold MIN_RESISTANCE, MAX_RESISTANCE; lra).
    split; [exact Er |].
    assert (Ev : _clamp_voltage 50.0 = 50.0) by reflexivity. rewrite Ev.
    rewrite safe_resistance_public by apply clamp_resistance_range.
    assert (Hi : 0 < / _clamp_resistance r)
      by (apply Qinv_lt_0_compat; rewrite Er; lra).
    assert (E : _clamp_resistance r * / _clamp_resistance r == 1)
      by (apply Qmult_inv_r; rewrite Er; lra).
    unfold is_dangerous. cbn [_current _power]. unfold Qdiv.
    set (cr := _clamp_resistance r) in *. set (i := / cr) in *.
    destruct (20.0 <? 50.0 * i) eqn:E1; [reflexivity |].
    assert (E2 : (500.0 <? 50.0 * (50.0 * i)) = true)
      by (apply Qltb_true; nra).
    rewrite E2. reflexivity.
Qed.

Lemma ohm_safe_from_five_ohms_witness :
  let self := mk 12.0 10.0 (12.0 / 10.0) (12.0 * (12.0 / 10.0)) in
  is_dangerous self = (false, EmptyString) /\
  (forall r, 1 <= r -> r < 5 ->
     exists hot, init 50.0 r = Ok hot /\ _resistance hot == r /\
                 fst (is_dangerous hot) = true).
Proof.
  apply (ohm_safe_from_five_ohms
           (mk 12.0 10.0 (12.0 / 10.0) (12.0 * (12.0 / 10.0)))).
  - exact OhmsLawSpec.default_object_reachable.
  - discriminate.
Defined.

(** X7.  No preset trips the warning: after a successful [set_preset], whatever
    the name and the object it is called on, [is_dangerous()] returns
    [(False, "")] (even for 'short_circuit' and 'high_current'). *)
Theorem ohm_presets_are_never_dangerous
  (preset_name : string) (self self' : t) :
  set_preset preset_name self = Ok (true, self') ->
  is_dangerous self' = (false, EmptyString).
Proof.
  intros E. destruct (PRESETS !! preset_name) as [p |] eqn:Ep.
  - rewrite (set_preset_as_init preset_name p self Ep) in E.
    apply ohm_PRESETS_entries in Ep.
    destruct Ep as [-> | [-> | [-> | [-> | ->]]]];
      vm_compute in E; injection E as <-; reflexivity.
  - unfold set_preset in E. rewrite Ep in E. discriminate.
Qed.

Lemma ohm_presets_are_never_dangerous_witness :
  is_dangerous (mk 12.0 1.0 (12.0 / 1.0) (12.0 * (12.0 / 1.0)))
  = (false, EmptyString).
Proof.
  apply (ohm_presets_are_never_dangerous "short_circuit"
           (mk 12.0 10.0 (12.0 / 10.0) (12.0 * (12.0 / 10.0)))).
  reflexivity.
Defined.

End OhmsLawMore.

(** * More of VisionPhysics *)

Module VisionMore.
Import VisionPhysics VisionFacts.

Lemma calculate_keeps_inputs (self self' : t) :
  _calculate_required_power self = Ok self' ->
  _near_point self' = _near_point self /\
  _object_distance self' = _object_distance self /\
  _lens_power self' = _lens_power self /\
  _age self' = _age self.
Proof.
  unfold _calculate_required_power.
  destruct (Qabs (_near_point self - NORMAL_NEAR_POINT) <? 0.1).
  - intros [= <-]. repeat split; reflexivity.
  - destruct (pdiv (- _near_point self) 100.0) as [v |]; cbn [bind];
      [| discriminate].
    destruct (pdiv (- NORMAL_NEAR_POINT) 100.0) as [u |]; cbn [bind];
      [| discriminate].
    destruct (pdiv 1.0 v) as [iv |]; cbn [bind]; [| discriminate].
    destruct (pdiv 1.0 u) as [iu |]; cbn [bind]; [| discriminate].
    intros [= <-]. repeat split; reflexivity.
Qed.

Lemma age_near_point_clamped (a : Z) :
  (40 < a <= 100)%Z ->
  clamped MIN_NEAR_POINT MAX_NEAR_POINT
    (25.0 + inject_Z (a - 40) / 60.0 * 30.0).
Proof.
  intros Ha. pose proof (age_near_point_range a Ha) as H.
  right. right. unfold MIN_NEAR_POINT, MAX_NEAR_POINT. lra.
Qed.

Lemma preset_near_point_clamped (preset_name : string) (p : preset) :
  PRESETS !! preset_name = Some p ->
  clamped MIN_NEAR_POINT MAX_NEAR_POINT (near_point p) /\
  (5 <= age p <= 100)%Z.
Proof.
  intros H. pose proof (PRESETS_near_point_range preset_name p H) as Hr.
  split.
  - right. right. unfold MIN_NEAR_POINT, MAX_NEAR_POINT. lra.
  - apply PRESETS_entries in H.
    destruct H as [-> | [-> | [-> | [-> | ->]]]]; cbn [age]; lia.
Qed.

(** The stored inputs of an object a program can hold are values the clamps
    return; the age is in [5, 100]. *)
Lemma vision_reachable_clamped (self : t) :
  reachable self ->
  clamped MIN_NEAR_POINT MAX_NEAR_POINT (_near_point self) /\
  clamped 5.0 200.0 (_object_distance self) /\
  clamped MIN_POWER MAX_POWER (_lens_power self) /\
  (5 <= _age self <= 100)%Z.
Proof.
  induction 1 as [near_point object_distance self E | m self self' _ IH E].
  - unfold init in E. apply calculate_keeps_inputs in E.
    cbn [_near_point _object_distance _lens_power _age] in E.
    destruct E as (-> & -> & -> & ->).
    split; [apply clamp_clamped; reflexivity |].
    split; [apply clamp_clamped; reflexivity |].
    split; [right; right; split; reflexivity | lia].
  - destruct IH as (IHn & IHo & IHl & IHa).
    destruct m as [value | value | value | value | preset_name]; cbn [run] in E.
    + unfold set_near_point in E. apply calculate_keeps_inputs in E.
      cbn [_near_point _object_distance _lens_power _age] in E.
      destruct E as (-> & -> & -> & ->).
      split; [apply clamp_clamped; reflexivity |]. tauto.
    + injection E as <-.
      cbn [_near_point _object_distance _lens_power _age].
      split; [exact IHn |]. split; [apply clamp_clamped; reflexivity |]. tauto.
    + injection E as <-.
      cbn [_near_point _object_distance _lens_power _age].
      split; [exact IHn |]. split; [exact IHo |].
      split; [apply clamp_clamped; reflexivity | exact IHa].
    + pose proof (clampZ_range 5 100 value ltac:(lia)) as Hclamp.
      unfold set_age in E.
      destruct (40 <? pymaxZ 5 (pyminZ 100 value))%Z eqn:E40.
      * apply Z.ltb_lt in E40. rewrite pdiv_Ok in E by lra. cbn [bind] in E.
        apply calculate_keeps_inputs in E.
        cbn [_near_point _object_distance _lens_power _age] in E.
        destruct E as (-> & -> & -> & ->).
        split; [apply age_near_point_clamped; lia |]. tauto.
      * injection E as <-.
        cbn [_near_point _object_distance _lens_power _age]. tauto.
    + unfold set_preset in E.
      destruct (PRESETS !! preset_name) as [p |] eqn:Ep.
      * destruct (preset_near_point_clamped preset_name p Ep) as [Hn Ha].
        destruct (_calculate_required_power _) as [s |] eqn:Es;
          cbn [bind snd] in E; [| discriminate].
        injection E as <-. apply calculate_keeps_inputs in Es.
        cbn [_near_point _object_distance _lens_power _age] in Es.
        destruct Es as (-> & -> & -> & ->). tauto.
      * cbn [bind snd] in E. injection E as <-. tauto.
Qed.

Lemma lens_power_nonzero (lp : Q) : 0.01 < Qabs lp -> ~ lp == 0.
Proof. intros H E. rewrite E in H. revert H. discriminate. Qed.

Lemma effective_near_point_no_lens (self : t) :
  Qabs (_lens_power self) <= 0.01 ->
  get_effective_near_point self = Ok (_near_point self).
Proof.
  intros H. unfold get_effective_near_point.
  destruct (Qabs (_lens_power self) <? 0.01); [reflexivity |].
  assert (E : (0.01 <? Qabs (_lens_power self)) = false)
    by (apply Qltb_false; exact H).
  rewrite E. reflexivity.
Qed.

Lemma effective_near_point_with_lens (self : t) :
  0.01 < Qabs (_lens_power self) ->
  get_effective_near_point self =
  if 0.001 <? Qabs (1.0 / _lens_power self - - NORMAL_NEAR_POINT / 100.0)
  then
    let! v := pdiv (1.0 / _lens_power self * (- NORMAL_NEAR_POINT / 100.0))
                   (1.0 / _lens_power self + - NORMAL_NEAR_POINT / 100.0) in
    Ok (pymin 100.0 (pymax 10.0 (Qabs (v * 100.0))))
  else Ok (_near_point self).
Proof.
  intros H. unfold get_effective_near_point.
  assert (E1 : (Qabs (_lens_power self) <? 0.01) = false)
    by (apply Qltb_false; lra).
  assert (E2 : (0.01 <? Qabs (_lens_power self)) = true)
    by (apply Qltb_true; exact H).
  rewrite E1, E2.
  rewrite pdiv_Ok by (apply lens_power_nonzero; exact H). cbn [bind].
  rewrite (pdiv_Ok (- NORMAL_NEAR_POINT) 100.0) by lra. cbn [bind].
  reflexivity.
Qed.

Lemma lens_denominator_zero (lp : Q) :
  ~ lp == 0 ->
  (1.0 / lp + - NORMAL_NEAR_POINT / 100.0 == 0 <-> lp == 4).
Proof.
  intros Hnz. unfold NORMAL_NEAR_POINT.
  assert (E : 1.0 / lp + - 25.0 / 100.0 == (4 - lp) * / (4 * lp))
    by (field; exact Hnz).
  rewrite E. split; intros H.
  - assert (H4 : ~ 4 * lp == 0) by (intros H4; apply Hnz; lra).
    assert (E' : 4 - lp == (4 - lp) * / (4 * lp) * (4 * lp))
      by (field; exact Hnz).
    rewrite H in E'. lra.
  - rewrite H. reflexivity.
Qed.

Lemma lens_guard_when_four (lp : Q) :
  lp == 4 -> 0.001 < Qabs (1.0 / lp - - NORMAL_NEAR_POINT / 100.0).
Proof. intros H. rewrite H. reflexivity. Qed.

(** X8.  [get_effective_near_point()] raises [ZeroDivisionError] exactly when
    the lens power is 4 diopters, and so does [get_focus_quality()]; for every
    other lens power, and whatever the other attributes hold, both return a
    value. *)
Theorem effective_near_point_raises_iff_four (self : t) :
  (get_effective_near_point self = Raise ZeroDivisionError
   <-> _lens_power self == 4) /\
  (get_focus_quality self = Raise ZeroDivisionError
   <-> _lens_power self == 4) /\
  (~ _lens_power self == 4 ->
   exists e q, get_effective_near_point self = Ok e /\
               get_focus_quality self = Ok q).
Proof.
  assert (Heff : get_effective_near_point self = Raise ZeroDivisionError
                 <-> _lens_power self == 4).
  { split.
    - intros E.
      destruct (Qlt_le_dec 0.01 (Qabs (_lens_power self))) as [Hlens | Hno].
      + rewrite (effective_near_point_with_lens self Hlens) in E.
        destruct (0.001 <? _) in E; [| discriminate].
        unfold pdiv in E.
        destruct (Qeq_dec _ 0) as [Hz | _] in E; [| discriminate].
        apply lens_denominator_zero in Hz; [exact Hz |].
        apply lens_power_nonzero. exact Hlens.
      + rewrite (effective_near_point_no_lens self Hno) in E. discriminate.
    - intros H4.
      assert (Hlens : 0.01 < Qabs (_lens_power self))
        by (rewrite H4; reflexivity).
      rewrite (effective_near_point_with_lens self Hlens).
      assert (Eg : (0.001 <? Qabs (1.0 / _lens_power self
                                   - - NORMAL_NEAR_POINT / 100.0)) = true)
        by (apply Qltb_true, lens_guard_when_four; exact H4).
      rewrite Eg. unfold pdiv.
      destruct (Qeq_dec _ 0) as [_ | Hnz]; [reflexivity |].
      exfalso. apply Hnz. apply lens_denominator_zero; [| exact H4].
      apply lens_power_nonzero. exact Hlens. }
  assert (Hfoc : get_focus_quality self = Raise ZeroDivisionError
                 <-> _lens_power self == 4).
  { rewrite <- Heff. unfold get_focus_quality.
    destruct (get_effective_near_point self) as [e | []]; cbn [bind].
    - split; [| discriminate].
      destruct (_ <? 2.0); [discriminate |].
      rewrite pdiv_Ok by lra. discriminate.
    - split; reflexivity. }
  split; [exact Heff |]. split; [exact Hfoc |].
  intros Hne.
  destruct (get_effective_near_point self) as [e | []] eqn:Ee.
  - destruct (get_focus_quality self) as [q | []] eqn:Eq.
    + exists e, q. split; reflexivity.
    + exfalso. apply Hne. apply Hfoc. reflexivity.
  - exfalso. apply Hne. apply Heff. reflexivity.
Qed.

Lemma lens_guard_window (lp : Q) :
  ~ lp == 0 ->
  (Qabs (1.0 / lp - - NORMAL_NEAR_POINT / 100.0) <= 0.001
   <-> - (1000 # 249) <= lp <= - (1000 # 251)).
Proof.
  intros Hnz. unfold NORMAL_NEAR_POINT.
  assert (E : 1.0 / lp - - 25.0 / 100.0 == / lp + (1 # 4))
    by (field; exact Hnz).
  rewrite E. rewrite Qabs_Qle_condition.
  assert (Ei : lp * / lp == 1) by (apply Qmult_inv_r; exact Hnz).
  set (i := / lp) in *.
  split; intros [H1 H2]; split; nra.
Qed.

Lemma lens_image_distance (lp : Q) :
  ~ lp == 0 -> ~ lp == 4 ->
  Qabs (1.0 / lp * (- NORMAL_NEAR_POINT / 100.0)
        / (1.0 / lp + - NORMAL_NEAR_POINT / 100.0) * 100.0)
  * Qabs (4 - lp) == 100.
Proof.
  intros Hnz H4. unfold NORMAL_NEAR_POINT.
  rewrite <- Qabs_Qmult.
  assert (E : 1.0 / lp * (- 25.0 / 100.0) / (1.0 / lp + - 25.0 / 100.0)
              * 100.0 * (4 - lp) == - (100))
    by (field; split; [exact Hnz | intros H; apply H4; lra]).
  rewrite E. reflexivity.
Qed.

Lemma effective_near_point_outside_window (self : t) :
  0.01 < Qabs (_lens_power self) -> ~ _lens_power self == 4 ->
  ~ (- (1000 # 249) <= _lens_power self <= - (1000 # 251)) ->
  exists A,
    get_effective_near_point self = Ok (pymin 100.0 (pymax 10.0 A)) /\
    0 <= A /\ A * Qabs (4 - _lens_power self) == 100.
Proof.
  intros Hlens H4 Hout.
  pose proof (lens_power_nonzero _ Hlens) as Hnz.
  rewrite (effective_near_point_with_lens self Hlens).
  pose proof (lens_guard_window (_lens_power self) Hnz) as Hwin.
  assert (Hg : (0.001 <? Qabs (1.0 / _lens_power self
                               - - NORMAL_NEAR_POINT / 100.0)) = true).
  { apply Qltb_true.
    destruct (Qlt_le_dec 0.001
                (Qabs (1.0 / _lens_power self - - NORMAL_NEAR_POINT / 100.0)))
      as [H | H]; [exact H |].
    exfalso. apply Hout. apply Hwin. exact H. }
  rewrite Hg. rewrite pdiv_Ok.
  2: { intros Hz. apply H4. apply lens_denominator_zero; assumption. }
  cbn [bind]. eexists. split; [reflexivity |].
  split; [apply Qabs_nonneg |].
  apply lens_image_distance; assumption.
Qed.

(** X9.  Where the corrective lens saturates [get_effective_near_point()],
    with [d = |4 - lens_power|] the distance of the lens power from the
    4 diopters at which the call raises.  Within 0.01 diopter of -4 the guard
    on [f - u] fails and the near point is returned unchanged, as if there
    were no lens.  Within 0.999 diopter of 4 (4 itself apart) the result is
    the upper bound [100.0], and from [d = 10.001] on (lens powers of -6.001
    and below) it is the lower bound [10.0].  For [d] between 1.001 and 9.999,
    away from the window around -4 and from the lens powers too weak to
    count, the result lies strictly between the two bounds. *)
Theorem effective_near_point_saturation (self : t) :
  let lp := _lens_power self in
  let d := Qabs (4 - lp) in
  (Qabs (lp + 4) <= 0.01 ->
   get_effective_near_point self = Ok (_near_point self)) /\
  (d <= 0.999 -> ~ lp == 4 -> get_effective_near_point self = Ok 100.0) /\
  (10.001 <= d -> get_effective_near_point self = Ok 10.0) /\
  (1.001 <= d <= 9.999 -> 0.02 <= Qabs (lp + 4) -> 0.02 <= Qabs lp ->
   exists e, get_effective_near_point self = Ok e /\ 10 < e < 100).
Proof.
  intros lp d.
  assert (Hd : forall lo hi, lo <= d <= hi -> 0 <= lo ->
                 (lo <= 4 - lp <= hi) \/ (lo <= lp - 4 <= hi)).
  { intros lo hi [Hlo Hhi] H0. unfold d in Hlo, Hhi.
    destruct (Qlt_le_dec (4 - lp) 0) as [Hneg | Hpos].
    - right. rewrite Qabs_neg in Hlo, Hhi by lra. lra.
    - left. rewrite Qabs_pos in Hlo, Hhi by lra. lra. }
  split; [| split; [| split]].
  - intros Hnear. apply Qabs_Qle_condition in Hnear.
    assert (Hlens : 0.01 < Qabs (_lens_power self)).
    { fold lp. rewrite Qabs_neg by lra. lra. }
    rewrite (effective_near_point_with_lens self Hlens).
    assert (Hg : (0.001 <? Qabs (1.0 / _lens_power self
                                 - - NORMAL_NEAR_POINT / 100.0)) = false).
    { apply Qltb_false. apply lens_guard_window.
      - apply lens_power_nonzero. exact Hlens.
      - fold lp. split; lra. }
    rewrite Hg. reflexivity.
  - intros Hclose H4.
    assert (Hdpos : 0 < d).
    { unfold d. destruct (Qlt_le_dec (4 - lp) 0) as [Hneg | Hpos].
      - rewrite Qabs_neg by lra. lra.
      - rewrite Qabs_pos by lra.
        destruct (Qlt_le_dec 0 (4 - lp)) as [H | H]; [exact H |].
        exfalso. apply H4. lra. }
    destruct (Hd 0 0.999 ltac:(split; [apply Qabs_nonneg | exact Hclose])
                ltac:(lra)) as [Hr | Hr].
    + destruct (effective_near_point_outside_window self) as (A & E & HA & HAd).
      * fold lp. rewrite Qabs_pos by lra. lra.
      * exact H4.
      * fold lp. lra.
      * rewrite E. fold lp d in HAd. f_equal. by_cases; try reflexivity; nra.
    + destruct (effective_near_point_outside_window self) as (A & E & HA & HAd).
      * fold lp. rewrite Qabs_pos by lra. lra.
      * exact H4.
      * fold lp. lra.
      * rewrite E. fold lp d in HAd. f_equal. by_cases; try reflexivity; nra.
  - intros Hfar.
    assert (Hcase : lp <= -6.001 \/ 14.001 <= lp).
    { unfold d in Hfar. destruct (Qlt_le_dec (4 - lp) 0) as [Hneg | Hpos].
      - right. rewrite Qabs_neg in Hfar by lra. lra.
      - left. rewrite Qabs_pos in Hfar by lra. lra. }
    destruct (effective_near_point_outside_window self) as (A & E & HA & HAd).
    + fold lp. destruct Hcase as [H | H];
        [rewrite Qabs_neg by lra | rewrite Qabs_pos by lra]; lra.
    + fold lp. lra.
    + fold lp. lra.
    + rewrite E. fold lp d in HAd. f_equal. by_cases; try reflexivity; nra.
  - intros Hmid Hwin Hlens.
    assert (Hdpos : 1.001 <= d) by apply Hmid.
    destruct (effective_near_point_outside_window self) as (A & E & HA & HAd).
    + fold lp. lra.
    + fold lp. intros H4. unfold d in Hdpos. rewrite H4 in Hdpos.
      apply Hdpos. reflexivity.
    + fold lp. intros [H1 H2].
      assert (Hin : Qabs (lp + 4) <= 0.017)
        by (apply Qabs_Qle_condition; split; lra).
      lra.
    + rewrite E. fold lp d in HAd. eexists. split; [reflexivity |].
      destruct Hmid as [Hlo Hhi]. by_cases; split; nra.
Qed.

Lemma focus_quality_of (self : t) (e : Q) :
  get_effective_near_point self = Ok e ->
  exists q, get_focus_quality self = Ok q /\ 0 <= q <= 1.
Proof.
  intros E. unfold get_focus_quality. rewrite E. cbn [bind].
  destruct (_ <? 2.0).
  - exists 1.0. split; [reflexivity | lra].
  - rewrite pdiv_Ok by lra. cbn [bind]. eexists. split; [reflexivity |].
    pose proof (Qabs_nonneg (_object_distance self - e)) as Hgap.
    set (gap := Qabs (_object_distance self - e)) in *.
    assert (Hdiv : gap / 30.0 == gap * (1 # 30)) by field.
    unfold pymax. destruct (Qlt_le_dec 0.0 (1.0 - gap / 30.0)); lra.
Qed.

Lemma effective_near_point_in_range (self : t) (e : Q) :
  10 <= _near_point self <= 100 ->
  get_effective_near_point self = Ok e -> 10 <= e <= 100.
Proof.
  intros Hnp E.
  destruct (Qlt_le_dec 0.01 (Qabs (_lens_power self))) as [Hlens | Hno].
  - rewrite (effective_near_point_with_lens self Hlens) in E.
    destruct (0.001 <? _) in E.
    + destruct (pdiv _ _) as [v |] in E; cbn [bind] in E; [| discriminate].
      injection E as <-. by_cases; lra.
    + injection E as <-. exact Hnp.
  - rewrite (effective_near_point_no_lens self Hno) in E.
    injection E as <-. exact Hnp.
Qed.

(** X10.  On every object a program can hold whose lens power is not 4
    diopters, [get_effective_near_point()] returns a distance between 10 and
    100 cm and [get_focus_quality()] returns a score between 0 and 1. *)
Theorem effective_near_point_and_focus_ranges (self : t) :
  reachable self -> ~ _lens_power self == 4 ->
  exists e q,
    get_effective_near_point self = Ok e /\
    get_focus_quality self = Ok q /\
    10 <= e <= 100 /\ 0 <= q <= 1.
Proof.
  intros Hreach H4.
  destruct (vision_reachable_invariant self Hreach) as [Hrange _].
  unfold MIN_NEAR_POINT, MAX_NEAR_POINT in Hrange.
  destruct (get_effective_near_point self) as [e | []] eqn:Ee.
  - destruct (focus_quality_of self e Ee) as (q & Eq & Hq).
    exists e, q. split; [reflexivity |]. split; [exact Eq |].
    split; [| exact Hq].
    apply (effective_near_point_in_range self e); [lra | exact Ee].
  - exfalso. apply H4.
    destruct (Qlt_le_dec 0.01 (Qabs (_lens_power self))) as [Hlens | Hno].
    + rewrite (effective_near_point_with_lens self Hlens) in Ee.
      destruct (0.001 <? _) in Ee; [| discriminate].
      unfold pdiv in Ee.
      destruct (Qeq_dec _ 0) as [Hz | _] in Ee; [| discriminate].
      apply lens_denominator_zero in Hz; [exact Hz |].
      apply lens_power_nonzero. exact Hlens.
    + rewrite (effective_near_point_no_lens self Hno) in Ee. discriminate.
Qed.

Lemma effective_near_point_and_focus_ranges_witness :
  exists e q,
    get_effective_near_point (mk 25.0 25.0 0.0 25 0.0) = Ok e /\
    get_focus_quality (mk 25.0 25.0 0.0 25 0.0) = Ok q /\
    10 <= e <= 100 /\ 0 <= q <= 1.
Proof.
  apply (effective_near_point_and_focus_ranges (mk 25.0 25.0 0.0 25 0.0)).
  - exact VisionSpec.vision_default_reachable.
  - discriminate.
Defined.

Lemma reachable_required_power (self : t) :
  reachable self ->
  (10 <= _near_point self <= 100) /\
  ((Qabs (_near_point self - 25.0) < 0.1 /\ _required_power self = 0.0) \/
   (0.1 <= Qabs (_near_point self - 25.0) /\
    _required_power self == (4 * _near_point self - 100) * / _near_point self)).
Proof.
  intros Hreach.
  destruct (vision_reachable_invariant self Hreach) as [Hrange Hup].
  pose proof (invariant_nonzero self Hrange) as Hnz.
  apply up_to_date_iff in Hup; [| exact Hnz].
  unfold MIN_NEAR_POINT, MAX_NEAR_POINT in Hrange.
  split; [lra |].
  unfold NORMAL_NEAR_POINT in Hup at 1.
  destruct (Qabs (_near_point self - 25.0) <? 0.1) eqn:Eband.
  - left. apply Qltb_true in Eband. split; assumption.
  - right. apply Qltb_false in Eband. split; [exact Eband |].
    rewrite Hup. apply VisionSpec.thin_lens_closed_form. exact Hnz.
Qed.

Lemma required_power_range (self : t) :
  reachable self -> -6 <= _required_power self <= 3.
Proof.
  intros Hreach.
  destruct (reachable_required_power self Hreach) as (Hnp & [[_ ->] | [_ E]]).
  - split; discriminate.
  - rewrite E.
    assert (Hi : 0 < / _near_point self) by (apply Qinv_lt_0_compat; lra).
    assert (Ei : _near_point self * / _near_point self == 1)
      by (apply Qmult_inv_r; lra).
    set (np := _near_point self) in *. set (i := / np) in *. split; nra.
Qed.

Lemma effective_near_point_returns (self : t) :
  ~ _lens_power self == 4 -> exists e, get_effective_near_point self = Ok e.
Proof.
  intros H4. destruct (get_effective_near_point self) as [e | []] eqn:Ee;
    [exists e; reflexivity |].
  exfalso. apply H4.
  destruct (Qlt_le_dec 0.01 (Qabs (_lens_power self))) as [Hlens | Hno].
  - rewrite (effective_near_point_with_lens self Hlens) in Ee.
    destruct (0.001 <? _) in Ee; [| discriminate].
    unfold pdiv in Ee.
    destruct (Qeq_dec _ 0) as [Hz | _] in Ee; [| discriminate].
    apply lens_denominator_zero in Hz; [exact Hz |].
    apply lens_power_nonzero. exact Hlens.
  - rewrite (effective_near_point_no_lens self Hno) in Ee. discriminate.
Qed.

(** X11.  The required power of an object a program can hold is between -6
    and +3 diopters, inside the lens range.  Setting the lens power to it is
    therefore never clamped and gives clear vision; and since it stays away
    from 4 diopters, [get_effective_near_point()] and [get_focus_quality()]
    both return with that lens, a distance between 10 and 100 cm and a score
    between 0 and 1. *)
Theorem required_lens_gives_clear_vision (self : t) :
  reachable self ->
  (-6 <= _required_power self <= 3) /\
  exists self',
    set_lens_power (get_required_power self) self = Ok self' /\
    _lens_power self' = _required_power self /\
    _near_point self' = _near_point self /\
    is_clear_vision self' = true /\
    exists e q,
      get_effective_near_point self' = Ok e /\ 10 <= e <= 100 /\
      get_focus_quality self' = Ok q /\ 0 <= q <= 1.
Proof.
  intros Hreach. pose proof (required_power_range self Hreach) as Hrp.
  split; [exact Hrp |].
  assert (Elp : pymax MIN_POWER (pymin MAX_POWER (_required_power self))
                = _required_power self).
  { apply clamp_fixes_clamped; [reflexivity |]. right. right.
    unfold MIN_POWER, MAX_POWER. lra. }
  unfold set_lens_power, get_required_power. rewrite Elp.
  eexists. split; [reflexivity |].
  cbn [_lens_power _near_point]. split; [reflexivity |].
  split; [reflexivity |]. split.
  - unfold is_clear_vision. cbn [_lens_power _required_power].
    apply Qltb_true.
    assert (E0 : _required_power self - _required_power self == 0) by ring.
    rewrite E0. reflexivity.
  - set (self' := mk _ _ _ _ _).
    destruct (reachable_required_power self Hreach) as (Hnp & _).
    assert (Hne4 : ~ _lens_power self' == 4) by (cbn [self' _lens_power]; lra).
    destruct (effective_near_point_returns self' Hne4) as (e & Ee).
    destruct (focus_quality_of self' e Ee) as (q & Eq & Hq).
    exists e, q. split; [exact Ee |]. split; [| split; [exact Eq | exact Hq]].
    apply (effective_near_point_in_range self' e); [exact Hnp | exact Ee].
Qed.

Lemma required_lens_gives_clear_vision_witness :
  let self := mk 50.0 25.0 0.0 25
                 (1.0 / (- 50.0 / 100.0) - 1.0 / (- 25.0 / 100.0)) in
  (-6 <= _required_power self <= 3) /\
  exists self',
    set_lens_power (get_required_power self) self = Ok self' /\
    _lens_power self' = _required_power self /\
    _near_point self' = _near_point self /\
    is_clear_vision self' = true /\
    exists e q,
      get_effective_near_point self' = Ok e /\ 10 <= e <= 100 /\
      get_focus_quality self' = Ok q /\ 0 <= q <= 1.
Proof.
  apply (required_lens_gives_clear_vision
           (mk 50.0 25.0 0.0 25
               (1.0 / (- 50.0 / 100.0) - 1.0 / (- 25.0 / 100.0)))).
  apply (reach_init 50.0 25.0). reflexivity.
Defined.

(** X12.  [get_ray_convergence_point(lens_present=True)] is
    [get_effective_near_point()], result or exception, on every object: its
    own test of the lens power is covered by the callee.  With
    [lens_present=False] it returns the near point and never raises, also at
    4 diopters. *)
Theorem ray_convergence_point_is_effective_near_point (self : t) :
  get_ray_convergence_point true self = get_effective_near_point self /\
  get_ray_convergence_point false self = Ok (_near_point self).
Proof.
  split; [| reflexivity].
  unfold get_ray_convergence_point. cbn [negb orb].
  destruct (Qabs (_lens_power self) <? 0.01) eqn:E; [| reflexivity].
  apply Qltb_true in E. symmetry. apply effective_near_point_no_lens. lra.
Qed.

(** X13.  On an object a program can hold, the lens type agrees with the sign
    of the required power: 'concave' comes with a required power below -0.34
    diopter, 'convex' with one above 0.29 diopter, and 'none' with a required
    power strictly between -0.35 and 0.3 diopter; there is no fourth
    answer. *)
Theorem lens_type_matches_required_power (self : t) :
  reachable self ->
  (get_lens_type self = "concave"%string /\ _required_power self < -0.34) \/
  (get_lens_type self = "convex"%string /\ 0.29 < _required_power self) \/
  (get_lens_type self = "none"%string /\
   -0.35 < _required_power self < 0.3).
Proof.
  intros Hreach.
  destruct (reachable_required_power self Hreach) as (Hnp & Hcase).
  unfold get_lens_type, NORMAL_NEAR_POINT.
  assert (Hi : 0 < / _near_point self) by (apply Qinv_lt_0_compat; lra).
  assert (Ei : _near_point self * / _near_point self == 1)
    by (apply Qmult_inv_r; lra).
  destruct (_near_point self <? 25.0 - 2) eqn:E1.
  - left. split; [reflexivity |]. apply Qltb_true in E1.
    destruct Hcase as [[Hband _] | [_ E]].
    + apply Qabs_Qlt_condition in Hband. lra.
    + rewrite E. set (np := _near_point self) in *. set (i := / np) in *. nra.
  - apply Qltb_false in E1.
    destruct (25.0 + 2 <? _near_point self) eqn:E2.
    + right. left. split; [reflexivity |]. apply Qltb_true in E2.
      destruct Hcase as [[Hband _] | [_ E]].
      * apply Qabs_Qlt_condition in Hband. lra.
      * rewrite E. set (np := _near_point self) in *. set (i := / np) in *.
        nra.
    + right. right. split; [reflexivity |]. apply Qltb_false in E2.
      destruct Hcase as [[_ ->] | [_ E]].
      * split; reflexivity.
      * rewrite E. set (np := _near_point self) in *. set (i := / np) in *.
        split; nra.
Qed.

Lemma lens_type_matches_required_power_witness :
  let self := mk 50.0 25.0 0.0 25
                 (1.0 / (- 50.0 / 100.0) - 1.0 / (- 25.0 / 100.0)) in
  (get_lens_type self = "concave"%string /\ _required_power self < -0.34) \/
  (get_lens_type self = "convex"%string /\ 0.29 < _required_power self) \/
  (get_lens_type self = "none"%string /\
   -0.35 < _required_power self < 0.3).
Proof.
  apply (lens_type_matches_required_power
           (mk 50.0 25.0 0.0 25
               (1.0 / (- 50.0 / 100.0) - 1.0 / (- 25.0 / 100.0)))).
  apply (reach_init 50.0 25.0). reflexivity.
Defined.

(** X14.  The two classifications agree where they can: an eye classified
    'myopia' is prescribed a 'concave' lens, an eye classified 'hyperopia' or
    'presbyopia' a 'convex' one, and 'presbyopia' is only answered above age
    45.  'normal' does not determine the lens: near points 21, 25 and 29 are
    all 'normal' and get 'concave', 'none' and 'convex'. *)
Theorem vision_condition_and_lens_type (self : t) :
  (get_vision_condition self = "myopia"%string ->
   get_lens_type self = "concave"%string) /\
  (get_vision_condition self = "hyperopia"%string ->
   get_lens_type self = "convex"%string /\ (_age self <= 45)%Z) /\
  (get_vision_condition self = "presbyopia"%string ->
   get_lens_type self = "convex"%string /\ (45 < _age self)%Z) /\
  (forall od lp a rp,
     get_vision_condition (mk 21.0 od lp a rp) = "normal"%string /\
     get_lens_type (mk 21.0 od lp a rp) = "concave"%string /\
     get_vision_condition (mk 25.0 od lp a rp) = "normal"%string /\
     get_lens_type (mk 25.0 od lp a rp) = "none"%string /\
     get_vision_condition (mk 29.0 od lp a rp) = "normal"%string /\
     get_lens_type (mk 29.0 od lp a rp) = "convex"%string).
Proof.
  unfold get_vision_condition, get_lens_type, NORMAL_NEAR_POINT.
  split; [| split; [| split]].
  - destruct (_near_point self <? 20.0) eqn:E1.
    + intros _. apply Qltb_true in E1.
      assert (E : (_near_point self <? 25.0 - 2) = true)
        by (apply Qltb_true; lra).
      rewrite E. reflexivity.
    + destruct (30.0 <? _near_point self);
        [destruct (45 <? _age self)%Z |]; discriminate.
  - destruct (_near_point self <? 20.0) eqn:E1; [discriminate |].
    destruct (30.0 <? _near_point self) eqn:E2; [| discriminate].
    destruct (45 <? _age self)%Z eqn:E3; [discriminate |].
    intros _. apply Qltb_true in E2. apply Z.ltb_ge in E3.
    assert (E : (_near_point self <? 25.0 - 2) = false)
      by (apply Qltb_false; lra).
    assert (E' : (25.0 + 2 <? _near_point self) = true)
      by (apply Qltb_true; lra).
    rewrite E, E'. split; [reflexivity | exact E3].
  - destruct (_near_point self <? 20.0) eqn:E1; [discriminate |].
    destruct (30.0 <? _near_point self) eqn:E2; [| discriminate].
    destruct (45 <? _age self)%Z eqn:E3; [| discriminate].
    intros _. apply Qltb_true in E2. apply Z.ltb_lt in E3.
    assert (E : (_near_point self <? 25.0 - 2) = false)
      by (apply Qltb_false; lra).
    assert (E' : (25.0 + 2 <? _near_point self) = true)
      by (apply Qltb_true; lra).
    rewrite E, E'. split; [reflexivity | exact E3].
  - intros od lp a rp. repeat split; reflexivity.
Qed.

(** X15.  What the age setter does to the diagnosis.  When it stores an age
    above 40, the near point it writes makes the eye 'normal' up to age 50 and
    'presbyopia' from 51 on (never 'myopia' or 'hyperopia'), and the lens type
    'none' up to age 44 and 'convex' from 45 on. *)
Theorem age_setter_diagnosis (value : Z) (self self' : t) :
  set_age value self = Ok self' -> (40 < _age self')%Z ->
  ((_age self' <= 50)%Z -> get_vision_condition self' = "normal"%string) /\
  ((50 < _age self')%Z -> get_vision_condition self' = "presbyopia"%string) /\
  ((_age self' <= 44)%Z -> get_lens_type self' = "none"%string) /\
  ((44 < _age self')%Z -> get_lens_type self' = "convex"%string).
Proof.
  intros E Ha.
  destruct (set_age_cases value self) as [Hgt Hle].
  set (a := pymaxZ 5 (pyminZ 100 value)) in *.
  assert (Hage : _age self' = a).
  { destruct (Z_lt_le_dec 40 a) as [H | H].
    - destruct (Hgt H) as (s & Es & Hs & _). congruence.
    - rewrite (Hle H) in E. injection E as <-. reflexivity. }
  rewrite Hage in Ha |- *.
  destruct (Hgt Ha) as (s & Es & _ & Hnp & _).
  assert (s = self') by congruence. subst s.
  set (x := inject_Z (a - 40)) in *.
  assert (Enp : _near_point self' == 25 + x * (1 # 2))
    by (rewrite Hnp; field).
  assert (Hx0 : 0 < x) by (unfold x; rewrite <- (Zlt_Qlt 0); lia).
  unfold get_vision_condition, get_lens_type, NORMAL_NEAR_POINT.
  assert (E20 : (_near_point self' <? 20.0) = false)
    by (apply Qltb_false; lra).
  assert (E23 : (_near_point self' <? 25.0 - 2) = false)
    by (apply Qltb_false; lra).
  rewrite E20, E23.
  split; [| split; [| split]]; intros H.
  - assert (Hx : x <= 10) by (unfold x; rewrite <- (Zle_Qle _ 10); lia).
    assert (E30 : (30.0 <? _near_point self') = false)
      by (apply Qltb_false; lra).
    rewrite E30. reflexivity.
  - assert (Hx : 10 < x) by (unfold x; rewrite <- (Zlt_Qlt 10); lia).
    assert (E30 : (30.0 <? _near_point self') = true)
      by (apply Qltb_true; lra).
    assert (E45 : (45 <? _age self')%Z = true)
      by (apply Z.ltb_lt; rewrite Hage; lia).
    rewrite E30, E45. reflexivity.
  - assert (Hx : x <= 4) by (unfold x; rewrite <- (Zle_Qle _ 4); lia).
    assert (E27 : (25.0 + 2 <? _near_point self') = false)
      by (apply Qltb_false; lra).
    rewrite E27. reflexivity.
  - assert (Hx : 4 < x) by (unfold x; rewrite <- (Zlt_Qlt 4); lia).
    assert (E27 : (25.0 + 2 <? _near_point self') = true)
      by (apply Qltb_true; lra).
    rewrite E27. reflexivity.
Qed.

Lemma age_setter_diagnosis_witness :
  let self' := mk (25.0 + inject_Z (60 - 40) / 60.0 * 30.0) 25.0 0.0 60
                  (1.0 / (- (25.0 + inject_Z (60 - 40) / 60.0 * 30.0) / 100.0)
                   - 1.0 / (- 25.0 / 100.0)) in
  ((_age self' <= 50)%Z -> get_vision_condition self' = "normal"%string) /\
  ((50 < _age self')%Z -> get_vision_condition self' = "presbyopia"%string) /\
  ((_age self' <= 44)%Z -> get_lens_type self' = "none"%string) /\
  ((44 < _age self')%Z -> get_lens_type self' = "convex"%string).
Proof.
  apply (age_setter_diagnosis 60 (mk 25.0 25.0 0.0 25 0.0)).
  - reflexivity.
  - reflexivity.
Defined.

(** X16.  Writing back what the getters return changes nothing: on an object
    a program can hold, the near-point, object-distance and lens-power setters
    called with the stored value return the very same object. *)
Theorem vision_setters_fix_stored_values (self : t) :
  reachable self ->
  set_near_point (_near_point self) self = Ok self /\
  set_object_distance (_object_distance self) self = Ok self /\
  set_lens_power (_lens_power self) self = Ok self.
Proof.
  intros Hreach.
  destruct (vision_reachable_clamped self Hreach) as (Hn & Ho & Hl & _).
  destruct (vision_reachable_invariant self Hreach) as [_ Hup].
  assert (En : _clamp_near_point (_near_point self) = _near_point self)
    by (apply clamp_fixes_clamped; [reflexivity | exact Hn]).
  assert (Eo : _clamp_distance (_object_distance self) = _object_distance self)
    by (apply clamp_fixes_clamped; [reflexivity | exact Ho]).
  assert (El : pymax MIN_POWER (pymin MAX_POWER (_lens_power self))
               = _lens_power self)
    by (apply clamp_fixes_clamped; [reflexivity | exact Hl]).
  unfold set_near_point, set_object_distance, set_lens_power.
  rewrite En, Eo, El. destruct self as [np od lp a rp].
  cbn [_near_point _object_distance _lens_power _age _required_power].
  split; [exact Hup |]. split; reflexivity.
Qed.

Lemma vision_setters_fix_stored_values_witness :
  let self := mk 25.0 25.0 0.0 25 0.0 in
  set_near_point (_near_point self) self = Ok self /\
  set_object_distance (_object_distance self) self = Ok self /\
  set_lens_power (_lens_power self) self = Ok self.
Proof.
  apply (vision_setters_fix_stored_values (mk 25.0 25.0 0.0 25 0.0)).
  exact VisionSpec.vision_default_reachable.
Defined.

(** X17.  The age setter is not a plain store.  Called with the stored age on
    an object a program can hold, it changes nothing when that age is at most
    40; when the age is above 40 it puts the near point back to
    [25 + (age - 40)/2], so it returns the same object only if the near point
    already had that value.  Both presets older than 40 store another near
    point than the age formula gives for their age. *)
Theorem age_setter_reapplied (self : t) :
  reachable self ->
  ((_age self <= 40)%Z -> set_age (_age self) self = Ok self) /\
  ((40 < _age self)%Z ->
   exists self',
     set_age (_age self) self = Ok self' /\
     _age self' = _age self /\
     _near_point self' == 25 + inject_Z (_age self - 40) * (1 # 2) /\
     (self' = self <->
      _near_point self = 25.0 + inject_Z (_age self - 40) / 60.0 * 30.0)) /\
  (forall preset_name p,
     PRESETS !! preset_name = Some p -> (40 < age p)%Z ->
     ~ near_point p == 25 + inject_Z (age p - 40) * (1 # 2)).
Proof.
  intros Hreach.
  destruct (vision_reachable_clamped self Hreach) as (_ & _ & _ & Hage).
  destruct (vision_reachable_invariant self Hreach) as [_ Hup].
  assert (Ea : pymaxZ 5 (pyminZ 100 (_age self)) = _age self).
  { unfold pymaxZ, pyminZ.
    destruct (Z_lt_le_dec (_age self) 100); destruct (Z_lt_le_dec 5 _); lia. }
  destruct (set_age_cases (_age self) self) as [Hgt Hle]. rewrite Ea in Hgt, Hle.
  split; [| split].
  - intros H. rewrite (Hle H). destruct self; reflexivity.
  - intros H. destruct (Hgt H) as (s & Es & Hs & Hnp & Hod & Hlp & [_ Hinv]).
    exists s. split; [exact Es |]. split; [exact Hs |].
    split; [rewrite Hnp; field |]. split.
    + intros ->. exact Hnp.
    + intros Enp. unfold set_age in Es. rewrite Ea in Es.
      assert (E40 : (40 <? _age self)%Z = true) by (apply Z.ltb_lt; exact H).
      rewrite E40 in Es. rewrite pdiv_Ok in Es by lra. cbn [bind] in Es.
      rewrite <- Enp in Es.
      assert (Eself : mk (_near_point self) (_object_distance self)
                         (_lens_power self) (_age self) (_required_power self)
                      = self) by (destruct self; reflexivity).
      rewrite Eself in Es. congruence.
  - intros preset_name p Ep Hp. apply PRESETS_entries in Ep.
    destruct Ep as [-> | [-> | [-> | [-> | ->]]]]; cbn [age near_point] in *;
      try lia; discriminate.
Qed.

Lemma age_setter_reapplied_witness :
  let self := mk 50.0 25.0 0.0 60
                 (1.0 / (- 50.0 / 100.0) - 1.0 / (- 25.0 / 100.0)) in
  ((_age self <= 40)%Z -> set_age (_age self) self = Ok self) /\
  ((40 < _age self)%Z ->
   exists self',
     set_age (_age self) self = Ok self' /\
     _age self' = _age self /\
     _near_point self' == 25 + inject_Z (_age self - 40) * (1 # 2) /\
     (self' = self <->
      _near_point self = 25.0 + inject_Z (_age self - 40) / 60.0 * 30.0)) /\
  (forall preset_name p,
     PRESETS !! preset_name = Some p -> (40 < age p)%Z ->
     ~ near_point p == 25 + inject_Z (age p - 40) * (1 # 2)).
Proof.
  apply (age_setter_reapplied
           (mk 50.0 25.0 0.0 60
               (1.0 / (- 50.0 / 100.0) - 1.0 / (- 25.0 / 100.0)))).
  apply (reach_run (SetPreset "presbyopia") (mk 25.0 25.0 0.0 25 0.0)).
  - exact VisionSpec.vision_default_reachable.
  - reflexivity.
Defined.

End VisionMore.

(** * Facts about Python lists *)

Lemma getitem_nat {A : Type} (l : list A) (i : nat) (a : A) :
  nth_error l i = Some a -> getitem l (Z.of_nat i) = Return a.
Proof.
  intros H. unfold getitem.
  assert (E : (Z.of_nat i <? 0)%Z = false) by (apply Z.ltb_ge; lia).
  rewrite E, E. rewrite Nat2Z.id, H. reflexivity.
Qed.

Lemma getitem_Z {A : Type} (l : list A) (i : Z) (a : A) :
  (0 <= i)%Z -> nth_error l (Z.to_nat i) = Some a -> getitem l i = Return a.
Proof.
  intros Hi H. rewrite <- (Z2Nat.id i Hi). apply getitem_nat. exact H.
Qed.

Lemma mapM_Return {A B : Type} (f : A -> outcome B) (g : A -> B) (l : list A) :
  (forall a, In a l -> f a = Return (g a)) -> mapM f l = Return (map g l).
Proof.
  induction l as [| a l IH]; intros H; cbn [mapM map]; [reflexivity |].
  rewrite (H a) by (left; reflexivity). cbn [obind].
  rewrite IH by (intros b Hb; apply H; right; exact Hb). reflexivity.
Qed.

Lemma range_length (n : Z) : length (range n) = Z.to_nat n.
Proof. unfold range. rewrite length_map, length_seq. reflexivity. Qed.

Lemma range_In (n i : Z) : In i (range n) <-> (0 <= i < n)%Z.
Proof.
  unfold range. rewrite in_map_iff. split.
  - intros (k & <- & Hk). apply in_seq in Hk. lia.
  - intros Hi. exists (Z.to_nat i). split; [lia |]. apply in_seq. lia.
Qed.

Lemma range_nth (n : Z) (i : nat) :
  (Z.of_nat i < n)%Z -> nth_error (range n) i = Some (Z.of_nat i).
Proof.
  intros Hi. unfold range. rewrite nth_error_map.
  assert (E : nth_error (seq 0 (Z.to_nat n)) i = Some (0 + i)%nat).
  { rewrite (nth_error_nth' _ 0%nat) by (rewrite length_seq; lia).
    rewrite seq_nth by lia. reflexivity. }
  rewrite E. reflexivity.
Qed.

Lemma mapM_Forall2 {A B : Type} (f : A -> outcome B) (P : A -> B -> Prop)
  (l : list A) :
  (forall a, In a l -> exists b, f a = Return b /\ P a b) ->
  exists bs, mapM f l = Return bs /\ Forall2 P l bs.
Proof.
  induction l as [| a l IH]; intros H.
  - exists []. split; [reflexivity | constructor].
  - destruct (H a (or_introl eq_refl)) as (b & Eb & Pb).
    destruct IH as (bs & Ebs & Pbs);
      [intros x Hx; apply H; right; exact Hx |].
    exists (b :: bs). cbn [mapM]. rewrite Eb. cbn [obind]. rewrite Ebs.
    split; [reflexivity | constructor; assumption].
Qed.

Lemma Forall2_nth_error {A B : Type} (P : A -> B -> Prop)
  (l : list A) (bs : list B) (i : nat) (b : B) :
  Forall2 P l bs -> nth_error bs i = Some b ->
  exists a, nth_error l i = Some a /\ P a b.
Proof.
  intros H. revert i. induction H as [| a b' l bs Hab _ IH]; intros i Hi.
  - destruct i; discriminate.
  - destruct i as [| i]; cbn [nth_error] in *.
    + injection Hi as <-. exists a. split; [reflexivity | exact Hab].
    + apply IH. exact Hi.
Qed.

(** * Binary64 arithmetic on ints

    Bounds on what [binary_round_aux] returns, enough to see that the path
    index of an electron is computed without overflow. *)

Local Open Scope Z_scope.

Lemma digits2_pos_size (p : positive) : digits2_pos p = Pos.size p.
Proof. induction p as [p IH | p IH |]; cbn; rewrite ?IH; reflexivity. Qed.

Lemma Zdigits2_log2 (m : Z) : (0 < m)%Z -> Zdigits2 m = (Z.log2 m + 1)%Z.
Proof.
  destruct m as [| p | p]; try lia. intros _. cbn [Zdigits2].
  rewrite digits2_pos_size. destruct p as [p | p |]; cbn; try lia.
Qed.

Lemma Zdigits2_le (m k : Z) :
  (0 <= m < 2 ^ k)%Z -> (0 <= k)%Z -> (Zdigits2 m <= k)%Z.
Proof.
  intros [H0 Hk] Hk0. destruct (Z.eq_dec m 0) as [-> | Hne]; [exact Hk0 |].
  rewrite Zdigits2_log2 by lia.
  assert (Z.log2 m < k)%Z by (apply Z.log2_lt_pow2; lia). lia.
Qed.

Lemma Zdigits2_nonneg (m : Z) : (0 <= Zdigits2 m)%Z.
Proof. destruct m; cbn; lia. Qed.

Lemma Zdigits2_bound (m : Z) : (0 <= m)%Z -> (m < 2 ^ Zdigits2 m)%Z.
Proof.
  intros H0. destruct (Z.eq_dec m 0) as [-> | Hne]; [reflexivity |].
  rewrite Zdigits2_log2 by lia.
  apply Z.log2_spec. lia.
Qed.

Lemma shr_1_bounds (r : shr_record) :
  (0 <= shr_m r)%Z -> (0 <= shr_m (shr_1 r) <= shr_m r)%Z.
Proof.
  destruct r as [m b c]. cbn [shr_m]. intros H.
  destruct m as [| [p | p |] | p]; cbn; lia.
Qed.

Lemma iter_pos_invariant {A : Type} (f : A -> A) (P : A -> Prop) :
  (forall x, P x -> P (f x)) ->
  forall (n : positive) (x : A), P x -> P (SpecFloat.iter_pos f n x).
Proof.
  intros Hf. induction n as [n IH | n IH |]; intros x Hx; cbn [SpecFloat.iter_pos].
  - apply IH, IH, Hf, Hx.
  - apply IH, IH, Hx.
  - apply Hf, Hx.
Qed.

Lemma shr_bounds (r : shr_record) (e n : Z) :
  (0 <= shr_m r)%Z ->
  (0 <= shr_m (fst (shr r e n)) <= shr_m r)%Z /\
  snd (shr r e n) = Z.max e (e + n).
Proof.
  intros H. unfold shr. destruct n as [| p | p]; cbn [fst snd]; try (split; lia).
  split; [| lia].
  apply (iter_pos_invariant shr_1 (fun x => (0 <= shr_m x <= shr_m r)%Z));
    [| lia].
  intros x Hx. pose proof (shr_1_bounds x ltac:(lia)). lia.
Qed.

Lemma shr_record_of_loc_m (m : Z) (l : location) :
  shr_m (shr_record_of_loc m l) = m.
Proof. destruct l as [| []]; reflexivity. Qed.

Lemma shr_fexp_bounds (m e : Z) (l : location) :
  (0 <= m)%Z ->
  (0 <= shr_m (fst (shr_fexp prec emax m e l)) <= m)%Z /\
  snd (shr_fexp prec emax m e l)
  = Z.max e (fexp prec emax (Zdigits2 m + e)).
Proof.
  intros H. unfold shr_fexp.
  destruct (shr_bounds (shr_record_of_loc m l) e
              (fexp prec emax (Zdigits2 m + e) - e)) as [Hm He].
  - rewrite shr_record_of_loc_m. exact H.
  - rewrite shr_record_of_loc_m in Hm. split; [exact Hm |].
    rewrite He. f_equal. lia.
Qed.

Lemma round_nearest_even_bounds (m : Z) (l : location) :
  (m <= round_nearest_even m l <= m + 1)%Z.
Proof.
  unfold round_nearest_even. destruct l as [| []]; try lia.
  destruct (Z.even m); lia.
Qed.

(** What rounding can return for a mantissa below [2 ^ D] and an exponent of
    at most [E]: zero or a finite number of the same sign, never an infinity
    as long as the bounds leave room. *)
Lemma binary_round_aux_finite (s : bool) (m e : Z) (l : location) (D E : Z) :
  (0 <= m < 2 ^ D)%Z -> (0 <= D)%Z -> (e <= E)%Z ->
  (Z.max E (-1074) + 2 * D + 1 <= 971)%Z ->
  match binary_round_aux prec emax s m e l with
  | S754_zero s' => s' = s
  | S754_finite s' m' e' =>
      s' = s /\ (Z.pos m' < 2 ^ (D + 1))%Z /\
      (e' <= Z.max E (-1074) + 2 * D + 1)%Z
  | _ => False
  end.
Proof.
  intros Hm HD He Hroom. unfold binary_round_aux.
  destruct (shr_fexp prec emax m e l) as [mrs' e'] eqn:E1.
  pose proof (shr_fexp_bounds m e l ltac:(lia)) as [Hm1 He1].
  rewrite E1 in Hm1, He1. cbn [fst snd] in Hm1, He1.
  pose proof (round_nearest_even_bounds (shr_m mrs') (loc_of_shr_record mrs'))
    as Hr.
  set (m1 := round_nearest_even (shr_m mrs') (loc_of_shr_record mrs')) in *.
  destruct (shr_fexp prec emax m1 e' loc_Exact) as [mrs'' e''] eqn:E2.
  pose proof (shr_fexp_bounds m1 e' loc_Exact ltac:(lia)) as [Hm2 He2].
  rewrite E2 in Hm2, He2. cbn [fst snd] in Hm2, He2.
  assert (Hd : (Zdigits2 m <= D)%Z) by (apply Zdigits2_le; lia).
  assert (Hp : (2 ^ (D + 1) = 2 * 2 ^ D)%Z)
    by (rewrite Z.pow_add_r by lia; lia).
  assert (Hd1 : (Zdigits2 m1 <= D + 1)%Z) by (apply Zdigits2_le; lia).
  pose proof (Zdigits2_nonneg m) as Hdn.
  pose proof (Zdigits2_nonneg m1) as Hdn1.
  assert (Hbound : (e'' <= Z.max E (-1074) + 2 * D + 1)%Z).
  { rewrite He2, He1. unfold fexp, emin, prec, emax. lia. }
  destruct (shr_m mrs'') as [| p | p] eqn:Em; [reflexivity | | lia].
  assert (Hle : (e'' <=? emax - prec)%Z = true)
    by (apply Z.leb_le; unfold emax, prec; lia).
  rewrite Hle. split; [reflexivity |]. split; [lia | exact Hbound].
Qed.

Lemma shl_align_bounds (p : positive) :
  (Z.pos p < 2 ^ 53)%Z ->
  let '(mz, ez) :=
    shl_align p 0 (fexp prec emax (Z.pos (digits2_pos p) + 0)) in
  (Z.pos mz < 2 ^ 53)%Z /\ (ez <= 0)%Z.
Proof.
  intros Hp. unfold shl_align.
  pose proof (Zdigits2_bound (Z.pos p) ltac:(lia)) as Hd.
  pose proof (Zdigits2_le (Z.pos p) 53 ltac:(lia) ltac:(lia)) as Hd53.
  cbn [Zdigits2] in Hd, Hd53.
  set (d := Z.pos (digits2_pos p)) in *.
  assert (Hd1 : (1 <= d)%Z) by (unfold d; lia).
  assert (Ef : fexp prec emax (d + 0) = (d - 53)%Z)
    by (unfold fexp, emin, prec, emax; lia).
  rewrite Ef.
  destruct (d - 53 - 0)%Z as [| k | k] eqn:Ek; [split; lia | split; lia |].
  split; [| lia].
  change (Pos.iter xO p k) with (shift_pos k p).
  rewrite shift_pos_correct. change (Z.pow_pos 2 k) with (2 ^ Z.pos k)%Z.
  assert (E53 : (53 = Z.pos k + d)%Z) by lia.
  rewrite E53, Z.pow_add_r by lia.
  apply Z.mul_lt_mono_pos_l; [apply Z.pow_pos_nonneg; lia | exact Hd].
Qed.

(** [float(n)] for an int the binary64 format holds exactly. *)
Lemma float_of_int_finite (n : Z) :
  (0 <= n < 2 ^ 53)%Z ->
  float_of_int n = Return (S754_zero false) \/
  exists m e,
    float_of_int n = Return (S754_finite false m e) /\
    (Z.pos m < 2 ^ 54)%Z /\ (e <= 107)%Z.
Proof.
  intros [H0 Hn]. unfold float_of_int, binary_normalize.
  destruct n as [| p | p]; [left; reflexivity | | lia].
  unfold binary_round.
  pose proof (shl_align_bounds p Hn) as Hal.
  destruct (shl_align p 0 _) as [mz ez]. destruct Hal as [Hmz Hez].
  pose proof (binary_round_aux_finite false (Z.pos mz) ez loc_Exact 53 0
                ltac:(lia) ltac:(lia) Hez ltac:(lia)) as Hr.
  destruct (binary_round_aux prec emax false (Z.pos mz) ez loc_Exact)
    as [s | s | | s m e]; try contradiction.
  - left. rewrite Hr. reflexivity.
  - right. destruct Hr as (-> & Hm & He). exists m, e.
    split; [reflexivity |]. split; [exact Hm | lia].
Qed.

Lemma shr_zero (e n : Z) :
  fst (shr (Build_shr_record 0 false false) e n)
  = Build_shr_record 0 false false.
Proof.
  unfold shr. destruct n as [| p | p]; try reflexivity. cbn [fst].
  apply (iter_pos_invariant shr_1
           (fun r => r = Build_shr_record 0 false false)); [| reflexivity].
  intros x ->. reflexivity.
Qed.

Lemma binary_round_aux_zero (s : bool) (e : Z) :
  binary_round_aux prec emax s 0 e loc_Exact = S754_zero s.
Proof.
  unfold binary_round_aux, shr_fexp. cbn [shr_record_of_loc].
  destruct (shr _ e _) as [mrs' e'] eqn:E1.
  pose proof (shr_zero e (fexp prec emax (Zdigits2 0 + e) - e)) as H1.
  rewrite E1 in H1. cbn [fst] in H1. subst mrs'.
  cbn [shr_m loc_of_shr_record round_nearest_even shr_record_of_loc].
  destruct (shr _ e' _) as [mrs'' e''] eqn:E2.
  pose proof (shr_zero e' (fexp prec emax (Zdigits2 0 + e') - e')) as H2.
  rewrite E2 in H2. cbn [fst] in H2. subst mrs''. reflexivity.
Qed.

(** [0 / b] is a zero with the sign of [b]. *)
Lemma int_truediv_zero (b : Z) :
  b <> 0%Z -> int_truediv 0 b = Return (S754_zero (b <? 0)%Z).
Proof.
  intros Hb. unfold int_truediv.
  assert (E : (b =? 0)%Z = false) by (apply Z.eqb_neq; exact Hb).
  rewrite E. unfold SFdiv_core_binary.
  set (e' := Z.min _ _). set (sh := (0 - 0 - e')%Z).
  assert (Em : match sh with
               | 0 => Z.abs 0
               | Z.pos _ => Z.shiftl (Z.abs 0) sh
               | Z.neg _ => 0
               end = 0)
    by (destruct sh; [reflexivity | apply Z.shiftl_0_l | reflexivity]).
  rewrite Em.
  change (IntDef.Z.div_eucl 0 (Z.abs b)) with (0, 0). cbv beta iota zeta.
  assert (El : new_location (Z.abs b) 0 = loc_Exact).
  { unfold new_location, new_location_even, new_location_odd.
    destruct (Z.even (Z.abs b)); reflexivity. }
  rewrite El, binary_round_aux_zero. reflexivity.
Qed.

(** [a / b] for two ints the binary64 format holds exactly. *)
Lemma int_truediv_finite (a b : Z) :
  (0 <= a < 2 ^ 53)%Z -> (0 < b < 2 ^ 53)%Z ->
  int_truediv a b = Return (S754_zero false) \/
  exists m e,
    int_truediv a b = Return (S754_finite false m e) /\
    (Z.pos m < 2 ^ 107)%Z /\ (e <= 213)%Z.
Proof.
  intros Ha Hb. unfold int_truediv.
  assert (E : (b =? 0)%Z = false) by (apply Z.eqb_neq; lia).
  assert (Ea : (a <? 0)%Z = false) by (apply Z.ltb_ge; lia).
  assert (Eb : (b <? 0)%Z = false) by (apply Z.ltb_ge; lia).
  rewrite E, Ea, Eb. cbn [xorb]. rewrite !Z.abs_eq by lia.
  unfold SFdiv_core_binary.
  pose proof (Zdigits2_bound a ltac:(lia)) as Hda.
  pose proof (Zdigits2_le a 53 ltac:(lia) ltac:(lia)) as Hda53.
  pose proof (Zdigits2_le b 53 ltac:(lia) ltac:(lia)) as Hdb53.
  pose proof (Zdigits2_nonneg a) as Hda0.
  pose proof (Zdigits2_nonneg b) as Hdb0.
  set (d1 := Zdigits2 a) in *. set (d2 := Zdigits2 b) in *.
  set (e' := Z.min (fexp prec emax (d1 + 0 - (d2 + 0))) (0 - 0)).
  assert (He' : (e' <= 0)%Z) by (unfold e'; lia).
  assert (Hsh : (0 <= 0 - 0 - e' <= 106 - d1)%Z)
    by (unfold e', fexp, emin, prec, emax; lia).
  set (sh := (0 - 0 - e')%Z) in *.
  set (m' := match sh with
             | 0%Z => a
             | Z.pos _ => Z.shiftl a sh
             | Z.neg _ => 0%Z
             end).
  assert (Hm' : (0 <= m' < 2 ^ 106)%Z).
  { assert (Em : m' = (a * 2 ^ sh)%Z).
    { unfold m'. destruct sh as [| k | k] eqn:Ek; [lia | | lia].
      apply Z.shiftl_mul_pow2. lia. }
    rewrite Em. split; [apply Z.mul_nonneg_nonneg; [lia |];
                        apply Z.pow_nonneg; lia |].
    assert (Hpow : (2 ^ (d1 + sh) <= 2 ^ 106)%Z)
      by (apply Z.pow_le_mono_r; lia).
    rewrite Z.pow_add_r in Hpow by lia.
    assert (H2 : (0 < 2 ^ sh)%Z) by (apply Z.pow_pos_nonneg; lia).
    nia. }
  pose proof (Z_div_mod m' b ltac:(lia)) as Hdiv.
  destruct (Z.div_eucl m' b) as [q r]. destruct Hdiv as [Hq Hr].
  assert (Hqb : (0 <= q < 2 ^ 106)%Z) by nia.
  pose proof (binary_round_aux_finite false q e' (new_location b r) 106 0
                Hqb ltac:(lia) He' ltac:(lia)) as Hres.
  destruct (binary_round_aux prec emax false q e' (new_location b r))
    as [s | s | | s m e]; try contradiction.
  - left. rewrite Hres. reflexivity.
  - right. destruct Hres as (-> & Hm & He). exists m, e.
    split; [reflexivity |]. split; [exact Hm | lia].
Qed.

(** The product of two such floats is zero or finite, and not negative. *)
Lemma SFmul_finite (x y : spec_float) :
  (x = S754_zero false \/
   exists m e, x = S754_finite false m e /\
               (Z.pos m < 2 ^ 107)%Z /\ (e <= 213)%Z) ->
  (y = S754_zero false \/
   exists m e, y = S754_finite false m e /\
               (Z.pos m < 2 ^ 54)%Z /\ (e <= 107)%Z) ->
  SFmul prec emax x y = S754_zero false \/
  exists m e, SFmul prec emax x y = S754_finite false m e.
Proof.
  intros [-> | (mx & ex & -> & Hmx & Hex)] [-> | (my & ey & -> & Hmy & Hey)];
    try (left; reflexivity).
  cbn [SFmul xorb].
  assert (Hprod : (0 <= Z.pos (mx * my) < 2 ^ 161)%Z).
  { split; [lia |]. rewrite Pos2Z.inj_mul.
    change (2 ^ 161)%Z with (2 ^ 107 * 2 ^ 54)%Z.
    apply Z.mul_lt_mono_nonneg; lia. }
  pose proof (binary_round_aux_finite false (Z.pos (mx * my)) (ex + ey)
                loc_Exact 161 320 Hprod ltac:(lia) ltac:(lia) ltac:(lia))
    as Hres.
  destruct (binary_round_aux prec emax false (Z.pos (mx * my)) (ex + ey)
              loc_Exact) as [s | s | | s m e]; try contradiction.
  - left. rewrite Hres. reflexivity.
  - right. destruct Hres as (-> & _). exists m, e. reflexivity.
Qed.

Local Close Scope Z_scope.

(** * circuit.py *)

Module CircuitFacts.
Import Circuit.

Lemma create_box_rows (width height depth : Q) :
  let w := width / 2 in
  let h := height / 2 in
  let d := depth / 2 in
  let white : Color := (1, 1, 1, 1) in
  let row (v n : Point3) := (v, n, white) in
  let v0 : Point3 := (- w, - h, - d) in
  let v1 : Point3 := (w, - h, - d) in
  let v2 : Point3 := (w, h, - d) in
  let v3 : Point3 := (- w, h, - d) in
  let v4 : Point3 := (- w, - h, d) in
  let v5 : Point3 := (w, - h, d) in
  let v6 : Point3 := (w, h, d) in
  let v7 : Point3 := (- w, h, d) in
  create_box width height depth =
  Return
    ([ row v0 (0, 0, -1); row v1 (0, 0, -1); row v2 (0, 0, -1);
       row v0 (0, 0, -1); row v2 (0, 0, -1); row v3 (0, 0, -1);
       row v4 (0, 0, 1); row v6 (0, 0, 1); row v5 (0, 0, 1);
       row v4 (0, 0, 1); row v7 (0, 0, 1); row v6 (0, 0, 1);
       row v1 (1, 0, 0); row v5 (1, 0, 0); row v6 (1, 0, 0);
       row v1 (1, 0, 0); row v6 (1, 0, 0); row v2 (1, 0, 0);
       row v0 (-1, 0, 0); row v3 (-1, 0, 0); row v7 (-1, 0, 0);
       row v0 (-1, 0, 0); row v7 (-1, 0, 0); row v4 (-1, 0, 0);
       row v3 (0, 1, 0); row v2 (0, 1, 0); row v6 (0, 1, 0);
       row v3 (0, 1, 0); row v6 (0, 1, 0); row v7 (0, 1, 0);
       row v0 (0, -1, 0); row v4 (0, -1, 0); row v5 (0, -1, 0);
       row v0 (0, -1, 0); row v5 (0, -1, 0); row v1 (0, -1, 0) ],
     range 36).
Proof.
  cbv zeta. unfold create_box. rewrite !pdiv_Ok by lra. cbn [lift obind].
  generalize (width / 2) (height / 2) (depth / 2). intros a b c.
  reflexivity.
Qed.

Lemma half_positive (x : Q) : 0 < x -> 0 < x / 2.
Proof.
  intros H. assert (E : x / 2 == x * (1 # 2)) by field. rewrite E. lra.
Qed.

(** X18.  [create_box] never raises and writes 36 rows, one per index of the
    triangle primitive.  Every row is white, carries a unit normal along one
    axis, and its vertex lies on the face of the box that normal points out
    of.  With positive dimensions each of the 12 triangles has one normal for
    its three rows and is wound clockwise when seen from outside: the cross
    product of its edges points against the normal. *)
Theorem create_box_faces (width height depth : Q) :
  exists rows,
    create_box width height depth = Return (rows, range 36) /\
    length rows = 36%nat /\
    (forall v n c,
       In (v, n, c) rows ->
       c = (1, 1, 1, 1) /\
       dot n n == 1 /\
       let '(nx, ny, nz) := n in
       dot v n == width / 2 * (nx * nx) + height / 2 * (ny * ny)
                  + depth / 2 * (nz * nz)) /\
    (0 < width -> 0 < height -> 0 < depth ->
     forall k a na ca b nb cb c nc cc,
       nth_error rows (3 * k) = Some (a, na, ca) ->
       nth_error rows (3 * k + 1) = Some (b, nb, cb) ->
       nth_error rows (3 * k + 2) = Some (c, nc, cc) ->
       nb = na /\ nc = na /\ dot (cross (vsub b a) (vsub c a)) na < 0).
Proof.
  pose proof (create_box_rows width height depth) as E. cbv zeta in E.
  pose proof (half_positive width) as Hw.
  pose proof (half_positive height) as Hh.
  pose proof (half_positive depth) as Hd.
  revert E Hw Hh Hd.
  generalize (width / 2) (height / 2) (depth / 2). intros w h d E Hw Hh Hd.
  eexists. split; [exact E |]. split; [reflexivity |]. split.
  - intros v n c Hin. cbn [In] in Hin.
    repeat (destruct Hin as [Hin | Hin];
            [injection Hin as <- <- <-;
             split; [reflexivity |]; split; [reflexivity |];
             cbn [dot]; ring |]).
    destruct Hin.
  - intros Pw Ph Pd k a na ca b nb cb c nc cc Ha Hb Hc.
    specialize (Hw Pw). specialize (Hh Ph). specialize (Hd Pd).
    assert (Hk : (3 * k < 36)%nat).
    { match type of Ha with
      | nth_error ?l _ = _ =>
          assert (Hsome : nth_error l (3 * k) <> None)
            by (rewrite Ha; discriminate)
      end.
      apply nth_error_Some in Hsome. exact Hsome. }
    do 12 (destruct k as [| k];
           [cbn in Ha, Hb, Hc;
            injection Ha as <- <- <-; injection Hb as <- <- <-;
            injection Hc as <- <- <-;
            split; [reflexivity |]; split; [reflexivity |];
            cbn [vsub cross dot]; nra |]).
    lia.
Qed.

Lemma nth_error_nth_Z {A : Type} (l : list A) (k : Z) (d : A) :
  (0 <= k < len l)%Z -> nth_error l (Z.to_nat k) = Some (nth (Z.to_nat k) l d).
Proof. intros Hk. apply nth_error_nth'. unfold len in Hk. lia. Qed.

(** [int((i / n) * L)] returns a non-negative int when the three ints are
    ones the binary64 format holds exactly. *)
Lemma share_index_Return (i n L : Z) :
  (0 <= i < 2 ^ 53)%Z -> (0 < n < 2 ^ 53)%Z -> (0 <= L < 2 ^ 53)%Z ->
  exists k, share_index i n L = Return k /\ (0 <= k)%Z.
Proof.
  intros Hi Hn HL. unfold share_index, float_mul_int.
  pose proof (int_truediv_finite i n Hi Hn) as Hx.
  pose proof (float_of_int_finite L HL) as Hy.
  assert (Hx' : exists x, int_truediv i n = Return x /\
                  (x = S754_zero false \/
                   exists m e, x = S754_finite false m e /\
                               (Z.pos m < 2 ^ 107)%Z /\ (e <= 213)%Z)).
  { destruct Hx as [E | (m & e & E & H)]; eexists; (split; [exact E |]);
      [left; reflexivity | right; exists m, e; split; [reflexivity | exact H]]. }
  assert (Hy' : exists y, float_of_int L = Return y /\
                  (y = S754_zero false \/
                   exists m e, y = S754_finite false m e /\
                               (Z.pos m < 2 ^ 54)%Z /\ (e <= 107)%Z)).
  { destruct Hy as [E | (m & e & E & H)]; eexists; (split; [exact E |]);
      [left; reflexivity | right; exists m, e; split; [reflexivity | exact H]]. }
  destruct Hx' as (x & -> & Hxc). destruct Hy' as (y & -> & Hyc).
  cbn [obind].
  destruct (SFmul_finite x y Hxc Hyc) as [-> | (m & e & ->)]; cbn [int_of_float].
  - exists 0%Z. split; [reflexivity | lia].
  - eexists. split; [reflexivity |]. cbn [cond_Zopp].
    apply Z.shiftl_nonneg. lia.
Qed.

(** [int((0 / n) * L)] is 0. *)
Lemma share_index_first (n L : Z) :
  n <> 0%Z -> (0 <= L < 2 ^ 53)%Z -> share_index 0 n L = Return 0%Z.
Proof.
  intros Hn HL. unfold share_index, float_mul_int.
  rewrite (int_truediv_zero n Hn). cbn [obind].
  destruct (float_of_int_finite L HL) as [-> | (m & e & -> & _)];
    reflexivity.
Qed.

Lemma pymod_range (a b : Z) :
  (0 < b)%Z -> exists k, pymod a b = Return k /\ (0 <= k < b)%Z /\
                         k = (a mod b)%Z.
Proof.
  intros Hb. unfold pymod.
  assert (E : (b =? 0)%Z = false) by (apply Z.eqb_neq; lia).
  rewrite E. eexists. split; [reflexivity |].
  split; [apply Z.mod_pos_bound; exact Hb | reflexivity].
Qed.

(** One iteration of the loop of [_create_electrons]. *)
Lemma create_electron_Return (i num_electrons : Z) (path : list Point3) :
  (0 <= i < num_electrons)%Z -> (num_electrons < 2 ^ 53)%Z ->
  (0 < len path < 2 ^ 53)%Z ->
  exists k p,
    share_index i num_electrons (len path) = Return k /\ (0 <= k)%Z /\
    nth_error path (Z.to_nat (k mod len path)) = Some p /\
    (let? path_index := share_index i num_electrons (len path) in
     let? k := pymod path_index (len path) in
     let? position := getitem path k in
     Return (new_electron position)) = Return (new_electron p).
Proof.
  intros Hi Hn HL.
  destruct (share_index_Return i num_electrons (len path))
    as (k & Ek & Hk); [lia | lia | lia |].
  destruct (pymod_range k (len path)) as (j & Ej & Hj & Ejk); [lia |].
  assert (Hp : nth_error path (Z.to_nat j)
               = Some (nth (Z.to_nat j) path (0, 0, 0)))
    by (apply nth_error_nth_Z; exact Hj).
  exists k, (nth (Z.to_nat j) path (0, 0, 0)).
  split; [exact Ek |]. split; [exact Hk |].
  split; [rewrite <- Ejk; exact Hp |].
  rewrite Ek. cbn [obind]. rewrite Ej. cbn [obind].
  rewrite (getitem_Z _ j _ ltac:(lia) Hp). reflexivity.
Qed.

(** X19.  [_create_electrons(n)] with [n > 0] on a circuit whose path is not
    empty, both numbers being ints a float holds exactly (below 2^53), never
    raises and appends exactly [n] electrons, all new (yellow, not animated).
    Electron [i] sits on the path point of index [k % len(path)], where
    [k = int((i / n) * len(path))] is computed on binary64 numbers and is not
    negative; electron 0 sits on the first point.  The constructor's own call
    (15 electrons on the 17 points of the path) uses 15 different indices.
    That is not so for every call, even when the path has a point for each
    electron: with 22 electrons on 22 points, electrons 14 and 15 both get
    index 14, because [(15 / 22) * 22] is rounded below 15. *)
Theorem create_electrons_spread (num_electrons : Z) (self : t) :
  (0 < num_electrons < 2 ^ 53)%Z ->
  electron_path self <> [] -> (len (electron_path self) < 2 ^ 53)%Z ->
  (exists created,
     _create_electrons num_electrons self =
     Return (mk (indicator_color self) (body_color self) (electron_path self)
                (electrons self ++ created)) /\
     len created = num_electrons /\
     (forall i,
        (0 <= i < num_electrons)%Z ->
        exists k p,
          share_index i num_electrons (len (electron_path self)) = Return k /\
          (0 <= k)%Z /\
          nth_error (electron_path self)
                    (Z.to_nat (k mod len (electron_path self))) = Some p /\
          nth_error created (Z.to_nat i) = Some (new_electron p)) /\
     nth_error created 0
     = option_map new_electron (nth_error (electron_path self) 0)) /\
  mapM (fun i => share_index i 15 (len the_electron_path)) (range 15)
  = Return [0; 1; 2; 3; 4; 5; 6; 7; 9; 10; 11; 12; 13; 14; 15]%Z /\
  share_index 14 22 22 = Return 14%Z /\
  share_index 15 22 22 = Return 14%Z.
Proof.
  intros Hn Hpath Hsize.
  assert (HL : (0 < len (electron_path self))%Z).
  { unfold len. destruct (electron_path self); [contradiction | cbn; lia]. }
  split; [| split; [| split]]; [| vm_compute; reflexivity ..].
  unfold _create_electrons.
  destruct (mapM_Forall2
              (fun i =>
                 let? path_index :=
                   share_index i num_electrons (len (electron_path self)) in
                 let? k := pymod path_index (len (electron_path self)) in
                 let? position := getitem (electron_path self) k in
                 Return (new_electron position))
              (fun i e =>
                 exists k p,
                   share_index i num_electrons (len (electron_path self))
                   = Return k /\ (0 <= k)%Z /\
                   nth_error (electron_path self)
                             (Z.to_nat (k mod len (electron_path self)))
                   = Some p /\
                   e = new_electron p)
              (range num_electrons)) as (created & Ecreated & Hall).
  { intros i Hi. apply range_In in Hi.
    destruct (create_electron_Return i num_electrons (electron_path self))
      as (k & p & Ek & Hk & Hp & E); [lia | lia | lia |].
    exists (new_electron p). split; [exact E |].
    exists k, p. repeat split; assumption. }
  rewrite Ecreated. cbn [obind]. exists created.
  assert (Hlen : length created = Z.to_nat num_electrons).
  { rewrite <- (Forall2_length _ _ _ Hall). apply range_length. }
  split; [reflexivity |]. split; [unfold len; lia |]. split.
  - intros i Hi.
    assert (Hnth : nth_error (range num_electrons) (Z.to_nat i) = Some i).
    { rewrite range_nth by lia. rewrite Z2Nat.id by lia. reflexivity. }
    destruct (nth_error created (Z.to_nat i)) as [e |] eqn:Ee.
    2: { apply nth_error_None in Ee. lia. }
    destruct (Forall2_nth_error _ _ _ _ _ Hall Ee) as (i' & Hi' & HP).
    rewrite Hnth in Hi'. injection Hi' as <-.
    destruct HP as (k & p & Ek & Hk & Hp & ->).
    exists k, p. repeat split; assumption.
  - assert (Hnth : nth_error (range num_electrons) 0 = Some 0%Z).
    { rewrite range_nth by lia. reflexivity. }
    destruct (nth_error created 0) as [e |] eqn:Ee.
    2: { apply nth_error_None in Ee. lia. }
    destruct (Forall2_nth_error _ _ _ _ _ Hall Ee) as (i' & Hi' & HP).
    rewrite Hnth in Hi'. injection Hi' as <-.
    destruct HP as (k & p & Ek & Hk & Hp & ->).
    rewrite share_index_first in Ek by lia. injection Ek as <-.
    rewrite Z.mod_0_l in Hp by lia. change (Z.to_nat 0) with 0%nat in Hp.
    rewrite Hp. reflexivity.
Qed.

Lemma create_electrons_spread_witness :
  let self := mk (1.0, 1.0, 0.3, 1.0) (0.2, 0.4, 0.8, 1.0)
                 the_electron_path [] in
  let num_electrons := 15%Z in
  (exists created,
     _create_electrons num_electrons self =
     Return (mk (indicator_color self) (body_color self) (electron_path self)
                (electrons self ++ created)) /\
     len created = num_electrons /\
     (forall i,
        (0 <= i < num_electrons)%Z ->
        exists k p,
          share_index i num_electrons (len (electron_path self)) = Return k /\
          (0 <= k)%Z /\
          nth_error (electron_path self)
                    (Z.to_nat (k mod len (electron_path self))) = Some p /\
          nth_error created (Z.to_nat i) = Some (new_electron p)) /\
     nth_error created 0
     = option_map new_electron (nth_error (electron_path self) 0)) /\
  mapM (fun i => share_index i 15 (len the_electron_path)) (range 15)
  = Return [0; 1; 2; 3; 4; 5; 6; 7; 9; 10; 11; 12; 13; 14; 15]%Z /\
  share_index 14 22 22 = Return 14%Z /\
  share_index 15 22 22 = Return 14%Z.
Proof.
  apply (create_electrons_spread 15
           (mk (1.0, 1.0, 0.3, 1.0) (0.2, 0.4, 0.8, 1.0)
               the_electron_path [])).
  - split; reflexivity.
  - discriminate.
  - reflexivity.
Defined.

(** X20.  The edges of [_create_electrons]: with [n <= 0] the loop does not
    run and the circuit is returned as it was; with [n > 0] on an empty path
    the first iteration raises [ZeroDivisionError], from [% path_length]. *)
Theorem create_electrons_edge_cases (num_electrons : Z) (self : t) :
  ((num_electrons <= 0)%Z ->
   _create_electrons num_electrons self = Return self) /\
  ((0 < num_electrons)%Z -> electron_path self = [] ->
   _create_electrons num_electrons self = Throw DivisionByZero).
Proof.
  split.
  - intros Hn. unfold _create_electrons, range.
    replace (Z.to_nat num_electrons) with 0%nat by lia.
    cbn [seq map mapM obind]. rewrite app_nil_r. destruct self; reflexivity.
  - intros Hn Hpath. unfold _create_electrons, range. rewrite Hpath.
    destruct (Z.to_nat num_electrons) as [| m] eqn:Em; [lia |].
    cbn [seq map mapM].
    change (len (@nil Point3)) with 0%Z.
    rewrite share_index_first; [reflexivity | lia | split; [lia | reflexivity]].
Qed.

Lemma mapM_legs (full : list Point3) (dur : Q) (l l0 : list Point3) :
  full = l0 ++ l ->
  mapM (fun i =>
          let? next := getitem full (i + 1) in
          let? start := getitem full i in
          Return (mk_interval dur next start))
       (map Z.of_nat (seq (length l0) (length l - 1)))
  = Return (legs dur l).
Proof.
  revert l0. induction l as [| a l IH]; intros l0 Hfull; [reflexivity |].
  destruct l as [| b l]; [reflexivity |].
  replace (length (a :: b :: l) - 1)%nat with (S (length l))
    by (cbn [length]; lia).
  cbn [seq map mapM].
  assert (Eb : getitem full (Z.of_nat (length l0) + 1) = Return b).
  { replace (Z.of_nat (length l0) + 1)%Z with (Z.of_nat (S (length l0)))
      by lia.
    apply getitem_nat. rewrite Hfull.
    rewrite nth_error_app2 by lia.
    replace (S (length l0) - length l0)%nat with 1%nat by lia. reflexivity. }
  assert (Ea : getitem full (Z.of_nat (length l0)) = Return a).
  { apply getitem_nat. rewrite Hfull.
    rewrite nth_error_app2 by lia. rewrite Nat.sub_diag. reflexivity. }
  rewrite Eb, Ea. cbn [obind].
  specialize (IH (l0 ++ [a])).
  replace (length (l0 ++ [a])) with (S (length l0)) in IH
    by (rewrite length_app; cbn [length]; lia).
  replace (length (b :: l) - 1)%nat with (length l) in IH
    by (cbn [length]; lia).
  rewrite IH by (rewrite Hfull, <- app_assoc; reflexivity).
  reflexivity.
Qed.

Lemma animate_along_path_legs
  (path_points : list Point3) (speed_factor : Q) (self : Electron) :
  (2 <= len path_points)%Z -> ~ speed_factor == 0 ->
  animate_along_path path_points speed_factor self =
  Return (mk_electron (finish_animation self) (sphere_color self)
                      (Some (legs (0.1 / speed_factor) path_points))).
Proof.
  intros Hlen Hsf. unfold animate_along_path.
  assert (E : (len path_points <? 2)%Z = false) by (apply Z.ltb_ge; exact Hlen).
  rewrite E. rewrite pdiv_Ok by exact Hsf. cbn [lift obind].
  unfold range.
  replace (Z.to_nat (len path_points - 1)) with (length path_points - 1)%nat
    by (unfold len; lia).
  pose proof (mapM_legs path_points (0.1 / speed_factor) path_points []
                eq_refl) as Hlegs.
  change (length (@nil Point3)) with 0%nat in Hlegs.
  rewrite Hlegs. reflexivity.
Qed.

Lemma rotation_length (path : list Point3) (s : Z) :
  len (slice_from path s ++ slice_to path s) = len path.
Proof.
  unfold len, slice_from, slice_to.
  rewrite length_app, length_skipn, length_firstn.
  assert (H : (slice_bound (Z.of_nat (length path)) s <= length path)%nat)
    by (unfold slice_bound; destruct (Z.ltb_spec s 0); lia).
  unfold len. lia.
Qed.

Lemma rotation_Permutation (path : list Point3) (s : Z) :
  Permutation (slice_from path s ++ slice_to path s) path.
Proof.
  unfold slice_from, slice_to.
  rewrite Permutation_app_comm. rewrite firstn_skipn. reflexivity.
Qed.

Lemma legs_length (dur : Q) (path : list Point3) :
  length (legs dur path) = (length path - 1)%nat.
Proof.
  unfold legs. rewrite length_map, length_combine.
  destruct path as [| a l]; cbn [tl length]; lia.
Qed.

Lemma enumerate_from_In {A : Type} (es : list A) (off : nat) (i : Z) (e : A) :
  In (i, e) (combine (map Z.of_nat (seq off (length es))) es) ->
  exists j, i = Z.of_nat (off + j) /\ nth_error es j = Some e.
Proof.
  revert off. induction es as [| a es IH]; intros off H; [destruct H |].
  cbn [length seq map combine In] in H. destruct H as [H | H].
  - injection H as <- <-. exists 0%nat. split; [f_equal; lia | reflexivity].
  - destruct (IH (S off) H) as (j & -> & Hj).
    exists (S j). split; [f_equal; lia | exact Hj].
Qed.

Lemma enumerate_from_nth {A : Type} (es : list A) (off i : nat) (e : A) :
  nth_error es i = Some e ->
  nth_error (combine (map Z.of_nat (seq off (length es))) es) i
  = Some (Z.of_nat (off + i), e).
Proof.
  revert off i. induction es as [| a es IH]; intros off i H.
  - destruct i; discriminate.
  - destruct i as [| i]; cbn [length seq map combine nth_error] in *.
    + injection H as <-. rewrite Nat.add_0_r. reflexivity.
    + rewrite (IH (S off) i H). do 2 f_equal. lia.
Qed.

Lemma enumerate_In {A : Type} (es : list A) (i : Z) (e : A) :
  In (i, e) (enumerate es) ->
  (0 <= i < len es)%Z /\ nth_error es (Z.to_nat i) = Some e.
Proof.
  unfold enumerate, range, len. rewrite Nat2Z.id. intros H.
  apply enumerate_from_In in H. destruct H as (j & -> & Hj).
  assert (Hlt : (j < length es)%nat)
    by (apply nth_error_Some; rewrite Hj; discriminate).
  cbn [Nat.add]. rewrite Nat2Z.id. split; [lia | exact Hj].
Qed.

Lemma enumerate_nth {A : Type} (es : list A) (i : nat) (e : A) :
  nth_error es i = Some e ->
  nth_error (enumerate es) i = Some (Z.of_nat i, e).
Proof.
  intros H. unfold enumerate, range, len. rewrite Nat2Z.id.
  apply (enumerate_from_nth es 0 i e H).
Qed.

Lemma enumerate_length {A : Type} (es : list A) :
  length (enumerate es) = length es.
Proof.
  unfold enumerate, range, len.
  rewrite length_combine, length_map, length_seq, Nat2Z.id. lia.
Qed.

(** One iteration of the loop of [_update_electron_flow]. *)
Lemma update_electron_Return
  (current : Q) (path : list Point3) (n i : Z) (e : Electron) :
  0 <= current -> (2 <= len path < 2 ^ 53)%Z -> (0 <= i < n)%Z ->
  (n < 2 ^ 53)%Z ->
  exists k,
    share_index i n (len path) = Return k /\ (0 <= k)%Z /\
    (let electron := update_color (pymin (current / 50.0) 1.0) e in
     let? start_index := share_index i n (len path) in
     let rotated_path :=
       slice_from path start_index ++ slice_to path start_index in
     animate_along_path rotated_path (0.5 + current * 0.3) electron)
    = Return (mk_electron
                (finish_animation e)
                (0.3 + 0.7 * pymin (current / 50.0) 1.0,
                 0.3 + 0.7 * pymin (current / 50.0) 1.0, 0.2, 1.0)
                (Some (legs (0.1 / (0.5 + current * 0.3))
                            (slice_from path k ++ slice_to path k)))).
Proof.
  intros Hc Hlen Hi Hn.
  destruct (share_index_Return i n (len path)) as (k & Ek & Hk);
    [lia | lia | lia |].
  exists k. split; [exact Ek |]. split; [exact Hk |].
  cbv zeta. rewrite Ek. cbn [obind].
  rewrite animate_along_path_legs;
    [reflexivity | rewrite rotation_length; lia | lra].
Qed.

(** X21.  [_update_electron_flow(current)] for a current of at least 0, on a
    circuit whose path has at least two points, the numbers of points and of
    electrons being ints a float holds exactly (below 2^53): it never raises
    and keeps the number of electrons.  Electron [i] gets the colour
    [(b, b, 0.2, 1.0)] with [b = 0.3 + 0.7 * min(current/50, 1)], and a loop
    over the path rotated to start at index
    [k = int((i / len(electrons)) * len(path))], computed on binary64 numbers
    and not negative: the rotated path [path[k:] + path[:k]] is a permutation
    of the path, the loop has [len(path) - 1] legs, each from one point of
    the rotated path to the next and each lasting
    [0.1 / (0.5 + current * 0.3)].  An electron without animation stays where
    it is; one that was already looping is first put at the end of the last
    leg of its old loop. *)
Theorem electron_flow_animations (current : Q) (self : t) :
  0 <= current -> (2 <= len (electron_path self) < 2 ^ 53)%Z ->
  (len (electrons self) < 2 ^ 53)%Z ->
  exists updated,
    _update_electron_flow current self =
    Return (mk (indicator_color self) (body_color self) (electron_path self)
               updated) /\
    length updated = length (electrons self) /\
    forall i e,
      nth_error (electrons self) i = Some e ->
      exists k,
        share_index (Z.of_nat i) (len (electrons self))
                    (len (electron_path self)) = Return k /\
        (0 <= k)%Z /\
        let rotated :=
          slice_from (electron_path self) k ++ slice_to (electron_path self) k in
        let b := 0.3 + 0.7 * pymin (current / 50.0) 1.0 in
        Permutation rotated (electron_path self) /\
        nth_error updated i =
        Some (mk_electron
                (match animation_sequence e with
                 | Some intervals => List.last (map pos intervals) (position e)
                 | None => position e
                 end)
                (b, b, 0.2, 1.0)
                (Some (legs (0.1 / (0.5 + current * 0.3)) rotated))) /\
        length (legs (0.1 / (0.5 + current * 0.3)) rotated)
        = (length (electron_path self) - 1)%nat.
Proof.
  intros Hc Hlen Hsize. unfold _update_electron_flow.
  rewrite pdiv_Ok by lra. cbn [lift obind].
  match goal with
  | |- context [mapM ?f ?l] =>
      destruct (mapM_Forall2 f
                  (fun ie e' =>
                     exists k,
                       share_index (fst ie) (len (electrons self))
                                   (len (electron_path self)) = Return k /\
                       (0 <= k)%Z /\
                       e' = mk_electron
                              (finish_animation (snd ie))
                              (0.3 + 0.7 * pymin (current / 50.0) 1.0,
                               0.3 + 0.7 * pymin (current / 50.0) 1.0,
                               0.2, 1.0)
                              (Some (legs (0.1 / (0.5 + current * 0.3))
                                       (slice_from (electron_path self) k
                                        ++ slice_to (electron_path self) k))))
                  l)
        as (updated & Eup & Hall)
  end.
  { intros [i e] Hin. apply enumerate_In in Hin. destruct Hin as [Hi _].
    destruct (update_electron_Return current (electron_path self)
                (len (electrons self)) i e Hc Hlen Hi Hsize)
      as (k & Ek & Hk & E).
    eexists. split; [exact E |]. exists k. cbn [fst snd].
    repeat split; assumption. }
  rewrite Eup. cbn [obind]. exists updated. split; [reflexivity |].
  assert (Hlength : length updated = length (electrons self)).
  { rewrite <- (Forall2_length _ _ _ Hall). apply enumerate_length. }
  split; [exact Hlength |].
  intros i e He.
  assert (Hi : (i < length (electrons self))%nat)
    by (apply nth_error_Some; rewrite He; discriminate).
  destruct (nth_error updated i) as [e' |] eqn:Ee'.
  2: { apply nth_error_None in Ee'. lia. }
  destruct (Forall2_nth_error _ _ _ _ _ Hall Ee') as (ie & Hie & HP).
  rewrite (enumerate_nth _ _ _ He) in Hie. injection Hie as <-.
  cbn [fst snd] in HP. destruct HP as (k & Ek & Hk & ->).
  exists k. split; [exact Ek |]. split; [exact Hk |]. cbv zeta.
  split; [apply rotation_Permutation |]. split; [reflexivity |].
  rewrite legs_length.
  pose proof (rotation_length (electron_path self) k) as Hrot.
  unfold len in Hrot. lia.
Qed.

Lemma electron_flow_animations_witness :
  let self := mk (1.0, 1.0, 0.3, 1.0) (0.2, 0.4, 0.8, 1.0)
                 the_electron_path
                 [new_electron (-2.5, 0, 0.5);
                  mk_electron (2.4, 0, -0.5) (1.0, 1.0, 0.2, 1.0)
                    (Some [mk_interval 0.1 (1, 0, 0.5) (0, 0, 0.5)])] in
  let current := 1.2 in
  exists updated,
    _update_electron_flow current self =
    Return (mk (indicator_color self) (body_color self) (electron_path self)
               updated) /\
    length updated = length (electrons self) /\
    forall i e,
      nth_error (electrons self) i = Some e ->
      exists k,
        share_index (Z.of_nat i) (len (electrons self))
                    (len (electron_path self)) = Return k /\
        (0 <= k)%Z /\
        let rotated :=
          slice_from (electron_path self) k ++ slice_to (electron_path self) k in
        let b := 0.3 + 0.7 * pymin (current / 50.0) 1.0 in
        Permutation rotated (electron_path self) /\
        nth_error updated i =
        Some (mk_electron
                (match animation_sequence e with
                 | Some intervals => List.last (map pos intervals) (position e)
                 | None => position e
                 end)
                (b, b, 0.2, 1.0)
                (Some (legs (0.1 / (0.5 + current * 0.3)) rotated))) /\
        length (legs (0.1 / (0.5 + current * 0.3)) rotated)
        = (length (electron_path self) - 1)%nat.
Proof.
  apply (electron_flow_animations 1.2
           (mk (1.0, 1.0, 0.3, 1.0) (0.2, 0.4, 0.8, 1.0) the_electron_path
               [new_electron (-2.5, 0, 0.5);
                mk_electron (2.4, 0, -0.5) (1.0, 1.0, 0.2, 1.0)
                  (Some [mk_interval 0.1 (1, 0, 0.5) (0, 0, 0.5)])])).
  - discriminate.
  - split; [discriminate | reflexivity].
  - reflexivity.
Defined.

Lemma Forall2_enumerate {A B : Type} (P : A -> B -> Prop)
  (es : list A) (bs : list B) :
  Forall2 (fun ie b => P (snd ie) b) (enumerate es) bs -> Forall2 P es bs.
Proof.
  unfold enumerate, range, len. rewrite Nat2Z.id. generalize 0%nat.
  revert bs. induction es as [| a es IH]; intros bs off H.
  - inversion H. constructor.
  - cbn [length seq map combine] in H. inversion H as [| ? b ? bs' Hab Hrest];
      subst. constructor; [exact Hab |]. apply (IH bs' (S off)). exact Hrest.
Qed.

Lemma reachable_visual_ranges (physics : OhmsLawPhysics.t) :
  OhmsLawPhysics.reachable physics ->
  let v := OhmsLawPhysics._voltage physics in
  let r := OhmsLawPhysics._resistance physics in
  let c := OhmsLawPhysics._current physics in
  (0.02 <= v / OhmsLawPhysics.MAX_VOLTAGE <= 1) /\
  (0.2 <= 0.4 * (1 - r / OhmsLawPhysics.MAX_RESISTANCE * 0.5) < 0.4) /\
  (0.3 < 0.3 + 0.7 * pymin (c / 50.0) 1.0 <= 1) /\
  (0.5 < 0.5 + c * 0.3).
Proof.
  intros Hreach v r c.
  destruct (OhmsLawMore.ohm_reachable_fields physics Hreach)
    as (Hv & Hr & _ & _).
  pose proof (OhmsLawMore.ohm_reachable_current physics Hreach) as Hc.
  fold v r c in Hv, Hr, Hc.
  unfold OhmsLawPhysics.MAX_VOLTAGE, OhmsLawPhysics.MAX_RESISTANCE.
  assert (Ev : v / 50.0 == v * (1 # 50)) by field.
  assert (Er : r / 100.0 == r * (1 # 100)) by field.
  assert (Ec : c / 50.0 == c * (1 # 50)) by field.
  split; [rewrite Ev; split; lra |].
  split; [rewrite Er; split; lra |].
  split; [| lra].
  unfold pymin. destruct (Qlt_le_dec 1.0 (c / 50.0)); [split; lra |].
  rewrite Ec. split; lra.
Qed.

(** X22.  [on_parameters_changed] with a physics object a program can hold
    never raises, on any circuit whose numbers of path points and of
    electrons are ints a float holds exactly (below 2^53).  It keeps the path
    and the number of electrons.  With [v], [r] and [c] the voltage, the
    resistance and the current of the physics object, the battery indicator
    becomes [(v / 50.0, v / 50.0, 0.3, 1.0)], the resistor body
    [(0.2, 0.4 * (1 - r / 100.0 * 0.5), 0.8, 1.0)] and every electron
    [(b, b, 0.2, 1.0)] with [b = 0.3 + 0.7 * min(c / 50.0, 1.0)]; these
    channels are in [0.02, 1], in [0.2, 0.4) and in (0.3, 1].  When the path
    has at least two points every electron gets a loop (an electron that had
    one is first put at the end of its last leg, the others stay where they
    are); on a shorter path the electrons only change colour. *)
Theorem circuit_update_on_reachable_physics
  (physics : OhmsLawPhysics.t) (circuit : t) :
  OhmsLawPhysics.reachable physics ->
  (len (electron_path circuit) < 2 ^ 53)%Z ->
  (len (electrons circuit) < 2 ^ 53)%Z ->
  let v := OhmsLawPhysics._voltage physics in
  let r := OhmsLawPhysics._resistance physics in
  let c := OhmsLawPhysics._current physics in
  let b := 0.3 + 0.7 * pymin (c / 50.0) 1.0 in
  exists circuit',
    on_parameters_changed physics circuit = Return circuit' /\
    electron_path circuit' = electron_path circuit /\
    indicator_color circuit' = (v / 50.0, v / 50.0, 0.3, 1.0) /\
    body_color circuit' = (0.2, 0.4 * (1 - r / 100.0 * 0.5), 0.8, 1.0) /\
    Forall2
      (fun e e' =>
         sphere_color e' = (b, b, 0.2, 1.0) /\
         if (len (electron_path circuit) <? 2)%Z then
           position e' = position e /\
           animation_sequence e' = animation_sequence e
         else
           position e' =
           match animation_sequence e with
           | Some intervals => List.last (map pos intervals) (position e)
           | None => position e
           end /\
           exists intervals,
             animation_sequence e' = Some intervals /\
             length intervals = (length (electron_path circuit) - 1)%nat)
      (electrons circuit) (electrons circuit') /\
    (0.02 <= v / 50.0 <= 1) /\
    (0.2 <= 0.4 * (1 - r / 100.0 * 0.5) < 0.4) /\
    (0.3 < b <= 1).
Proof.
  intros Hreach Hpath Hsize v r c b.
  destruct (reachable_visual_ranges physics Hreach) as (Hx & Hg & Hb & Hsf).
  fold v r c in Hx, Hg, Hb, Hsf. fold b in Hb.
  unfold OhmsLawPhysics.MAX_VOLTAGE in Hx.
  unfold OhmsLawPhysics.MAX_RESISTANCE in Hg.
  unfold on_parameters_changed, update, update_voltage_visual,
    update_resistance_visual.
  rewrite !pdiv_Ok
    by (unfold OhmsLawPhysics.MAX_VOLTAGE, OhmsLawPhysics.MAX_RESISTANCE; lra).
  cbn [lift obind]. unfold _update_electron_flow.
  cbn [electrons electron_path indicator_color body_color].
  fold v r c. rewrite pdiv_Ok by lra. cbn [lift obind]. fold b.
  set (sf := 0.5 + c * 0.3) in *.
  set (path := electron_path circuit) in *.
  match goal with
  | |- context [mapM ?f ?l] =>
      destruct (mapM_Forall2 f
                  (fun ie e' =>
                     sphere_color e' = (b, b, 0.2, 1.0) /\
                     if (len path <? 2)%Z then
                       position e' = position (snd ie) /\
                       animation_sequence e' = animation_sequence (snd ie)
                     else
                       position e' = finish_animation (snd ie) /\
                       exists intervals,
                         animation_sequence e' = Some intervals /\
                         length intervals = (length path - 1)%nat)
                  l)
        as (updated & Eup & Hall)
  end.
  { intros [i e] Hin. apply enumerate_In in Hin. destruct Hin as [Hi _].
    cbn [snd].
    assert (Hpos : (0 <= len path)%Z) by (unfold len; lia).
    destruct (share_index_Return i (len (electrons circuit)) (len path))
      as (k & Ek & Hk); [lia | lia | lia |].
    rewrite Ek. cbn [obind].
    destruct (Z.ltb_spec (len path) 2) as [Hshort | Hlong].
    - unfold animate_along_path. rewrite rotation_length.
      assert (E : (len path <? 2)%Z = true) by (apply Z.ltb_lt; exact Hshort).
      rewrite E. eexists. split; [reflexivity |].
      repeat split; reflexivity.
    - rewrite animate_along_path_legs;
        [| rewrite rotation_length; exact Hlong | lra].
      eexists. split; [reflexivity |].
      cbn [sphere_color position animation_sequence update_color].
      split; [reflexivity |]. split; [reflexivity |].
      eexists. split; [reflexivity |].
      rewrite legs_length.
      pose proof (rotation_length path k) as Hrot. unfold len in Hrot. lia. }
  rewrite Eup. cbn [obind]. eexists. split; [reflexivity |].
  cbn [electrons electron_path indicator_color body_color].
  apply (Forall2_enumerate
           (fun e e' =>
              sphere_color e' = (b, b, 0.2, 1.0) /\
              if (len path <? 2)%Z then
                position e' = position e /\
                animation_sequence e' = animation_sequence e
              else
                position e' = finish_animation e /\
                exists intervals,
                  animation_sequence e' = Some intervals /\
                  length intervals = (length path - 1)%nat)) in Hall.
  split; [reflexivity |]. split; [reflexivity |]. split; [reflexivity |].
  split; [exact Hall |]. split; [exact Hx |]. split; [exact Hg | exact Hb].
Qed.

Lemma circuit_update_on_reachable_physics_witness :
  let physics := OhmsLawPhysics.mk 12.0 10.0 (12.0 / 10.0)
                   (12.0 * (12.0 / 10.0)) in
  let circuit := mk (1.0, 1.0, 0.3, 1.0) (0.2, 0.4, 0.8, 1.0)
                    the_electron_path
                    [new_electron (-2.5, 0, 0.5);
                     mk_electron (2.4, 0, -0.5) (1.0, 1.0, 0.2, 1.0)
                       (Some [mk_interval 0.1 (1, 0, 0.5) (0, 0, 0.5)])] in
  let v := OhmsLawPhysics._voltage physics in
  let r := OhmsLawPhysics._resistance physics in
  let c := OhmsLawPhysics._current physics in
  let b := 0.3 + 0.7 * pymin (c / 50.0) 1.0 in
  exists circuit',
    on_parameters_changed physics circuit = Return circuit' /\
    electron_path circuit' = electron_path circuit /\
    indicator_color circuit' = (v / 50.0, v / 50.0, 0.3, 1.0) /\
    body_color circuit' = (0.2, 0.4 * (1 - r / 100.0 * 0.5), 0.8, 1.0) /\
    Forall2
      (fun e e' =>
         sphere_color e' = (b, b, 0.2, 1.0) /\
         if (len (electron_path circuit) <? 2)%Z then
           position e' = position e /\
           animation_sequence e' = animation_sequence e
         else
           position e' =
           match animation_sequence e with
           | Some intervals => List.last (map pos intervals) (position e)
           | None => position e
           end /\
           exists intervals,
             animation_sequence e' = Some intervals /\
             length intervals = (length (electron_path circuit) - 1)%nat)
      (electrons circuit) (electrons circuit') /\
    (0.02 <= v / 50.0 <= 1) /\
    (0.2 <= 0.4 * (1 - r / 100.0 * 0.5) < 0.4) /\
    (0.3 < b <= 1).
Proof.
  apply (circuit_update_on_reachable_physics
           (OhmsLawPhysics.mk 12.0 10.0 (12.0 / 10.0) (12.0 * (12.0 / 10.0)))
           (mk (1.0, 1.0, 0.3, 1.0) (0.2, 0.4, 0.8, 1.0)
               the_electron_path
               [new_electron (-2.5, 0, 0.5);
                mk_electron (2.4, 0, -0.5) (1.0, 1.0, 0.2, 1.0)
                  (Some [mk_interval 0.1 (1, 0, 0.5) (0, 0, 0.5)])])).
  - exact OhmsLawSpec.default_object_reachable.
  - reflexivity.
  - reflexivity.
Defined.

End CircuitFacts.

(** * optical_components.py *)

Module OpticalFacts.
Import OpticalComponents.

Lemma mapM_inv {A B : Type} (f : A -> outcome B) (l : list A) (bs : list B) :
  mapM f l = Return bs -> Forall2 (fun a b => f a = Return b) l bs.
Proof.
  revert bs. induction l as [| a l IH]; intros bs H; cbn [mapM] in H.
  - injection H as <-. constructor.
  - destruct (f a) as [b |] eqn:Eb; cbn [obind] in H; [| discriminate].
    destruct (mapM f l) as [bs' |] eqn:Ebs; cbn [obind] in H; [| discriminate].
    injection H as <-. constructor; [exact Eb | apply IH; reflexivity].
Qed.

Lemma last_default {A : Type} (l : list A) (c a b : A) :
  List.last (c :: l) a = List.last (c :: l) b.
Proof.
  revert c. induction l as [| d l IH]; intros c; [reflexivity |].
  change (List.last (d :: l) a = List.last (d :: l) b). apply IH.
Qed.

Lemma nth_error_last {A : Type} (l : list A) (a : A) :
  nth_error (a :: l) (length l) = Some (List.last l a).
Proof.
  revert a. induction l as [| b l IH]; intros a; [reflexivity |].
  cbn [length nth_error]. rewrite IH.
  destruct l as [| c l]; [reflexivity |].
  f_equal. change (List.last (c :: l) b = List.last (c :: l) a).
  apply last_default.
Qed.

Lemma slice_from_one {A : Type} (l : list A) : slice_from l 1 = skipn 1 l.
Proof.
  unfold slice_from, slice_bound. cbn [Z.ltb Z.compare].
  destruct l as [| a l]; [reflexivity |].
  rewrite Z.min_l by (unfold len; cbn [length]; lia). reflexivity.
Qed.

Lemma update_path_segments_Return (a : Point3) (rest : list Point3)
  (self : LightRay) :
  update_path_segments (a :: rest) self =
  Return (mk_ray a (List.last rest a) (color self) (Some (a :: rest))
                 (match rest with [] => [a; a] | _ => a :: rest end)).
Proof.
  unfold update_path_segments.
  assert (E0 : getitem (a :: rest) 0 = Return a) by reflexivity.
  assert (E1 : getitem (a :: rest) (-1) = Return (List.last rest a)).
  { unfold getitem. cbn [Z.ltb Z.compare].
    assert (E : (-1 + len (a :: rest) <? 0)%Z = false)
      by (apply Z.ltb_ge; unfold len; cbn [length]; lia).
    rewrite E.
    replace (Z.to_nat (-1 + len (a :: rest))) with (length rest)
      by (unfold len; cbn [length]; lia).
    rewrite nth_error_last. reflexivity. }
  rewrite E0, E1. cbn [obind]. unfold _create_ray.
  destruct rest as [| b rest].
  - reflexivity.
  - assert (E : (1 <? len (a :: b :: rest))%Z = true)
      by (apply Z.ltb_lt; unfold len; cbn [length]; lia).
    rewrite E, E0. cbn [obind]. rewrite slice_from_one. reflexivity.
Qed.

Lemma update_path_segments_empty (self : LightRay) :
  update_path_segments [] self = Throw IndexError.
Proof. reflexivity. Qed.

Lemma ray_segments_Return
  (physics : VisionPhysics.t) (self : t) (focus_y z_offset : Q) :
  ray_segments physics self focus_y z_offset
  = Return (ray_path physics self focus_y z_offset).
Proof.
  unfold ray_segments, ray_path.
  destruct (lens_hidden (lens self) || _).
  - destruct (_ <? 1.0); [reflexivity |].
    rewrite pdiv_Ok by lra. reflexivity.
  - rewrite pdiv_Ok by lra. cbn [lift obind].
    destruct (0 <? _); reflexivity.
Qed.

(** A ray path starts at the object and has four or six points. *)
Lemma ray_path_shape
  (physics : VisionPhysics.t) (self : t) (focus_y z_offset : Q) :
  exists rest,
    ray_path physics self focus_y z_offset
    = (0, test_object_y self, z_offset) :: rest /\
    rest <> [] /\
    (length rest = 3%nat \/ length rest = 5%nat).
Proof.
  unfold ray_path.
  destruct (lens_hidden (lens self) || _);
    [destruct (_ <? 1.0) |];
    eexists; (split; [reflexivity |]); (split; [discriminate |]);
    cbn [length]; tauto.
Qed.

(** The focal height [_update_light_rays] computes. *)
Lemma focus_height_range (lp rp : Q) :
  let focus_y :=
    pymax (-2.0)
      (pymin 1.5
         (if Qabs (lp - rp) <? 0.25 then -0.98
          else -0.98 + (lp - rp) * 0.8)) in
  (-2 <= focus_y <= 1.5) /\
  (Qabs (lp - rp) < 0.25 -> focus_y = -0.98) /\
  (0.25 <= Qabs (lp - rp) ->
   (lp - rp <= -1.275 -> focus_y == -2) /\
   (3.1 <= lp - rp -> focus_y == 1.5) /\
   (-1.275 <= lp - rp <= 3.1 -> focus_y == -0.98 + 0.8 * (lp - rp))).
Proof.
  cbv zeta. split.
  { match goal with
    | |- _ <= pymax _ (pymin _ ?x) <= _ =>
        pose proof (clamp_range (-2.0) 1.5 x ltac:(lra)) as Hc
    end. lra. }
  split.
  - intros H. apply Qltb_true in H. rewrite H. reflexivity.
  - intros H. apply Qltb_false in H. rewrite H.
    repeat split; intros Hd; by_cases; lra.
Qed.

Lemma update_light_rays_with_physics
  (physics : VisionPhysics.t) (self : t) (e q : Q) :
  VisionPhysics.get_effective_near_point physics = Ok e ->
  VisionPhysics.get_focus_quality physics = Ok q ->
  0 <= q <= 1 ->
  let focus_y :=
    pymax (-2.0)
      (pymin 1.5
         (if Qabs (VisionPhysics._lens_power physics
                   - VisionPhysics._required_power physics) <? 0.25
          then -0.98
          else -0.98 + (VisionPhysics._lens_power physics
                        - VisionPhysics._required_power physics) * 0.8)) in
  _update_light_rays (Some physics) self =
  Return
    (mk (lens self) (test_object_y self) (0, focus_y, 0) (1.0, 0.3, 0.3, 1.0)
        (map (fun '(i, ray) =>
                let segs :=
                  ray_path physics self focus_y
                    (inject_Z (i - len (light_rays self) / 2) * 0.6) in
                mk_ray (List.hd (0, 0, 0) segs)
                       (List.last segs (0, 0, 0)) (color ray) (Some segs) segs)
             (enumerate (light_rays self)))).
Proof.
  intros Ee Eq Hq focus_y. unfold _update_light_rays.
  rewrite Ee, Eq. cbn [lift obind]. unfold VisionPhysics.get_required_power.
  fold focus_y.
  assert (E80 : (80 <? q) = false) by (apply Qltb_false; lra).
  assert (E50 : (50 <? q) = false) by (apply Qltb_false; lra).
  rewrite E80, E50.
  erewrite mapM_Return; [reflexivity |].
  intros [i ray] _. rewrite ray_segments_Return. cbn [obind].
  destruct (ray_path_shape physics self focus_y
              (inject_Z (i - len (light_rays self) / 2) * 0.6))
    as (rest & -> & Hne & _).
  rewrite update_path_segments_Return. cbn [List.hd].
  destruct rest as [| b rest]; [contradiction |].
  change (List.last ((0, test_object_y self,
                      inject_Z (i - len (light_rays self) / 2) * 0.6)
                     :: b :: rest) (0, 0, 0))
    with (List.last (b :: rest) (0, 0, 0)).
  rewrite (last_default rest b _ (0, 0, 0)). reflexivity.
Qed.

Lemma effective_outcome (physics : VisionPhysics.t) :
  (VisionPhysics._lens_power physics == 4 /\
   VisionPhysics.get_effective_near_point physics = Raise ZeroDivisionError) \/
  (~ VisionPhysics._lens_power physics == 4 /\
   exists e q,
     VisionPhysics.get_effective_near_point physics = Ok e /\
     VisionPhysics.get_focus_quality physics = Ok q /\ 0 <= q <= 1).
Proof.
  destruct (Qeq_dec (VisionPhysics._lens_power physics) 4) as [H4 | H4].
  - left. split; [exact H4 |].
    assert (Hlens : 0.01 < Qabs (VisionPhysics._lens_power physics))
      by (rewrite H4; reflexivity).
    rewrite (VisionMore.effective_near_point_with_lens physics Hlens).
    assert (Eg : (0.001 <? Qabs (1.0 / VisionPhysics._lens_power physics
                                 - - VisionPhysics.NORMAL_NEAR_POINT / 100.0))
                 = true)
      by (apply Qltb_true, VisionMore.lens_guard_when_four; exact H4).
    rewrite Eg. unfold pdiv.
    destruct (Qeq_dec _ 0) as [_ | Hnz]; [reflexivity |].
    exfalso. apply Hnz. apply VisionMore.lens_denominator_zero; [| exact H4].
    apply VisionMore.lens_power_nonzero. exact Hlens.
  - right. split; [exact H4 |].
    destruct (VisionPhysics.get_effective_near_point physics) as [e | []] eqn:Ee.
    + destruct (VisionMore.focus_quality_of physics e Ee) as (q & Eq & Hq).
      exists e, q. split; [reflexivity |]. split; assumption.
    + exfalso. apply H4.
      destruct (Qlt_le_dec 0.01 (Qabs (VisionPhysics._lens_power physics)))
        as [Hlens | Hno].
      * rewrite (VisionMore.effective_near_point_with_lens physics Hlens) in Ee.
        destruct (0.001 <? _) in Ee; [| discriminate].
        unfold pdiv in Ee.
        destruct (Qeq_dec _ 0) as [Hz | _] in Ee; [| discriminate].
        apply VisionMore.lens_denominator_zero in Hz; [exact Hz |].
        apply VisionMore.lens_power_nonzero. exact Hlens.
      * rewrite (VisionMore.effective_near_point_no_lens physics Hno) in Ee.
        discriminate.
Qed.

Lemma update_light_rays_outcome (physics : VisionPhysics.t) (self : t) :
  (VisionPhysics._lens_power physics == 4 /\
   _update_light_rays (Some physics) self = Throw DivisionByZero) \/
  (~ VisionPhysics._lens_power physics == 4 /\
   exists e q,
     VisionPhysics.get_effective_near_point physics = Ok e /\
     VisionPhysics.get_focus_quality physics = Ok q /\ 0 <= q <= 1).
Proof.
  destruct (effective_outcome physics) as [[H4 E] | [H4 H]].
  - left. split; [exact H4 |]. unfold _update_light_rays. rewrite E. reflexivity.
  - right. split; assumption.
Qed.

(** X23.  [_update_light_rays()] with a physics object raises exactly when
    the lens power is 4 diopters (the [ZeroDivisionError] of
    [get_effective_near_point()], whose result it does not use); for every
    other lens power, and without a physics object, it returns: no ray path it
    builds is empty, so no [IndexError] comes out of
    [update_path_segments]. *)
Theorem update_light_rays_raises_iff_four
  (physics : VisionPhysics.t) (self : t) :
  (_update_light_rays (Some physics) self = Throw DivisionByZero
   <-> VisionPhysics._lens_power physics == 4) /\
  (~ VisionPhysics._lens_power physics == 4 ->
   exists self', _update_light_rays (Some physics) self = Return self') /\
  (exists self', _update_light_rays None self = Return self').
Proof.
  split; [| split].
  - destruct (update_light_rays_outcome physics self)
      as [[H4 E] | [H4 (e & q & Ee & Eq & Hq)]].
    + split; intros _; assumption.
    + rewrite (update_light_rays_with_physics physics self e q Ee Eq Hq).
      split; [discriminate | contradiction].
  - intros H4.
    destruct (update_light_rays_outcome physics self)
      as [[H4' _] | [_ (e & q & Ee & Eq & Hq)]]; [contradiction |].
    rewrite (update_light_rays_with_physics physics self e q Ee Eq Hq).
    eexists. reflexivity.
  - unfold _update_light_rays.
    match goal with
    | |- context [mapM ?f ?l] =>
        destruct (mapM_Forall2 f (fun _ _ => True) l)
          as (rays & E & _)
    end.
    + intros [i ray] _. eexists.
      split; [apply update_path_segments_Return | exact I].
    + rewrite E. eexists. reflexivity.
Qed.

(** X24.  When [_update_light_rays()] returns, the lens and the test object
    are untouched; the focal point sits on the axis at a height between -2
    and 1.5: on the retina (-0.98) when the lens power is within 0.25 diopter
    of the required power, and otherwise at [-0.98 + 0.8 * (lens_power -
    required_power)] cut to that range.  Its colour is always the red
    [(1.0, 0.3, 0.3, 1.0)]: the focus quality is at most 1 and is compared
    with 80 and 50. *)
Theorem focal_point_after_update
  (physics : VisionPhysics.t) (self self' : t) :
  _update_light_rays (Some physics) self = Return self' ->
  let diff := VisionPhysics._lens_power physics
              - VisionPhysics._required_power physics in
  lens self' = lens self /\
  test_object_y self' = test_object_y self /\
  focal_point_color self' = (1.0, 0.3, 0.3, 1.0) /\
  exists focus_y,
    focal_point_pos self' = (0, focus_y, 0) /\
    (-2 <= focus_y <= 1.5) /\
    (VisionPhysics.is_clear_vision physics = true -> focus_y = -0.98) /\
    (VisionPhysics.is_clear_vision physics = false ->
     (diff <= -1.275 -> focus_y == -2) /\
     (3.1 <= diff -> focus_y == 1.5) /\
     (-1.275 <= diff <= 3.1 -> focus_y == -0.98 + 0.8 * diff)).
Proof.
  intros E diff.
  destruct (update_light_rays_outcome physics self)
    as [[_ E'] | [_ (e & q & Ee & Eq & Hq)]]; [congruence |].
  rewrite (update_light_rays_with_physics physics self e q Ee Eq Hq) in E.
  injection E as <-.
  cbn [lens test_object_y focal_point_color focal_point_pos].
  split; [reflexivity |]. split; [reflexivity |]. split; [reflexivity |].
  eexists. split; [reflexivity |].
  destruct (focus_height_range (VisionPhysics._lens_power physics)
              (VisionPhysics._required_power physics)) as (Hr & Hc & Hn).
  split; [exact Hr |]. unfold VisionPhysics.is_clear_vision. fold diff. split.
  - intros H. apply Hc. apply Qltb_true. exact H.
  - intros H. apply Hn. apply Qltb_false. exact H.
Qed.

Lemma focal_point_after_update_witness :
  let physics := VisionPhysics.mk 50.0 25.0 0.0 25
                   (1.0 / (- 50.0 / 100.0) - 1.0 / (- 25.0 / 100.0)) in
  let self := mk (mk_lens "none" (0.7, 0.9, 1.0, 0.55) true (0, -0.25, 0))
                 (-2.5) (0, -0.95, 0) (1.0, 1.0, 0.4, 1.0) [] in
  let self' :=
    mk (mk_lens "none" (0.7, 0.9, 1.0, 0.55) true (0, -0.25, 0))
       (-2.5)
       (0, pymax (-2.0)
             (pymin 1.5
                (-0.98 + (0.0 - (1.0 / (- 50.0 / 100.0)
                                 - 1.0 / (- 25.0 / 100.0))) * 0.8)),
        0)
       (1.0, 0.3, 0.3, 1.0) [] in
  let diff := VisionPhysics._lens_power physics
              - VisionPhysics._required_power physics in
  lens self' = lens self /\
  test_object_y self' = test_object_y self /\
  focal_point_color self' = (1.0, 0.3, 0.3, 1.0) /\
  exists focus_y,
    focal_point_pos self' = (0, focus_y, 0) /\
    (-2 <= focus_y <= 1.5) /\
    (VisionPhysics.is_clear_vision physics = true -> focus_y = -0.98) /\
    (VisionPhysics.is_clear_vision physics = false ->
     (diff <= -1.275 -> focus_y == -2) /\
     (3.1 <= diff -> focus_y == 1.5) /\
     (-1.275 <= diff <= 3.1 -> focus_y == -0.98 + 0.8 * diff)).
Proof.
  apply (focal_point_after_update
           (VisionPhysics.mk 50.0 25.0 0.0 25
              (1.0 / (- 50.0 / 100.0) - 1.0 / (- 25.0 / 100.0)))
           (mk (mk_lens "none" (0.7, 0.9, 1.0, 0.55) true (0, -0.25, 0))
               (-2.5) (0, -0.95, 0) (1.0, 1.0, 0.4, 1.0) [])).
  reflexivity.
Defined.

Lemma ray_path_on_axis
  (physics : VisionPhysics.t) (self : t) (focus_y z_offset : Q) :
  z_offset == 0 ->
  Forall (fun p : Point3 => snd p == 0)
         (ray_path physics self focus_y z_offset).
Proof.
  intros Hz. unfold ray_path.
  destruct (lens_hidden (lens self) || _);
    [destruct (_ <? 1.0) | destruct (0 <? _)];
    repeat constructor; cbn [snd]; rewrite Hz; ring.
Qed.

(** X25.  When [_update_light_rays()] returns, there are as many rays as
    before and each keeps its colour.  Ray [i] is drawn along its new
    segments, from the test object at height [z = (i - count//2) * 0.6] to its
    last segment point.  With the lens shown and |lens power| at least 0.1 the
    path has six points and ends at the height of the focal point, 0.08 z off
    the axis; otherwise it has four points and ends at -0.98 (near point
    within 1 cm of 25) or at [-0.98 + (near_point - 25)/25 * 1.5].  The ray
    with [z = 0] stays on the axis. *)
Theorem ray_paths_after_update
  (physics : VisionPhysics.t) (self self' : t) :
  _update_light_rays (Some physics) self = Return self' ->
  length (light_rays self') = length (light_rays self) /\
  exists focus_y,
    focal_point_pos self' = (0, focus_y, 0) /\
    forall i ray',
      nth_error (light_rays self') i = Some ray' ->
      let z := inject_Z (Z.of_nat i - len (light_rays self) / 2) * 0.6 in
      let np := VisionPhysics._near_point physics in
      exists ray segs,
        nth_error (light_rays self) i = Some ray /\
        color ray' = color ray /\
        segments ray' = Some segs /\
        drawn ray' = segs /\
        List.hd (0, 0, 0) segs = start ray' /\
        List.last segs (0, 0, 0) = end_ ray' /\
        start ray' = (0, test_object_y self, z) /\
        (if lens_hidden (lens self)
            || (Qabs (VisionPhysics._lens_power physics) <? 0.1)
         then
           length segs = 4%nat /\
           end_ ray' =
           if Qabs (np - 25.0) <? 1.0 then (0, -0.98, z * 0.15)
           else (0, -0.98 + (np - 25.0) / 25.0 * 1.5, z * 0.3)
         else
           length segs = 6%nat /\ end_ ray' = (0, focus_y, z * 0.08)) /\
        (z == 0 -> Forall (fun p : Point3 => snd p == 0) segs).
Proof.
  intros E.
  destruct (update_light_rays_outcome physics self)
    as [[_ E'] | [_ (e & q & Ee & Eq & Hq)]]; [congruence |].
  rewrite (update_light_rays_with_physics physics self e q Ee Eq Hq) in E.
  injection E as <-. cbn [light_rays focal_point_pos].
  split; [rewrite length_map; apply CircuitFacts.enumerate_length |].
  eexists. split; [reflexivity |].
  intros i ray' Hray.
  set (z := inject_Z (Z.of_nat i - len (light_rays self) / 2) * 0.6).
  set (np := VisionPhysics._near_point physics).
  rewrite nth_error_map in Hray.
  destruct (nth_error (enumerate (light_rays self)) i) as [[k ray] |] eqn:Ek;
    [| discriminate].
  cbn [option_map] in Hray. injection Hray as <-.
  assert (Hin : In (k, ray) (enumerate (light_rays self)))
    by (eapply nth_error_In; exact Ek).
  apply CircuitFacts.enumerate_In in Hin. destruct Hin as [Hk Hnth].
  assert (Hi : nth_error (light_rays self) i = Some ray /\ k = Z.of_nat i).
  { assert (Hlt : (i < length (light_rays self))%nat).
    { rewrite <- (CircuitFacts.enumerate_length (light_rays self)).
      apply nth_error_Some. rewrite Ek. discriminate. }
    destruct (nth_error (light_rays self) i) as [r |] eqn:Er.
    - rewrite (CircuitFacts.enumerate_nth _ _ _ Er) in Ek.
      injection Ek as <- <-. split; reflexivity.
    - apply nth_error_None in Er. lia. }
  destruct Hi as [Hi ->]. fold z.
  exists ray. eexists. cbn [color segments drawn start end_].
  split; [exact Hi |]. split; [reflexivity |]. split; [reflexivity |].
  split; [reflexivity |]. split; [reflexivity |]. split; [reflexivity |].
  split; [| split].
  - unfold ray_path. destruct (lens_hidden (lens self) || _);
      [destruct (_ <? 1.0) | destruct (0 <? _)]; reflexivity.
  - unfold ray_path. fold np.
    destruct (lens_hidden (lens self) || _);
      [destruct (_ <? 1.0) | destruct (0 <? _)]; split; reflexivity.
  - apply ray_path_on_axis.
Qed.

Lemma ray_paths_after_update_witness :
  let physics := VisionPhysics.mk 25.0 25.0 0.0 25 0.0 in
  let ray := mk_ray (0, 6.0, 0) (0, 1.5, 0) (0.4, 1.0, 0.4, 1.0) None
                    [(0, 6.0, 0); (0, 1.5, 0)] in
  let self := mk (mk_lens "none" (0.7, 0.9, 1.0, 0.55) true (0, -0.25, 0))
                 (-2.5) (0, -0.95, 0) (1.0, 1.0, 0.4, 1.0) [ray] in
  let segs : list Point3 :=
    [(0, -2.5, inject_Z (0 - 1 / 2) * 0.6);
     (0, 1.2, inject_Z (0 - 1 / 2) * 0.6 * 0.5);
     (0, 0.65, inject_Z (0 - 1 / 2) * 0.6 * 0.25);
     (0, -0.98, inject_Z (0 - 1 / 2) * 0.6 * 0.15)] in
  let self' :=
    mk (lens self) (-2.5) (0, -0.98, 0) (1.0, 0.3, 0.3, 1.0)
       [mk_ray (0, -2.5, inject_Z (0 - 1 / 2) * 0.6)
               (0, -0.98, inject_Z (0 - 1 / 2) * 0.6 * 0.15)
               (0.4, 1.0, 0.4, 1.0) (Some segs) segs] in
  length (light_rays self') = length (light_rays self) /\
  exists focus_y,
    focal_point_pos self' = (0, focus_y, 0) /\
    forall i ray',
      nth_error (light_rays self') i = Some ray' ->
      let z := inject_Z (Z.of_nat i - len (light_rays self) / 2) * 0.6 in
      let np := VisionPhysics._near_point physics in
      exists ray segs,
        nth_error (light_rays self) i = Some ray /\
        color ray' = color ray /\
        segments ray' = Some segs /\
        drawn ray' = segs /\
        List.hd (0, 0, 0) segs = start ray' /\
        List.last segs (0, 0, 0) = end_ ray' /\
        start ray' = (0, test_object_y self, z) /\
        (if lens_hidden (lens self)
            || (Qabs (VisionPhysics._lens_power physics) <? 0.1)
         then
           length segs = 4%nat /\
           end_ ray' =
           if Qabs (np - 25.0) <? 1.0 then (0, -0.98, z * 0.15)
           else (0, -0.98 + (np - 25.0) / 25.0 * 1.5, z * 0.3)
         else
           length segs = 6%nat /\ end_ ray' = (0, focus_y, z * 0.08)) /\
        (z == 0 -> Forall (fun p : Point3 => snd p == 0) segs).
Proof.
  apply (ray_paths_after_update
           (VisionPhysics.mk 25.0 25.0 0.0 25 0.0)
           (mk (mk_lens "none" (0.7, 0.9, 1.0, 0.55) true (0, -0.25, 0))
               (-2.5) (0, -0.95, 0) (1.0, 1.0, 0.4, 1.0)
               [mk_ray (0, 6.0, 0) (0, 1.5, 0) (0.4, 1.0, 0.4, 1.0) None
                       [(0, 6.0, 0); (0, 1.5, 0)]])).
  reflexivity.
Defined.




Lemma set_color_Return (new_color : Color) (self : LightRay) :
  exists line,
    set_color new_color self =
    Return (mk_ray (start self) (end_ self) new_color (segments self) line).
Proof.
  unfold set_color, _create_ray.
  destruct (segments self) as [segs |]; [| eexists; reflexivity].
  destruct (1 <? len segs)%Z eqn:E; [| eexists; reflexivity].
  destruct segs as [| a segs]; [discriminate |].
  eexists. reflexivity.
Qed.

(** X27.  [update_light_rays(focus_quality)] never raises.  It leaves the
    lens, the test object, the focal point's position and every ray's end
    points and segments alone, and paints the focal point and all rays in one
    hue: green above 80, yellow above 50 up to 80, red up to 50, the focal
    point opaque and the rays with opacity 0.8, 0.7 and 0.6. *)
Theorem update_light_rays_colours (focus_quality : Q) (self : t) :
  exists self' r g b a,
    update_light_rays focus_quality self = Return self' /\
    lens self' = lens self /\
    test_object_y self' = test_object_y self /\
    focal_point_pos self' = focal_point_pos self /\
    focal_point_color self' = (r, g, b, 1.0) /\
    Forall2 (fun ray ray' =>
               start ray' = start ray /\ end_ ray' = end_ ray /\
               segments ray' = segments ray /\ color ray' = (r, g, b, a))
            (light_rays self) (light_rays self') /\
    ((80 < focus_quality /\ (r, g, b, a) = (0.3, 1.0, 0.3, 0.8)) \/
     (50 < focus_quality <= 80 /\ (r, g, b, a) = (1.0, 1.0, 0.3, 0.7)) \/
     (focus_quality <= 50 /\ (r, g, b, a) = (1.0, 0.3, 0.3, 0.6))).
Proof.
  assert (Hrays : forall c : Color,
             exists rays,
               mapM (set_color c) (light_rays self) = Return rays /\
               Forall2 (fun ray ray' =>
                          start ray' = start ray /\ end_ ray' = end_ ray /\
                          segments ray' = segments ray /\ color ray' = c)
                       (light_rays self) rays).
  { intros c. apply mapM_Forall2. intros ray _.
    destruct (set_color_Return c ray) as (line & E).
    eexists. split; [exact E |]. repeat split; reflexivity. }
  unfold update_light_rays.
  destruct (80 <? focus_quality) eqn:E80.
  - apply Qltb_true in E80.
    destruct (Hrays (0.3, 1.0, 0.3, 0.8)) as (rays & E & H). rewrite E.
    eexists. exists 0.3, 1.0, 0.3, 0.8. cbn [obind].
    split; [reflexivity |]. repeat (split; [reflexivity |]).
    split; [exact H |]. left. split; [exact E80 | reflexivity].
  - apply Qltb_false in E80. destruct (50 <? focus_quality) eqn:E50.
    + apply Qltb_true in E50.
      destruct (Hrays (1.0, 1.0, 0.3, 0.7)) as (rays & E & H). rewrite E.
      eexists. exists 1.0, 1.0, 0.3, 0.7. cbn [obind].
      split; [reflexivity |]. repeat (split; [reflexivity |]).
      split; [exact H |]. right. left.
      split; [split; assumption | reflexivity].
    + apply Qltb_false in E50.
      destruct (Hrays (1.0, 0.3, 0.3, 0.6)) as (rays & E & H). rewrite E.
      eexists. exists 1.0, 0.3, 0.3, 0.6. cbn [obind].
      split; [reflexivity |]. repeat (split; [reflexivity |]).
      split; [exact H |]. right. right. split; [exact E50 | reflexivity].
Qed.

End OpticalFacts.
